(** * football-tg-poll-sheets-sync: the conversation engine, embedded

    A shallow embedding of the Telegram bot that collects a list of
    usernames (typed in, or taken from the votes of a poll) and writes
    zeros into one column of a Google Sheet.

    Layout of the development, definitions first:
    - [Js]            the host string primitives the code relies on;
    - [Columns]       sheets.ts, the column-letter arithmetic;
    - [Poll]          poll.ts, the vote registry and the poll_answer handler;
    - [Host]          values, errors, numbers and the Sheets API as a
                      parameter of the model;
    - [Constants], [Session]   constants.ts and session.ts;
    - [Machine]       the state a handler runs on and the monad of handlers;
    - [Sheets]        sheets.ts, the client methods;
    - [BotHelpers], [Workflow]   bot-helpers.ts and workflow.ts;
    - [PollHandlers], [SheetHandlers], [ColumnHandlersA], [ColumnHandlersB]
                      the handlers of the states;
    - [Bot]           handlers/index.ts and commands.ts;
    - [Recovery]      the shapes of a run with respect to store failures;
    - [Demo]          a scripted store and whole numbers, to run the model;
    - [PollCommand]   poll.ts, the poll command;
    - [Shapes], [Progress], [Conversation], [CheckedStore], [Written]
                      the vocabulary of the statements: shapes of text and
                      maps, replies, the session invariant, the final write;
    then the theorems, one module per component.

    console.log / console.error calls have no effect on the session, the
    registry, the replies or the sheet and are left out everywhere. *)

From Stdlib Require Import ZArith Ascii String List Lia DecimalString.
From stdpp Require Import gmap strings list.

Local Open Scope string_scope.

(* ===================================================================== *)
(** ** Host string primitives *)
(* ===================================================================== *)

Module Js.

(** A JavaScript string is modelled by a Rocq [string]; text outside ASCII
    is the sequence of its UTF-8 bytes.  Case mapping covers ASCII and the
    Cyrillic letters U+0400..U+042F (what the yes/no answers use); every
    other code point is left as it is. *)

Definition code (c : ascii) : Z := Z.of_nat (nat_of_ascii c).

Definition fromCharCode (n : Z) : ascii := ascii_of_nat (Z.to_nat n).

Definition isUpper (c : ascii) : bool := ((65 <=? code c) && (code c <=? 90))%Z.
Definition isLower (c : ascii) : bool := ((97 <=? code c) && (code c <=? 122))%Z.
Definition isLetter (c : ascii) : bool := isUpper c || isLower c.
Definition isDigit (c : ascii) : bool := ((48 <=? code c) && (code c <=? 57))%Z.

(** White space as [String.prototype.trim] and the regular expression class
    [\s] see it, restricted to ASCII: tab, line feed, vertical tab, form
    feed, carriage return, space. *)
Definition isSpace (c : ascii) : bool :=
  ((9 <=? code c) && (code c <=? 13) || (code c =? 32))%Z.

Definition lowerChar (c : ascii) : ascii :=
  if isUpper c then fromCharCode (code c + 32) else c.

Definition upperChar (c : ascii) : ascii :=
  if isLower c then fromCharCode (code c - 32) else c.

(** [s.toLowerCase()].  In UTF-8 the capital Cyrillic letters are the two
    byte sequences D0 80..D0 AF; their small forms are D1 90..D1 9F (for
    D0 80..8F), D0 B0..D0 BF (for D0 90..9F) and D1 80..D1 8F (for
    D0 A0..AF). *)
Fixpoint toLowerCase (s : string) : string :=
  match s with
  | EmptyString => EmptyString
  | String c rest =>
      match rest with
      | String d rest' =>
          if (code c =? 208)%Z && (128 <=? code d)%Z && (code d <=? 143)%Z then
            String (fromCharCode 209) (String (fromCharCode (code d + 16)) (toLowerCase rest'))
          else if (code c =? 208)%Z && (144 <=? code d)%Z && (code d <=? 159)%Z then
            String c (String (fromCharCode (code d + 32)) (toLowerCase rest'))
          else if (code c =? 208)%Z && (160 <=? code d)%Z && (code d <=? 175)%Z then
            String (fromCharCode 209) (String (fromCharCode (code d - 32)) (toLowerCase rest'))
          else String (lowerChar c) (toLowerCase rest)
      | EmptyString => String (lowerChar c) EmptyString
      end
  end.

(** [s.toUpperCase()], on ASCII letters (the code applies it only to
    strings that matched [/^[A-Z]{1,2}$/i]). *)
Fixpoint toUpperCase (s : string) : string :=
  match s with
  | EmptyString => EmptyString
  | String c rest => String (upperChar c) (toUpperCase rest)
  end.

Fixpoint trimStart (s : string) : string :=
  match s with
  | String c rest => if isSpace c then trimStart rest else s
  | EmptyString => EmptyString
  end.

(** Drops trailing white space: a character is kept when it is not white
    space or when something is kept after it. *)
Fixpoint trimEnd (s : string) : string :=
  match s with
  | EmptyString => EmptyString
  | String c rest =>
      match trimEnd rest with
      | EmptyString => if isSpace c then EmptyString else String c EmptyString
      | kept => String c kept
      end
  end.

(** [s.trim()] *)
Definition trim (s : string) : string := trimEnd (trimStart s).

Fixpoint allChars (p : ascii -> bool) (s : string) : bool :=
  match s with
  | EmptyString => true
  | String c rest => p c && allChars p rest
  end.

(** [arr.join(sep)] on an array of strings. *)
Fixpoint join (sep : string) (l : list string) : string :=
  match l with
  | [] => EmptyString
  | [x] => x
  | x :: rest => x +:+ sep +:+ join sep rest
  end.

(** [String(n)] for a non-negative integer. *)
Definition showNat (n : nat) : string := NilEmpty.string_of_uint (Nat.to_uint n).

(** The double quote character, for the replies that quote text. *)
Definition dq : string := String (ascii_of_nat 34) EmptyString.

(** The line feed, [\n] in the source's literals. *)
Definition nl : string := String (ascii_of_nat 10) EmptyString.

(** JavaScript truthiness of a possibly undefined string: [undefined] and
    the empty string are falsy. *)
Definition truthy (o : option string) : bool :=
  match o with
  | Some (String _ _) => true
  | _ => false
  end.

End Js.

(* ===================================================================== *)
(** ** sheets.ts: column letters *)
(* ===================================================================== *)

Module Columns.
Import Js.
Local Open Scope Z_scope.

(** Numbers are JavaScript doubles in the source.  Every value computed
    here is an integer, modelled in [Z]; the model is exact while the
    values stay below 2^53, which holds for letters of up to eleven
    characters (Sheets itself stops at three). *)

(** The body of the [for] loop of [columnLetterToIndex]:
    [index = index * 26 + (letter.charCodeAt(i) - 64)]. *)
Fixpoint letterLoop (index : Z) (letter : string) : Z :=
  match letter with
  | EmptyString => index
  | String c rest => letterLoop (index * 26 + (code c - 64)) rest
  end.

(** [columnLetterToIndex]: "A" -> 0, "Z" -> 25, "AA" -> 26. *)
Definition columnLetterToIndex (letter : string) : Z :=
  letterLoop 0 letter - 1.

(** The [while (index > 0)] loop of [indexToColumnLetter].  [fuel] bounds
    the number of iterations; [indexToColumnLetter] passes more than the
    loop can use ([indexLoop_fuel] below). *)
Fixpoint indexLoop (fuel : nat) (index : Z) (result : string) : string :=
  match fuel with
  | O => result
  | S fuel' =>
      if 0 <? index then
        let index' := index - 1 in
        indexLoop fuel' (index' / 26)
                  (String (fromCharCode (65 + index' mod 26)) result)
      else result
  end.

(** [indexToColumnLetter]: 0 -> "A", 25 -> "Z", 26 -> "AA". *)
Definition indexToColumnLetter (index : Z) : string :=
  indexLoop (Z.to_nat (index + 1)) (index + 1) EmptyString.

(** [getNextColumnLetter]: "O" -> "P", "Z" -> "AA". *)
Definition getNextColumnLetter (letter : string) : string :=
  indexToColumnLetter (columnLetterToIndex letter + 1).

(** A column coordinate: capital letters only. *)
Definition isColumn (s : string) : bool := allChars isUpper s.

(** The successor the specification describes, written from its words:
    base 26 with the digits A..Z standing for 1..26 and no digit zero.
    [succDigits s] increments the last digit and returns the carry out of
    the first one; a carry out of the whole coordinate opens a new leading
    digit A. *)
Fixpoint succDigits (s : string) : string * bool :=
  match s with
  | EmptyString => (EmptyString, true)
  | String c rest =>
      let '(rest', carry) := succDigits rest in
      if carry then
        if (code c =? 90) then (String (fromCharCode 65) rest', true)
        else (String (fromCharCode (code c + 1)) rest', false)
      else (String c rest', false)
  end.

Definition columnSucc (s : string) : string :=
  let '(r, carry) := succDigits s in
  if carry then String (fromCharCode 65) r else r.

End Columns.

(* ===================================================================== *)
(** ** poll.ts: the vote registry *)
(* ===================================================================== *)

Module Poll.
Import Js.

(** A [Set<string>] keeps its elements in insertion order, which
    [Array.from(voters)] exposes: a list without repetitions. *)
Definition setHas (x : string) (s : list string) : bool := bool_decide (x ∈ s).

Definition setAdd (x : string) (s : list string) : list string :=
  if setHas x s then s else s ++ [x].

Definition setDelete (x : string) (s : list string) : list string :=
  filter (λ y, y ≠ x) s.

(** [PollData]; [votes] maps an option index to the set of "@usernames". *)
Record PollData := mkPollData {
  question : string;
  options : list string;
  votes : gmap nat (list string)
}.

(** [activePolls]: the process-wide registry, keyed by poll id. *)
Abbreviation Registry := (gmap string PollData).

(** The [user] of a poll_answer update; [username] is [None] when the
    property is absent or undefined. *)
Record User := mkUser {
  user_id : Z;
  username : option string
}.

(** [ctx.pollAnswer] *)
Record PollAnswer := mkPollAnswer {
  poll_id : string;
  user : option User;
  option_ids : list nat
}.

(** The poll command, once [sendPoll] returned a poll with an id:
    [activePolls.set(pollId, { question, options, votes: new Map() })]. *)
Definition storePoll (pollId question : string) (options : list string)
    (activePolls : Registry) : Registry :=
  <[pollId := mkPollData question options ∅]> activePolls.

(** [pollData.votes.get(index) || new Set()] *)
Definition votersFor (pollData : PollData) (index : nat) : list string :=
  default [] (votes pollData !! index).

(** "Remove user from all options first":
    [pollData.votes.forEach((voters) => voters.delete(usernameWithAt))]. *)
Definition removeFromAll (usernameWithAt : string)
    (votes : gmap nat (list string)) : gmap nat (list string) :=
  setDelete usernameWithAt <$> votes.

(** One turn of [for (const optionId of pollAnswer.option_ids)]: create
    the option's set when missing, then add the user to it. *)
Definition addVote (usernameWithAt : string)
    (votes : gmap nat (list string)) (optionId : nat) : gmap nat (list string) :=
  let votes' :=
    match votes !! optionId with
    | None => <[optionId := []]> votes
    | Some _ => votes
    end in
  match votes' !! optionId with
  | Some voters => <[optionId := setAdd usernameWithAt voters]> votes'
  | None => votes'
  end.

(** The poll_answer handler of [registerPollAnswerHandler].  The handler
    mutates the [PollData] object held by the registry; here the registry
    is returned with the record replaced. *)
Definition onPollAnswer (activePolls : Registry)
    (pollAnswer : option PollAnswer) : Registry :=
  match pollAnswer with
  | None => activePolls
  | Some pa =>
      let pollId := poll_id pa in
      match activePolls !! pollId with
      | None => activePolls (* Not our poll *)
      | Some pollData =>
          match user pa with
          | None => activePolls
          | Some u =>
              match username u with
              | None => activePolls
              | Some name =>
                  if truthy (Some name) then
                    let usernameWithAt := "@" +:+ name in
                    let removed := removeFromAll usernameWithAt (votes pollData) in
                    let added :=
                      match option_ids pa with
                      | [] => removed
                      | ids => foldl (addVote usernameWithAt) removed ids
                      end in
                    <[pollId := mkPollData (question pollData) (options pollData) added]>
                      activePolls
                  else activePolls
              end
          end
      end
  end.

(** What happens to the registry over time: polls are created and votes
    arrive. *)
Inductive Event :=
  | PollCreated (pollId question : string) (options : list string)
  | PollAnswered (pollAnswer : option PollAnswer).

Definition handleEvent (activePolls : Registry) (ev : Event) : Registry :=
  match ev with
  | PollCreated pollId question options => storePoll pollId question options activePolls
  | PollAnswered pa => onPollAnswer activePolls pa
  end.

(** The registry after a run of events, from the empty registry the module
    starts with. *)
Definition registryAfter (evs : list Event) : Registry :=
  foldl handleEvent ∅ evs.

(** The identity a vote carries, when it carries one. *)
Definition identityOf (pa : PollAnswer) : option string :=
  match user pa with
  | Some u =>
      match username u with
      | Some name => if truthy (Some name) then Some ("@" +:+ name) else None
      | None => None
      end
  | None => None
  end.

(** No identity sits in the sets of two different options of a poll. *)
Definition Exclusive (activePolls : Registry) : Prop :=
  ∀ pollId pollData, activePolls !! pollId = Some pollData →
    ∀ (i : string) (o1 o2 : nat),
      i ∈ votersFor pollData o1 → i ∈ votersFor pollData o2 → o1 = o2.

(** An event of a single-choice poll: all the option indices it carries
    are the same one. *)
Definition singleChoice (ev : Event) : Prop :=
  match ev with
  | PollAnswered (Some pa) => ∀ a b, a ∈ option_ids pa → b ∈ option_ids pa → a = b
  | _ => True
  end.

(** A registry with one poll of two options and no vote yet. *)
Definition demoPolls : Registry :=
  storePoll "p1" "Play on Sunday?" ["Yes"; "No"] ∅.

(** The poll_answer update of the user [name] who ticked the options
    [ids] of that poll. *)
Definition voteOf (name : string) (ids : list nat) : option PollAnswer :=
  Some (mkPollAnswer "p1" (Some (mkUser 1 (Some name))) ids).

End Poll.

(* ===================================================================== *)
(** ** Values, errors and the Sheets API the client talks to *)
(* ===================================================================== *)

Module Host.
Import Js.

(** What a [throw] carries: an [Error] with its message, or any other
    value ([error instanceof Error] is false for it). *)
Inductive JsError :=
  | ErrorObject (message : string)
  | Thrown.

(** The result of running code that may throw. *)
Inductive Outcome (A : Type) :=
  | Ok (a : A)
  | Throw (e : JsError).
Arguments Ok {A} a.
Arguments Throw {A} e.

(** JavaScript numbers that come from the operator or from a cell (a cost
    such as 12.5) are doubles; the model takes the type and the built-ins
    applied to them as given. *)
Class JsNumber := {
  Num : Type;
  (** [parseFloat(s)] *)
  parseFloat : string → Num;
  (** [Number.isNaN(x)] *)
  isNaN : Num → bool;
  (** [x < 0] *)
  isNegative : Num → bool;
  (** a number is truthy when it is neither zero nor NaN *)
  numTruthy : Num → bool;
  (** the double of an integer *)
  numOfZ : Z → Num;
  (** [String(x)] *)
  showNum : Num → string
}.

(** The value of a digit string read left to right; [None] when it has no
    leading digit.  Reading stops at the first character that is not a
    digit. *)
Fixpoint digitsValue (acc : option Z) (s : string) : option Z :=
  match s with
  | String c rest =>
      if isDigit c
      then digitsValue (Some (default 0%Z acc * 10 + (code c - 48))%Z) rest
      else acc
  | EmptyString => acc
  end.

(** [parseInt(s, 10)]: leading white space, an optional sign, then digits;
    [None] stands for NaN.  Exact in [Z]. *)
Definition parseInt10 (s : string) : option Z :=
  match trimStart s with
  | String "-" rest => Z.opp <$> digitsValue None rest
  | String "+" rest => digitsValue None rest
  | t => digitsValue None t
  end.

Section Cells.
Context `{JsNumber}.

(** A cell as the Sheets API returns it. *)
Inductive Cell :=
  | CNull
  | CStr (s : string)
  | CNum (x : Num)
  | CBool (b : bool).

(** [String(v)], where [None] is [undefined]. *)
Definition jsString (v : option Cell) : string :=
  match v with
  | None => "undefined"
  | Some CNull => "null"
  | Some (CStr s) => s
  | Some (CNum x) => showNum x
  | Some (CBool true) => "true"
  | Some (CBool false) => "false"
  end.

(** Truthiness of [v]. *)
Definition jsTruthy (v : option Cell) : bool :=
  match v with
  | None | Some CNull => false
  | Some (CStr s) => truthy (Some s)
  | Some (CNum x) => numTruthy x
  | Some (CBool b) => b
  end.

(** [v !== null && v !== undefined && String(v).trim() !== ''] *)
Definition hasContent (v : option Cell) : bool :=
  match v with
  | None | Some CNull => false
  | _ => negb (String.eqb (trim (jsString v)) EmptyString)
  end.

(** One entry of the [data] of a batchUpdate request. *)
Record Update := mkUpdate {
  update_range : string;
  update_values : list (list Cell)
}.

(** [{ column, date }], a column with its header text. *)
Record ColumnMatch := mkColumnMatch {
  match_column : string;
  match_date : string
}.

(** What [findColumnByDateText] answers, as column-handlers.ts reads it:
    [success: false] with an [error]; [success: true] with [multiple: true]
    and [matches]; [success: true] with a [column]; or none of these. *)
Inductive FindResult :=
  | FindFailed (error : string)
  | FindMultiple (matches : list ColumnMatch)
  | FindSingle (column date : string)
  | FindOther.

(** The requests the client sends. *)
Inductive ApiCall :=
  | CallInit
  | CallGet (range : string)
  | CallBatchGet (ranges : list string)
  | CallBatchUpdate (data : list Update)
  | CallFindColumnByDateText (text : string).

(** The backing store.  [World] is whatever stands behind the API (the
    spreadsheet, the network, the credentials); every request may answer
    or throw and may change the world.
    - [api_init] is [initSheetsClient()];
    - [api_get range] is [values.get], answering [response.data.values];
    - [api_batchGet ranges] is [values.batchGet], answering
      [response.data.valueRanges] with the [values] of each range;
    - [api_batchUpdate data] is [values.batchUpdate] with RAW input;
    - [api_findColumnByDateText] is the client method of that name, which
      one version of column-handlers.ts calls and whose body is not part
      of the sources at hand. *)
Class SheetsApi := {
  World : Type;
  api_init : World → Outcome unit * World;
  api_get : string → World → Outcome (option (list (list Cell))) * World;
  api_batchGet : list string → World →
                 Outcome (option (list (option (list (list Cell))))) * World;
  api_batchUpdate : list Update → World → Outcome unit * World;
  api_findColumnByDateText : string → World → Outcome FindResult * World
}.

End Cells.

End Host.

(* ===================================================================== *)
(** ** constants.ts and session.ts *)
(* ===================================================================== *)

Module Constants.
Import Js.

Definition ERR_TARGET_COLUMN_NOT_SET : string :=
  "❌ Error: target column not set. Start over with /update".
Definition ERR_SESSION_DATA_LOST : string :=
  "❌ Error: session data lost. Start over with /update".
Definition ERR_INVALID_YES_NO : string :=
  "❌ Please answer " +:+ dq +:+ "yes" +:+ dq +:+ " or " +:+ dq +:+ "no" +:+ dq.
Definition MSG_USE_UPDATE_AGAIN : string := "Use /update to begin again.".

Definition SHEET_NAME : string := "Sheet1".
Definition SHEET_DATA_FIRST_ROW : nat := 7.
Definition SHEET_DATA_FIRST_COLUMN : string := "F".
Definition SHEET_NICKNAME_COLUMN : string := "B".
Definition SHEET_DATE_ROW : nat := 1.
Definition SHEET_COST_ROW : nat := 2.
Definition SHEET_PLAYER_COUNT_ROW : nat := 3.

End Constants.

Module Session.
Import Js Host.

Section Session.
Context `{JsNumber}.

(** The states of [SessionData.state].  [awaiting_column_selection] is the
    state the column-handlers.ts with the date search enters; the session.ts
    at hand does not list it. *)
Inductive SessionState :=
  | idle
  | awaiting_column_confirmation
  | awaiting_new_column_choice
  | awaiting_date_name
  | awaiting_cost
  | awaiting_player_count
  | awaiting_player_count_confirmation
  | awaiting_usernames
  | awaiting_override_confirmation
  | awaiting_poll_intent
  | awaiting_poll_option_selection
  | awaiting_column_selection.

(** [ExistingValue]: a nickname whose target cell already holds a value. *)
Record ExistingValue := mkExistingValue {
  ev_nickname : string;
  ev_value : Cell
}.

(** [SessionData].  An optional field is [None] when undefined.
    [columnMatches] belongs to the same later column-handlers.ts as
    [awaiting_column_selection]. *)
Record SessionData := mkSession {
  state : SessionState;
  usernames : list string;
  detectedColumn : option string;
  targetColumn : option string;
  isNewColumn : option bool;
  dateName : option string;
  cost : option Num;
  playerCount : option Num;
  column : option string;
  nicknameRowsEntries : option (list (string * nat));
  existingValuesEntries : option (list ExistingValue);
  pollId : option string;
  pollQuestion : option string;
  columnMatches : option (list ColumnMatch)
}.

(** The value the session middleware starts every conversation with
    (index.ts); [resetSession] restores it. *)
Definition initialSession : SessionData :=
  mkSession idle [] None None None None None None None None None None None None.

(** Field assignments, [session.f = v]. *)
Definition set_state (v : SessionState) (s : SessionData) : SessionData :=
  mkSession v (usernames s) (detectedColumn s) (targetColumn s) (isNewColumn s) (dateName s) (cost s) (playerCount s) (column s) (nicknameRowsEntries s) (existingValuesEntries s) (pollId s) (pollQuestion s) (columnMatches s).
Definition set_usernames (v : list string) (s : SessionData) : SessionData :=
  mkSession (state s) v (detectedColumn s) (targetColumn s) (isNewColumn s) (dateName s) (cost s) (playerCount s) (column s) (nicknameRowsEntries s) (existingValuesEntries s) (pollId s) (pollQuestion s) (columnMatches s).
Definition set_detectedColumn (v : option string) (s : SessionData) : SessionData :=
  mkSession (state s) (usernames s) v (targetColumn s) (isNewColumn s) (dateName s) (cost s) (playerCount s) (column s) (nicknameRowsEntries s) (existingValuesEntries s) (pollId s) (pollQuestion s) (columnMatches s).
Definition set_targetColumn (v : option string) (s : SessionData) : SessionData :=
  mkSession (state s) (usernames s) (detectedColumn s) v (isNewColumn s) (dateName s) (cost s) (playerCount s) (column s) (nicknameRowsEntries s) (existingValuesEntries s) (pollId s) (pollQuestion s) (columnMatches s).
Definition set_isNewColumn (v : option bool) (s : SessionData) : SessionData :=
  mkSession (state s) (usernames s) (detectedColumn s) (targetColumn s) v (dateName s) (cost s) (playerCount s) (column s) (nicknameRowsEntries s) (existingValuesEntries s) (pollId s) (pollQuestion s) (columnMatches s).
Definition set_dateName (v : option string) (s : SessionData) : SessionData :=
  mkSession (state s) (usernames s) (detectedColumn s) (targetColumn s) (isNewColumn s) v (cost s) (playerCount s) (column s) (nicknameRowsEntries s) (existingValuesEntries s) (pollId s) (pollQuestion s) (columnMatches s).
Definition set_cost (v : option Num) (s : SessionData) : SessionData :=
  mkSession (state s) (usernames s) (detectedColumn s) (targetColumn s) (isNewColumn s) (dateName s) v (playerCount s) (column s) (nicknameRowsEntries s) (existingValuesEntries s) (pollId s) (pollQuestion s) (columnMatches s).
Definition set_playerCount (v : option Num) (s : SessionData) : SessionData :=
  mkSession (state s) (usernames s) (detectedColumn s) (targetColumn s) (isNewColumn s) (dateName s) (cost s) v (column s) (nicknameRowsEntries s) (existingValuesEntries s) (pollId s) (pollQuestion s) (columnMatches s).
Definition set_column (v : option string) (s : SessionData) : SessionData :=
  mkSession (state s) (usernames s) (detectedColumn s) (targetColumn s) (isNewColumn s) (dateName s) (cost s) (playerCount s) v (nicknameRowsEntries s) (existingValuesEntries s) (pollId s) (pollQuestion s) (columnMatches s).
Definition set_nicknameRowsEntries (v : option (list (string * nat))) (s : SessionData) : SessionData :=
  mkSession (state s) (usernames s) (detectedColumn s) (targetColumn s) (isNewColumn s) (dateName s) (cost s) (playerCount s) (column s) v (existingValuesEntries s) (pollId s) (pollQuestion s) (columnMatches s).
Definition set_existingValuesEntries (v : option (list ExistingValue)) (s : SessionData) : SessionData :=
  mkSession (state s) (usernames s) (detectedColumn s) (targetColumn s) (isNewColumn s) (dateName s) (cost s) (playerCount s) (column s) (nicknameRowsEntries s) v (pollId s) (pollQuestion s) (columnMatches s).
Definition set_pollId (v : option string) (s : SessionData) : SessionData :=
  mkSession (state s) (usernames s) (detectedColumn s) (targetColumn s) (isNewColumn s) (dateName s) (cost s) (playerCount s) (column s) (nicknameRowsEntries s) (existingValuesEntries s) v (pollQuestion s) (columnMatches s).
Definition set_pollQuestion (v : option string) (s : SessionData) : SessionData :=
  mkSession (state s) (usernames s) (detectedColumn s) (targetColumn s) (isNewColumn s) (dateName s) (cost s) (playerCount s) (column s) (nicknameRowsEntries s) (existingValuesEntries s) (pollId s) v (columnMatches s).
Definition set_columnMatches (v : option (list ColumnMatch)) (s : SessionData) : SessionData :=
  mkSession (state s) (usernames s) (detectedColumn s) (targetColumn s) (isNewColumn s) (dateName s) (cost s) (playerCount s) (column s) (nicknameRowsEntries s) (existingValuesEntries s) (pollId s) (pollQuestion s) v.

(** Modelled from the spec: the reset of [columnMatches], a field that a
    session.ts not among the sources declares; "resetting the session
    clears all fields to their empty/undefined defaults and returns state
    to idle". *)
Definition resetColumnMatches (s : SessionData) : SessionData :=
  set_columnMatches None s.

(** [resetSession]: the thirteen assignments of the function, and the
    reset of the field above. *)
Definition resetSession (s : SessionData) : SessionData :=
  resetColumnMatches
   (set_pollQuestion None
    (set_pollId None
     (set_existingValuesEntries None
      (set_nicknameRowsEntries None
       (set_column None
        (set_playerCount None
         (set_cost None
          (set_dateName None
           (set_isNewColumn None
            (set_targetColumn None
             (set_detectedColumn None
              (set_usernames []
               (set_state idle s))))))))))))).

End Session.

End Session.

(* ===================================================================== *)
(** ** The machine the handlers run on *)
(* ===================================================================== *)

Module Machine.
Import Js Host Session Poll.

Section Machine.
Context `{JsNumber} `{!SheetsApi}.

(** What a handler does that the outside can see, in order: the replies
    it sends and the requests it makes to the store, each request with
    whether it answered or threw. *)
Inductive Effect :=
  | Reply (text : string)
  | Called (c : ApiCall)
  | Failed (c : ApiCall) (e : JsError).

(** One conversation: its session ([ctx.session]), the poll registry of
    the process, everything done so far, and the backing store. *)
Record Machine := mkMachine {
  session : SessionData;
  activePolls : Registry;
  trace : list Effect;
  world : World
}.

(** A handler: it may throw, and it leaves a machine behind either way. *)
Definition M (A : Type) : Type := Machine → Outcome A * Machine.

Definition ret {A} (a : A) : M A := λ m, (Ok a, m).

Definition bind {A B} (c : M A) (k : A → M B) : M B :=
  λ m, match c m with
       | (Ok a, m') => k a m'
       | (Throw e, m') => (Throw e, m')
       end.

(** [try { c } catch (error) { h error }] *)
Definition tryCatch {A} (c : M A) (h : JsError → M A) : M A :=
  λ m, match c m with
       | (Ok a, m') => (Ok a, m')
       | (Throw e, m') => h e m'
       end.

(** [await ctx.reply(text)].  Delivery by the chat transport is taken to
    succeed. *)
Definition reply (text : string) : M unit :=
  λ m, (Ok tt, mkMachine (session m) (activePolls m) (trace m ++ [Reply text]) (world m)).

Definition getSession : M SessionData := λ m, (Ok (session m), m).

(** An assignment to the session. *)
Definition modify (f : SessionData → SessionData) : M unit :=
  λ m, (Ok tt, mkMachine (f (session m)) (activePolls m) (trace m) (world m)).

Definition getPolls : M Registry := λ m, (Ok (activePolls m), m).

(** A request to the store, logged with its result. *)
Definition call {A} (c : ApiCall) (request : World → Outcome A * World) : M A :=
  λ m, match request (world m) with
       | (Ok a, w) =>
           (Ok a, mkMachine (session m) (activePolls m) (trace m ++ [Called c]) w)
       | (Throw e, w) =>
           (Throw e, mkMachine (session m) (activePolls m) (trace m ++ [Failed c e]) w)
       end.

(** [throw e] *)
Definition throw {A} (e : JsError) : M A := λ m, (Throw e, m).

End Machine.

Declare Scope machine_scope.
Delimit Scope machine_scope with M.
Notation "x ← y ; z" := (bind y (λ x : _, z))
  (at level 20, y at level 100, z at level 200, only parsing) : machine_scope.
Notation "x ;; z" := (bind x (λ _, z))
  (at level 100, z at level 200, only parsing, right associativity) : machine_scope.

End Machine.

(* ===================================================================== *)
(** ** sheets.ts: the client methods *)
(* ===================================================================== *)

Module Sheets.
Import Js Host Constants Columns Session Machine.
Local Open Scope machine_scope.

(** A [Map<string, V>] keeps its entries in insertion order, which
    [Array.from(map.entries())] and [forEach] expose: an association list
    without repeated keys. *)
Section JsMap.
Context {V : Type}.

(** [map.set(k, v)]: the value is replaced in place, a new key goes last. *)
Fixpoint mapSet (k : string) (v : V) (m : list (string * V)) : list (string * V) :=
  match m with
  | [] => [(k, v)]
  | (k', v') :: rest =>
      if String.eqb k' k then (k', v) :: rest else (k', v') :: mapSet k v rest
  end.

(** [map.get(k)] *)
Fixpoint mapGet (k : string) (m : list (string * V)) : option V :=
  match m with
  | [] => None
  | (k', v') :: rest => if String.eqb k' k then Some v' else mapGet k rest
  end.

(** [new Map(entries)] *)
Definition mapOfEntries (entries : list (string * V)) : list (string * V) :=
  foldl (λ m e, mapSet (fst e) (snd e) m) [] entries.

End JsMap.

(** [s.replace(/^@/, '')]: one leading marker is dropped. *)
Definition stripAt (s : string) : string :=
  match s with
  | String "@" rest => rest
  | _ => s
  end.

(** "remove @ and convert to lowercase for matching" *)
Definition normalizeNickname (nick : string) : string :=
  toLowerCase (stripAt nick).

(** The [normalizedNicknames] map of [findNicknameRows]: normalized name to
    the name as the caller wrote it. *)
Definition normalizedNicknames (nicknames : list string) : list (string * string) :=
  foldl (λ m nick, mapSet (normalizeNickname nick) nick m) [] nicknames.

(** The same rows under the key [a]. *)
Definition rekey (a : string) (l : list (string * nat)) : list (string * nat) :=
  map (λ e, (a, snd e)) l.

(** ['Sheet1'!<column><row>] *)
Definition cellRange (column : string) (row : nat) : string :=
  "'" +:+ SHEET_NAME +:+ "'!" +:+ column +:+ showNat row.

(** The range of [findNicknameRows], "column B starting from row 7":
    [B7:B]. *)
Definition nicknameRange : string :=
  SHEET_NICKNAME_COLUMN +:+ showNat SHEET_DATA_FIRST_ROW +:+ ":" +:+ SHEET_NICKNAME_COLUMN.

(** The range of [findLastDateColumn], "row 1 from column F to column ZZ":
    ['Sheet1'!F1:ZZ1]. *)
Definition headerRange : string :=
  "'" +:+ SHEET_NAME +:+ "'!" +:+ SHEET_DATA_FIRST_COLUMN +:+ showNat SHEET_DATE_ROW
  +:+ ":ZZ" +:+ showNat SHEET_DATE_ROW.

(** The range of [getColumnMetadata], rows 1 to 3 of the column. *)
Definition metadataRange (column : string) : string :=
  "'" +:+ SHEET_NAME +:+ "'!" +:+ column +:+ showNat SHEET_DATE_ROW
  +:+ ":" +:+ column +:+ showNat SHEET_PLAYER_COUNT_ROW.

(** [{ updated, notFound }] *)
Record WriteResult := mkWriteResult {
  updated : nat;
  notFound : list string
}.

(** The error of destructuring [undefined] in
    [const [nickname, _row] = rowsArray[index]]; the message is the
    engine's. *)
Definition notIterable : JsError := ErrorObject "undefined is not iterable".

Section Client.
Context `{JsNumber} `{!SheetsApi}.

(** The body of [rows.forEach((row, index) => ...)] in [findNicknameRows]. *)
Definition matchRow (normalized : list (string * string))
    (nicknameToRow : list (string * nat)) (row : list Cell) (index : nat)
    : list (string * nat) :=
  if jsTruthy (row !! 0%nat) then
    let sheetNickname := normalizeNickname (jsString (row !! 0%nat)) in
    match mapGet sheetNickname normalized with
    | Some originalNickname =>
        if truthy (Some originalNickname)
        then mapSet originalNickname (SHEET_DATA_FIRST_ROW + index)%nat nicknameToRow
        else nicknameToRow
    | None => nicknameToRow
    end
  else nicknameToRow.

Fixpoint matchRows (normalized : list (string * string))
    (rows : list (list Cell)) (index : nat) (nicknameToRow : list (string * nat))
    : list (string * nat) :=
  match rows with
  | [] => nicknameToRow
  | row :: rest =>
      matchRows normalized rest (S index) (matchRow normalized nicknameToRow row index)
  end.

(** [findNicknameRows] on the rows the store returned. *)
Definition nicknameRowsOf (nicknames : list string) (rows : list (list Cell))
    : list (string * nat) :=
  matchRows (normalizedNicknames nicknames) rows 0 [].

(** The first cell of row [i] is a nickname that equals [k] once both
    are normalized. *)
Definition rowMatches (rows : list (list Cell)) (i : nat) (k : string) : Prop :=
  ∃ row, rows !! i = Some row ∧ jsTruthy (row !! 0%nat) = true ∧
         normalizeNickname (jsString (row !! 0%nat)) = normalizeNickname k.

(** [findNicknameRows]: "Find row numbers for given nicknames in column B". *)
Definition findNicknameRows (nicknames : list string) : M (list (string * nat)) :=
  let range := nicknameRange in
  values ← call (CallGet range) (api_get range);
  ret (nicknameRowsOf nicknames (default [] values)).

(** The body of [valueRanges.forEach((valueRange, index) => ...)] in
    [checkExistingValues]. *)
Fixpoint collectExisting (rowsArray : list (string * nat))
    (valueRanges : list (option (list (list Cell)))) (index : nat)
    (existingValues : list ExistingValue) : Outcome (list ExistingValue) :=
  match valueRanges with
  | [] => Ok existingValues
  | valueRange :: rest =>
      match rowsArray !! index with
      | None => Throw notIterable
      | Some (nickname, _) =>
          let values := default [] valueRange in
          let existingValues' :=
            match values with
            | (cellValue :: _) :: _ =>
                if hasContent (Some cellValue)
                then (existingValues ++ [mkExistingValue nickname cellValue])%list
                else existingValues
            | _ => existingValues
            end in
          collectExisting rowsArray rest (S index) existingValues'
      end
  end.

(** [checkExistingValues]: the nicknames whose cell in [column] already
    holds a value. *)
Definition checkExistingValues (nicknameRows : list (string * nat)) (column : string)
    : M (list ExistingValue) :=
  match nicknameRows with
  | [] => ret []
  | _ =>
      let ranges := map (λ e, cellRange column (snd e)) nicknameRows in
      valueRanges ← call (CallBatchGet ranges) (api_batchGet ranges);
      match valueRanges with
      | None => ret []
      | Some vrs =>
          match collectExisting nicknameRows vrs 0 [] with
          | Ok existingValues => ret existingValues
          | Throw e => throw e
          end
      end
  end.

(** [writeZeros]: with [overrideExisting = false] the cells that hold a
    value are looked up again and left out. *)
Definition writeZeros (nicknameRows : list (string * nat)) (column : string)
    (overrideExisting : bool) : M WriteResult :=
  match nicknameRows with
  | [] => ret (mkWriteResult 0 [])
  | _ =>
      rowsToUpdate ←
        (if overrideExisting then ret nicknameRows
         else
           existingValues ← checkExistingValues nicknameRows column;
           let existingNicknames := map ev_nickname existingValues in
           ret (foldl (λ m e, if bool_decide (fst e ∈ existingNicknames) then m
                              else mapSet (fst e) (snd e) m)
                  [] nicknameRows));
      match rowsToUpdate with
      | [] => ret (mkWriteResult 0 [])
      | _ =>
          let updates :=
            map (λ e, mkUpdate (cellRange column (snd e)) [[CNum (numOfZ 0)]])
                rowsToUpdate in
          call (CallBatchUpdate updates) (api_batchUpdate updates);;
          ret (mkWriteResult (length rowsToUpdate) [])
      end
  end.

(** [value == null || value === undefined || String(value).trim() === ''] *)
Definition isBlank (value : Cell) : bool := negb (hasContent (Some value)).

(** The index at which the [for] loop of [findLastDateColumn] breaks: the
    first blank value. *)
Fixpoint firstBlank (values : list Cell) (i : nat) : option nat :=
  match values with
  | [] => None
  | value :: rest => if isBlank value then Some i else firstBlank rest (S i)
  end.

(** [values[i]] for an integer [i]; out of range is [undefined]. *)
Definition at_index (values : list Cell) (i : Z) : option Cell :=
  if (i <? 0)%Z then None else values !! Z.to_nat i.

(** [findLastDateColumn] on the header values the store returned: at the
    first blank value, the column and the text just before it. *)
Definition lastDateColumnOf (values : list Cell) : option ColumnMatch :=
  match firstBlank values 0 with
  | None => None
  | Some i =>
      let prevIndex := (Z.of_nat i - 1)%Z in
      let prevValue := at_index values prevIndex in
      let columnIndex := (columnLetterToIndex SHEET_DATA_FIRST_COLUMN + prevIndex)%Z in
      Some (mkColumnMatch (indexToColumnLetter columnIndex) (trim (jsString prevValue)))
  end.

(** [response.data.values?.[0] || []] *)
Definition firstRow (response : option (list (list Cell))) : list Cell :=
  match response with
  | Some (row :: _) => row
  | _ => []
  end.

(** [findLastDateColumn]: "scanning row 1 from column F until empty cell". *)
Definition findLastDateColumn : M (option ColumnMatch) :=
  let range := headerRange in
  response ← call (CallGet range) (api_get range);
  let values := firstRow response in
  ret (lastDateColumnOf values).

(** [ColumnMetadata]: what rows 1 to 3 of a column hold. *)
Record ColumnMetadata := mkMetadata {
  md_date : option string;
  md_cost : option Num;
  md_playerCount : option Num
}.

(** [getColumnMetadata] on the rows the store returned. *)
Definition metadataOf (rows : list (list Cell)) : ColumnMetadata :=
  let cellOf (r : nat) : option Cell :=
    match rows !! r with
    | Some row => row !! 0%nat
    | None => None
    end in
  let date :=
    if hasContent (cellOf 0%nat) then Some (trim (jsString (cellOf 0%nat))) else None in
  let cost :=
    if hasContent (cellOf 1%nat) then
      let costNum :=
        match cellOf 1%nat with
        | Some (CNum x) => x
        | costValue => parseFloat (jsString costValue)
        end in
      if isNaN costNum then None else Some costNum
    else None in
  let playerCount :=
    if hasContent (cellOf 2%nat) then
      match cellOf 2%nat with
      | Some (CNum x) => if isNaN x then None else Some x
      | countValue => numOfZ <$> parseInt10 (jsString countValue)
      end
    else None in
  mkMetadata date cost playerCount.

(** [getColumnMetadata]: "date, cost, player count from rows 1-3". *)
Definition getColumnMetadata (column : string) : M ColumnMetadata :=
  let range := metadataRange column in
  values ← call (CallGet range) (api_get range);
  ret (metadataOf (default [] values)).

(** [writeColumnMetadata]: one update per argument that is not undefined,
    and no request when there is none. *)
Definition writeColumnMetadata (column : string) (date : option string)
    (cost playerCount : option Num) : M unit :=
  let updates : list Update :=
    (match date with
     | Some d => [mkUpdate (cellRange column SHEET_DATE_ROW) [[CStr d]]]
     | None => []
     end ++
     match cost with
     | Some c => [mkUpdate (cellRange column SHEET_COST_ROW) [[CNum c]]]
     | None => []
     end ++
     match playerCount with
     | Some n => [mkUpdate (cellRange column SHEET_PLAYER_COUNT_ROW) [[CNum n]]]
     | None => []
     end)%list in
  match updates with
  | [] => ret tt
  | _ => call (CallBatchUpdate updates) (api_batchUpdate updates)
  end.

(** [initSheetsClient()]: the credentials are read and the client built;
    it throws when they are missing or malformed. *)
Definition initSheetsClient : M unit := call CallInit api_init.

(** [sheetsClient.findColumnByDateText(text)] *)
Definition findColumnByDateText (text : string) : M FindResult :=
  call (CallFindColumnByDateText text) (api_findColumnByDateText text).

End Client.

End Sheets.

(* ===================================================================== *)
(** ** bot-helpers.ts *)
(* ===================================================================== *)

Module BotHelpers.
Import Js Host Constants Session Poll Machine Sheets.
Local Open Scope machine_scope.

Inductive YesNo := yes | no.

(** [parseYesNo]: "Supports English (yes/y/no/n) and Russian"; [None] is
    the source's [null]. *)
Definition parseYesNo (text : string) : option YesNo :=
  let normalized := toLowerCase (trim text) in
  if (normalized =? "yes")%string || (normalized =? "y")%string
     || (normalized =? "да")%string || (normalized =? "д")%string
  then Some yes
  else if (normalized =? "no")%string || (normalized =? "n")%string
          || (normalized =? "нет")%string || (normalized =? "н")%string
  then Some no
  else None.

(** The text [handleApiError] sends:
    [Error <action>: <error.message or 'Unknown error'>], and the hint. *)
Definition apiErrorMessage (e : JsError) (action : string) (includeApiHint : bool)
    : string :=
  "❌ Error " +:+ action +:+ ": "
  +:+ match e with
      | ErrorObject message => message
      | Thrown => "Unknown error"
      end
  +:+ (if includeApiHint
       then nl +:+ nl +:+ "Check your Google Sheets API settings."
       else EmptyString).

(** The poll options with their vote counts, one per line. *)
Fixpoint pollOptionLines (pollData : PollData) (options : list string) (index : nat)
    : string :=
  match options with
  | [] => EmptyString
  | option :: rest =>
      let size := length (votersFor pollData index) in
      showNat (index + 1) +:+ ". " +:+ option +:+ " (" +:+ showNat size +:+ " vote"
      +:+ (if Nat.eqb size 1 then EmptyString else "s") +:+ ")" +:+ nl
      +:+ pollOptionLines pollData rest (S index)
  end.

(** [buildPollOptionsText] *)
Definition buildPollOptionsText (pollData : PollData) : string :=
  pollOptionLines pollData (options pollData) 0.

Definition bullets (names : list string) : string :=
  join nl (map (λ n, "• " +:+ n) names).

(** [buildUpdateResultMessage] *)
Definition buildUpdateResultMessage (column : string) (updatedCount : nat)
    (updatedNicknames skippedNicknames notFoundNicknames : list string) : string :=
  "✅ Updated " +:+ showNat updatedCount +:+ " record(s) in column " +:+ column
  +:+ (match updatedNicknames with
       | [] => "." +:+ nl
       | _ => ":" +:+ nl +:+ nl +:+ bullets updatedNicknames
       end)
  +:+ (match skippedNicknames with
       | [] => EmptyString
       | _ => nl +:+ nl +:+ "⏭️ Skipped " +:+ showNat (length skippedNicknames)
              +:+ " cell(s) with existing values:" +:+ nl +:+ bullets skippedNicknames
       end)
  +:+ (match notFoundNicknames with
       | [] => EmptyString
       | _ => nl +:+ nl +:+ "⚠️ Not found in sheet:" +:+ nl +:+ bullets notFoundNicknames
       end).

Section Helpers.
Context `{JsNumber} `{!SheetsApi}.

(** [replyErrorAndReset] *)
Definition replyErrorAndReset (message : string) : M unit :=
  reply message;;
  modify resetSession.

(** [handleApiError] *)
Definition handleApiError (e : JsError) (action : string) (includeApiHint : bool)
    : M unit :=
  replyErrorAndReset (apiErrorMessage e action includeApiHint).

(** [getPollDataOrError]: the poll of the session, or [None] once the
    error was sent. *)
Definition getPollDataOrError : M (option (string * PollData)) :=
  s ← getSession;
  match pollId s with
  | Some pollId =>
      if truthy (Some pollId) then
        polls ← getPolls;
        match polls !! pollId with
        | Some pollData => ret (Some (pollId, pollData))
        | None =>
            replyErrorAndReset "❌ Error: poll data not found.";;
            ret None
        end
      else
        replyErrorAndReset "❌ Error: poll data lost. Please forward the poll again.";;
        ret None
  | None =>
      replyErrorAndReset "❌ Error: poll data lost. Please forward the poll again.";;
      ret None
  end.

End Helpers.

End BotHelpers.

(* ===================================================================== *)
(** ** workflow.ts *)
(* ===================================================================== *)

Module Workflow.
Import Js Host Constants Session Poll Machine Sheets BotHelpers.
Local Open Scope machine_scope.

Section Workflow.
Context `{JsNumber} `{!SheetsApi}.

(** [startColumnDetectionFlow]: "Used by /update command and poll option
    selection". *)
Definition startColumnDetectionFlow : M unit :=
  reply "⏳ Detecting last date column...";;
  tryCatch
    (initSheetsClient;;
     lastDateColumn ← findLastDateColumn;
     match lastDateColumn with
     | None =>
         reply ("❌ No date columns found. Starting from column "
                +:+ SHEET_DATA_FIRST_COLUMN +:+ "." +:+ nl +:+ nl
                +:+ "Would you like to create a new column? (yes/no)");;
         modify (set_state awaiting_new_column_choice);;
         modify (set_targetColumn (Some SHEET_DATA_FIRST_COLUMN));;
         modify (set_isNewColumn (Some true))
     | Some found =>
         modify (set_detectedColumn (Some (match_column found)));;
         modify (set_targetColumn (Some (match_column found)));;
         modify (set_state awaiting_column_confirmation);;
         reply ("📅 I detected column " +:+ match_column found
                +:+ " (" +:+ match_date found +:+ ")." +:+ nl +:+ nl
                +:+ "Update this column? (yes/no)")
     end)
    (λ error, handleApiError error "detecting column" true).

(** [writeZerosAndRespond]: "Common logic for final write step". *)
Definition writeZerosAndRespond (nicknameRows : list (string * nat))
    (column : string) (overrideExisting : bool) (skippedNicknames : list string)
    : M unit :=
  reply "⏳ Updating sheet...";;
  initSheetsClient;;
  result ← writeZeros nicknameRows column overrideExisting;
  s ← getSession;
  let allFoundNicknames := map fst nicknameRows in
  let updatedNicknames :=
    filter (λ n, n ∉ skippedNicknames) allFoundNicknames in
  let notFoundNicknames :=
    filter (λ u, u ∉ allFoundNicknames) (usernames s) in
  reply (buildUpdateResultMessage column (updated result)
           updatedNicknames skippedNicknames notFoundNicknames);;
  modify resetSession.

(** The message that lists the cells already filled. *)
Definition overridePrompt (column : string) (existingValues : list ExistingValue)
    : string :=
  "⚠️ These users already have values in column " +:+ column +:+ ":" +:+ nl +:+ nl
  +:+ foldl (λ message ev,
        message +:+ "• " +:+ ev_nickname ev +:+ ": "
        +:+ jsString (Some (ev_value ev)) +:+ nl)
      EmptyString existingValues
  +:+ nl +:+ "Overwrite? (yes/no)".

(** [checkOverridesAndWrite]: "either write directly or ask for override
    confirmation". *)
Definition checkOverridesAndWrite (nicknameRows : list (string * nat)) : M unit :=
  s ← getSession;
  match targetColumn s with
  | Some column =>
      if truthy (Some column) then
        initSheetsClient;;
        existingValues ← checkExistingValues nicknameRows column;
        match existingValues with
        | _ :: _ =>
            modify (set_column (Some column));;
            modify (set_nicknameRowsEntries (Some nicknameRows));;
            modify (set_existingValuesEntries (Some existingValues));;
            modify (set_state awaiting_override_confirmation);;
            reply (overridePrompt column existingValues)
        | [] => writeZerosAndRespond nicknameRows column true []
        end
      else replyErrorAndReset ERR_TARGET_COLUMN_NOT_SET
  | None => replyErrorAndReset ERR_TARGET_COLUMN_NOT_SET
  end.

(** [proceedWithPlayerCountCheck]: "process usernames and check player
    count". *)
Definition proceedWithPlayerCountCheck : M unit :=
  s ← getSession;
  if negb (truthy (targetColumn s)) || bool_decide (usernames s = []) then
    replyErrorAndReset
      "❌ Error: missing usernames or target column. Start over with /update"
  else
    reply "⏳ Checking sheet...";;
    tryCatch
      (initSheetsClient;;
       nicknameRows ← findNicknameRows (usernames s);
       match nicknameRows with
       | [] =>
           reply ("❌ No matches found in the sheet." +:+ nl +:+ nl
                  +:+ "Sent usernames: " +:+ join ", " (usernames s) +:+ nl +:+ nl
                  +:+ "Check that usernames in the sheet (column B) match the ones you sent.");;
           modify resetSession
       | _ =>
           match playerCount s with
           | None =>
               let recognizedCount := length nicknameRows in
               modify (set_state awaiting_player_count_confirmation);;
               reply ("👥 I found " +:+ showNat recognizedCount
                      +:+ " recognized username(s)." +:+ nl +:+ nl
                      +:+ "Is " +:+ showNat recognizedCount
                      +:+ " the total number of players who attended? (yes/no)");;
               modify (set_nicknameRowsEntries (Some nicknameRows))
           | Some _ => checkOverridesAndWrite nicknameRows
           end
       end)
      (λ error, handleApiError error "processing usernames" true).

(** [proceedWithMetadataCollection]: "metadata collection and then
    usernames". *)
Definition proceedWithMetadataCollection : M unit :=
  s ← getSession;
  match targetColumn s with
  | Some column =>
      if truthy (Some column) then
        tryCatch
          (initSheetsClient;;
           metadata ← getColumnMetadata column;
           match md_date metadata with
           | Some date =>
               if truthy (Some date) then
                 modify (set_dateName (Some date));;
                 match md_cost metadata with
                 | None =>
                     modify (set_state awaiting_cost);;
                     reply ("💰 Column " +:+ column +:+ " has no cost specified."
                            +:+ nl +:+ nl
                            +:+ "Please provide the field cost for row 2:")
                 | Some cost =>
                     modify (set_cost (Some cost));;
                     match md_playerCount metadata with
                     | Some n => modify (set_playerCount (Some n))
                     | None => ret tt
                     end;;
                     s' ← getSession;
                     match usernames s' with
                     | _ :: _ => proceedWithPlayerCountCheck
                     | [] =>
                         modify (set_state awaiting_usernames);;
                         reply ("✅ Column " +:+ column +:+ " metadata:" +:+ nl
                                +:+ "• Date: " +:+ date +:+ nl
                                +:+ "• Cost: " +:+ showNum cost +:+ nl
                                +:+ match playerCount s' with
                                    | Some n => "• Players: " +:+ showNum n +:+ nl
                                    | None => EmptyString
                                    end
                                +:+ nl
                                +:+ "Now send me the list of usernames who will attend (with or without @, separated by spaces or commas):")
                     end
                 end
               else
                 modify (set_state awaiting_date_name);;
                 reply ("📅 Column " +:+ column +:+ " has no date name." +:+ nl +:+ nl
                        +:+ "Please provide the date name for row 1:")
           | None =>
               modify (set_state awaiting_date_name);;
               reply ("📅 Column " +:+ column +:+ " has no date name." +:+ nl +:+ nl
                      +:+ "Please provide the date name for row 1:")
           end)
          (λ error, handleApiError error "checking column metadata" true)
      else replyErrorAndReset ERR_TARGET_COLUMN_NOT_SET
  | None => replyErrorAndReset ERR_TARGET_COLUMN_NOT_SET
  end.

End Workflow.

End Workflow.

(* ===================================================================== *)
(** ** handlers/poll-handlers.ts *)
(* ===================================================================== *)

Module PollHandlers.
Import Js Host Constants Session Poll Machine Sheets BotHelpers Workflow.
Local Open Scope machine_scope.

(** The lines of the "view voters" answer. *)
Fixpoint voterLines (pollData : PollData) (options : list string) (index : nat)
    : string :=
  match options with
  | [] => EmptyString
  | option :: rest =>
      let voterList := join " " (votersFor pollData index) in
      showNat (index + 1) +:+ ". " +:+ option +:+ ": "
      +:+ (if truthy (Some voterList) then voterList else "(no votes)") +:+ nl
      +:+ voterLines pollData rest (S index)
  end.

Section PollHandlers.
Context `{JsNumber} `{!SheetsApi}.

(** The handler of forwarded polls, [bot.on('message:poll', ...)].
    [poll] is the id of [message.poll] when there is one, [forwarded]
    whether [message.forward_origin] is set. *)
Definition onPollMessage (poll : option string) (forwarded : bool) : M unit :=
  match poll with
  | None => ret tt
  | Some pollId =>
      polls ← getPolls;
      match polls !! pollId with
      | None =>
          reply "ℹ️ This poll was not created by me. I can only track polls created with /poll command."
      | Some pollData =>
          if forwarded then
            modify (set_pollId (Some pollId));;
            modify (set_pollQuestion (Some (question pollData)));;
            modify (set_state awaiting_poll_intent);;
            reply ("📊 Poll: " +:+ dq +:+ question pollData +:+ dq +:+ nl +:+ nl
                   +:+ buildPollOptionsText pollData +:+ nl
                   +:+ "What would you like to do?" +:+ nl
                   +:+ "1. Update sheet with poll results" +:+ nl
                   +:+ "2. View voters")
          else ret tt
      end
  end.

(** [handlePollIntent]: the state awaiting_poll_intent. *)
Definition handlePollIntent (text : string) : M bool :=
  s ← getSession;
  match state s with
  | awaiting_poll_intent =>
      if (text =? "1")%string || (text =? "update sheet")%string
         || (text =? "update")%string then
        result ← getPollDataOrError;
        match result with
        | None => ret true
        | Some (_, pollData) =>
            modify (set_state awaiting_poll_option_selection);;
            reply ("Which option contains the attending players?" +:+ nl +:+ nl
                   +:+ buildPollOptionsText pollData +:+ nl
                   +:+ "Reply with the option number (e.g., " +:+ dq +:+ "1" +:+ dq +:+ "):");;
            ret true
        end
      else if (text =? "2")%string || (text =? "view voters")%string
              || (text =? "view")%string then
        result ← getPollDataOrError;
        match result with
        | None => ret true
        | Some (_, pollData) =>
            reply ("📊 Poll: " +:+ dq +:+ question pollData +:+ dq +:+ nl +:+ nl
                   +:+ voterLines pollData (options pollData) 0);;
            modify resetSession;;
            ret true
        end
      else
        reply ("❌ Please reply with " +:+ dq +:+ "1" +:+ dq +:+ " to update sheet or "
               +:+ dq +:+ "2" +:+ dq +:+ " to view voters.");;
        ret true
  | _ => ret false
  end.

(** [handlePollOptionSelection]: the state awaiting_poll_option_selection. *)
Definition handlePollOptionSelection (rawText : string) : M bool :=
  s ← getSession;
  match state s with
  | awaiting_poll_option_selection =>
      match parseInt10 rawText with
      | None =>
          reply "❌ Please provide a valid option number.";;
          ret true
      | Some optionNum =>
          if (optionNum <? 1)%Z then
            reply "❌ Please provide a valid option number.";;
            ret true
          else
            result ← getPollDataOrError;
            match result with
            | None => ret true
            | Some (_, pollData) =>
                let optionIndex := (optionNum - 1)%Z in
                if (optionIndex <? 0)%Z
                   || (Z.of_nat (length (options pollData)) <=? optionIndex)%Z then
                  reply ("❌ Invalid option number. Please choose between 1 and "
                         +:+ showNat (length (options pollData)) +:+ ".");;
                  ret true
                else
                  let usernames := votersFor pollData (Z.to_nat optionIndex) in
                  match usernames with
                  | [] =>
                      replyErrorAndReset "❌ No voters found for this option.";;
                      ret true
                  | _ =>
                      modify (set_usernames usernames);;
                      modify (set_pollId None);;
                      modify (set_pollQuestion None);;
                      reply ("✅ Selected option: " +:+ dq
                             +:+ default "undefined" (options pollData !! Z.to_nat optionIndex)
                             +:+ dq +:+ nl
                             +:+ "👥 Attending players: " +:+ join " " usernames);;
                      startColumnDetectionFlow;;
                      ret true
                  end
            end
      end
  | _ => ret false
  end.

End PollHandlers.

End PollHandlers.

(* ===================================================================== *)
(** ** handlers/sheet-handlers.ts *)
(* ===================================================================== *)

Module SheetHandlers.
Import Js Host Constants Session Poll Machine Sheets BotHelpers Workflow.
Local Open Scope machine_scope.

(** The separators of [text.split(/[\s,;\n]+/)]. *)
Definition isSeparator (c : ascii) : bool :=
  isSpace c || (code c =? 44)%Z || (code c =? 59)%Z.

(** The pieces between separators, empty pieces included; [cur] is the
    piece being read. *)
Fixpoint pieces (s : string) (cur : string) : list string :=
  match s with
  | EmptyString => [cur]
  | String c rest =>
      if isSeparator c then cur :: pieces rest EmptyString
      else pieces rest (cur +:+ String c EmptyString)
  end.

(** [s.replace(/^@+/, '')]: every leading marker is dropped. *)
Fixpoint stripAts (s : string) : string :=
  match s with
  | String "@" rest => stripAts rest
  | _ => s
  end.

Definition nonEmpty (s : string) : bool := negb (String.eqb s EmptyString).

(** [parseUsernames]: split, trim, drop the empty parts, then "ensure @
    prefix (works with or without @)". *)
Definition parseUsernames (text : string) : list string :=
  let parts := List.filter nonEmpty (map trim (pieces text EmptyString)) in
  List.filter nonEmpty
    (map (λ part,
            let withoutAt := stripAts (trim part) in
            if nonEmpty withoutAt then "@" +:+ withoutAt else EmptyString)
         parts).

Section SheetHandlers.
Context `{JsNumber} `{!SheetsApi}.

(** [handleUsernames]: the state awaiting_usernames. *)
Definition handleUsernames (rawText : string) : M bool :=
  s ← getSession;
  match state s with
  | awaiting_usernames =>
      let usernames := parseUsernames rawText in
      match usernames with
      | [] =>
          reply "❌ Failed to recognize usernames. Try again or use /help";;
          ret true
      | _ =>
          if truthy (targetColumn s) then
            modify (set_usernames usernames);;
            proceedWithPlayerCountCheck;;
            ret true
          else
            replyErrorAndReset ERR_TARGET_COLUMN_NOT_SET;;
            ret true
      end
  | _ => ret false
  end.

(** [handlePlayerCountConfirmation]: the state
    awaiting_player_count_confirmation. *)
Definition handlePlayerCountConfirmation (text : string) : M bool :=
  s ← getSession;
  match state s with
  | awaiting_player_count_confirmation =>
      match parseYesNo text with
      | None =>
          reply ERR_INVALID_YES_NO;;
          ret true
      | Some answer =>
          match targetColumn s, nicknameRowsEntries s with
          | Some column, Some entries =>
              if truthy (Some column) then
                let nicknameRows := mapOfEntries entries in
                let recognizedCount := length nicknameRows in
                match answer with
                | yes =>
                    let count := numOfZ (Z.of_nat recognizedCount) in
                    modify (set_playerCount (Some count));;
                    tryCatch
                      (initSheetsClient;;
                       writeColumnMetadata column None None (Some count);;
                       checkOverridesAndWrite nicknameRows)
                      (λ error,
                         handleApiError error
                           "writing player count or checking overrides" false);;
                    ret true
                | no =>
                    modify (set_state awaiting_player_count);;
                    reply "How many players attended the match?";;
                    ret true
                end
              else
                replyErrorAndReset ERR_SESSION_DATA_LOST;;
                ret true
          | _, _ =>
              replyErrorAndReset ERR_SESSION_DATA_LOST;;
              ret true
          end
      end
  | _ => ret false
  end.

(** [handlePlayerCount]: the state awaiting_player_count. *)
Definition handlePlayerCount (text : string) : M bool :=
  s ← getSession;
  match state s with
  | awaiting_player_count =>
      match parseInt10 text with
      | None =>
          reply "❌ Please provide a valid positive integer for the player count";;
          ret true
      | Some count =>
          if (count <? 0)%Z then
            reply "❌ Please provide a valid positive integer for the player count";;
            ret true
          else
            modify (set_playerCount (Some (numOfZ count)));;
            match targetColumn s, nicknameRowsEntries s with
            | Some column, Some entries =>
                if truthy (Some column) then
                  tryCatch
                    (initSheetsClient;;
                     writeColumnMetadata column None None (Some (numOfZ count));;
                     checkOverridesAndWrite (mapOfEntries entries))
                    (λ error, handleApiError error "writing player count" false);;
                  ret true
                else
                  replyErrorAndReset ERR_SESSION_DATA_LOST;;
                  ret true
            | _, _ =>
                replyErrorAndReset ERR_SESSION_DATA_LOST;;
                ret true
            end
      end
  | _ => ret false
  end.

(** [handleOverrideConfirmation]: the state awaiting_override_confirmation.
    [columnToUse] is [session.column || session.targetColumn]. *)
Definition handleOverrideConfirmation (text : string) : M bool :=
  s ← getSession;
  match state s with
  | awaiting_override_confirmation =>
      match parseYesNo text with
      | None =>
          reply ERR_INVALID_YES_NO;;
          ret true
      | Some answer =>
          let columnToUse := if truthy (column s) then column s else targetColumn s in
          match columnToUse, nicknameRowsEntries s with
          | Some columnToUse, Some entries =>
              if truthy (Some columnToUse) then
                let nicknameRows := mapOfEntries entries in
                let overrideExisting :=
                  match answer with yes => true | no => false end in
                let skippedNicknames :=
                  match overrideExisting, existingValuesEntries s with
                  | false, Some existing => map ev_nickname existing
                  | _, _ => []
                  end in
                tryCatch
                  (writeZerosAndRespond nicknameRows columnToUse
                     overrideExisting skippedNicknames)
                  (λ error, handleApiError error "updating sheet" true);;
                ret true
              else
                replyErrorAndReset "❌ Error: session data lost. Start over with /update";;
                ret true
          | _, _ =>
              replyErrorAndReset "❌ Error: session data lost. Start over with /update";;
              ret true
          end
      end
  | _ => ret false
  end.

End SheetHandlers.

End SheetHandlers.

(* ===================================================================== *)
(** ** handlers/column-handlers.ts *)
(* ===================================================================== *)

(** The sources hold two texts of column-handlers.ts.  [ColumnHandlersA]
    is the one that only takes yes or no as the answer to the column
    question; [ColumnHandlersB] is the one that also takes a column letter
    or a date text.  [handleDateName] and [handleCost] read the same in
    both and are given once. *)

Module ColumnHandlersCommon.
Import Js Host Constants Session Machine Sheets BotHelpers Workflow.
Local Open Scope machine_scope.

Section Common.
Context `{JsNumber} `{!SheetsApi}.

(** [handleDateName]: the state awaiting_date_name. *)
Definition handleDateName (rawText : string) : M bool :=
  s ← getSession;
  match state s with
  | awaiting_date_name =>
      let trimmed := trim rawText in
      if truthy (Some trimmed) then
        modify (set_dateName (Some trimmed));;
        if truthy (targetColumn s) then
          failed ← tryCatch
            (initSheetsClient;;
             writeColumnMetadata (default EmptyString (targetColumn s))
               (Some trimmed) None None;;
             ret false)
            (λ error, handleApiError error "writing date" false;; ret true);
          if failed : bool then ret true
          else proceedWithMetadataCollection;; ret true
        else
          replyErrorAndReset "❌ Error: target column not set. Start over with /update";;
          ret true
      else
        reply "❌ Please provide a date name";;
        ret true
  | _ => ret false
  end.

(** [handleCost]: the state awaiting_cost. *)
Definition handleCost (text : string) : M bool :=
  s ← getSession;
  match state s with
  | awaiting_cost =>
      let cost := parseFloat text in
      if isNaN cost || isNegative cost then
        reply "❌ Please provide a valid positive number for the cost";;
        ret true
      else
        modify (set_cost (Some cost));;
        if truthy (targetColumn s) then
          failed ← tryCatch
            (initSheetsClient;;
             writeColumnMetadata (default EmptyString (targetColumn s))
               None (Some cost) None;;
             ret false)
            (λ error, handleApiError error "writing cost" false;; ret true);
          if failed : bool then ret true
          else proceedWithMetadataCollection;; ret true
        else
          replyErrorAndReset "❌ Error: target column not set. Start over with /update";;
          ret true
  | _ => ret false
  end.

End Common.

End ColumnHandlersCommon.

Module ColumnHandlersA.
Import Js Host Constants Columns Session Machine Sheets BotHelpers Workflow.
Local Open Scope machine_scope.

Section Handlers.
Context `{JsNumber} `{!SheetsApi}.

(** [handleColumnConfirmation]: the state awaiting_column_confirmation. *)
Definition handleColumnConfirmation (text : string) : M bool :=
  s ← getSession;
  match state s with
  | awaiting_column_confirmation =>
      match parseYesNo text with
      | None =>
          reply ERR_INVALID_YES_NO;;
          ret true
      | Some answer =>
          if truthy (targetColumn s) then
            match answer with
            | yes =>
                proceedWithMetadataCollection;;
                ret true
            | no =>
                let nextColumn :=
                  getNextColumnLetter (default EmptyString (targetColumn s)) in
                modify (set_state awaiting_new_column_choice);;
                reply ("Create new column " +:+ nextColumn +:+ "? (yes/no)");;
                ret true
            end
          else
            replyErrorAndReset ERR_TARGET_COLUMN_NOT_SET;;
            ret true
      end
  | _ => ret false
  end.

(** [handleNewColumnChoice]: the state awaiting_new_column_choice. *)
Definition handleNewColumnChoice (text : string) : M bool :=
  s ← getSession;
  match state s with
  | awaiting_new_column_choice =>
      match parseYesNo text with
      | None =>
          reply ERR_INVALID_YES_NO;;
          ret true
      | Some yes =>
          let target :=
            if truthy (targetColumn s)
            then getNextColumnLetter (default EmptyString (targetColumn s))
            else SHEET_DATA_FIRST_COLUMN in
          modify (set_targetColumn (Some target));;
          modify (set_isNewColumn (Some true));;
          modify (set_state awaiting_date_name);;
          reply ("📅 Please provide the date name for column " +:+ target +:+ " (row 1):");;
          ret true
      | Some no =>
          modify resetSession;;
          reply ("✅ Operation cancelled. " +:+ MSG_USE_UPDATE_AGAIN);;
          ret true
      end
  | _ => ret false
  end.

End Handlers.

End ColumnHandlersA.

Module ColumnHandlersB.
Import Js Host Constants Columns Session Machine Sheets BotHelpers Workflow.
Local Open Scope machine_scope.

(** [/^[A-Z]{1,2}$/i.test(s)]: one or two letters. *)
Definition isColumnLetterToken (s : string) : bool :=
  match s with
  | String a EmptyString => isLetter a
  | String a (String b EmptyString) => isLetter a && isLetter b
  | _ => false
  end.

(** [/^(\d+)$/.exec(s)] matches: digits only, at least one. *)
Definition isNumberToken (s : string) : bool :=
  allChars isDigit s && negb (String.eqb s EmptyString).

(** The column-letter tokens that [parseYesNo] takes for an answer: y, n
    and no, in any letter case. *)
Definition readAsAnswer (token : string) : bool :=
  let lowered := toLowerCase token in
  (lowered =? "y")%string || (lowered =? "n")%string || (lowered =? "no")%string.

Section Handlers.
Context `{JsNumber} `{!SheetsApi}.

(** The machine once [column] is adopted as the target of an existing
    column: [targetColumn = column], [isNewColumn = false]. *)
Definition adoptColumn (column : string) (m : Machine) : Machine :=
  mkMachine (set_isNewColumn (Some false) (set_targetColumn (Some column) (session m)))
    (activePolls m) (trace m) (world m).

(** [askForDateName]: "Start new column creation flow". *)
Definition askForDateName (column : string) : M unit :=
  modify (set_targetColumn (Some column));;
  modify (set_isNewColumn (Some true));;
  modify (set_state awaiting_date_name);;
  reply ("📅 Please provide the date name for column " +:+ column +:+ " (row 1):").

(** The [try] block of the date search in [handleColumnConfirmation]:
    [Some b] when the block returned [b], [None] when it ran to its end. *)
Definition searchByDateText (trimmedText : string) : M (option bool) :=
  initSheetsClient;;
  result ← findColumnByDateText trimmedText;
  match result with
  | FindFailed error =>
      if (error =? "not_found")%string then
        reply ("❌ No column found with date text " +:+ dq +:+ trimmedText +:+ dq
               +:+ "." +:+ nl +:+ nl
               +:+ "Please try again with a different date text, column letter, or answer yes/no.");;
        ret (Some true)
      else ret None
  | FindMultiple matches =>
      modify (set_columnMatches (Some matches));;
      modify (set_state awaiting_column_selection);;
      reply ("📋 Multiple columns found matching " +:+ dq +:+ trimmedText +:+ dq
             +:+ ":" +:+ nl +:+ nl
             +:+ fst (foldl (λ acc m,
                       (fst acc +:+ showNat (snd acc + 1) +:+ ". Column "
                        +:+ match_column m +:+ ": " +:+ match_date m +:+ nl,
                        S (snd acc)))
                     (EmptyString, 0) matches)
             +:+ nl +:+ "Please choose a column by typing its number (1-"
             +:+ showNat (length matches) +:+ ") or column letter:");;
      ret (Some true)
  | FindSingle column _ =>
      modify (set_targetColumn (Some column));;
      modify (set_isNewColumn (Some false));;
      proceedWithMetadataCollection;;
      ret (Some true)
  | FindOther => ret None
  end.

(** [handleColumnConfirmation]: the state awaiting_column_confirmation;
    "Check for yes/no first", then "if input is a column letter",
    "otherwise, treat as date text search". *)
Definition handleColumnConfirmation (text : string) : M bool :=
  s ← getSession;
  match state s with
  | awaiting_column_confirmation =>
      let trimmedText := trim text in
      match parseYesNo trimmedText with
      | Some answer =>
          if truthy (targetColumn s) then
            match answer with
            | yes =>
                proceedWithMetadataCollection;;
                ret true
            | no =>
                let nextColumn :=
                  getNextColumnLetter (default EmptyString (targetColumn s)) in
                askForDateName nextColumn;;
                ret true
            end
          else
            replyErrorAndReset ERR_TARGET_COLUMN_NOT_SET;;
            ret true
      | None =>
          if isColumnLetterToken trimmedText then
            modify (set_targetColumn (Some (toUpperCase trimmedText)));;
            modify (set_isNewColumn (Some false));;
            proceedWithMetadataCollection;;
            ret true
          else
            returned ← tryCatch
              (searchByDateText trimmedText)
              (λ error, handleApiError error "searching for column" true;;
                        ret (Some true));
            match returned with
            | Some b => ret b
            | None =>
                reply (ERR_INVALID_YES_NO +:+ nl +:+ nl
                       +:+ "You can also type a column letter (e.g., " +:+ dq +:+ "F"
                       +:+ dq +:+ ", " +:+ dq +:+ "G" +:+ dq
                       +:+ ") or date text to search.");;
                ret true
            end
      end
  | _ => ret false
  end.

(** [handleNewColumnChoice]: the state awaiting_new_column_choice;
    "targetColumn is already set from workflow.ts". *)
Definition handleNewColumnChoice (text : string) : M bool :=
  s ← getSession;
  match state s with
  | awaiting_new_column_choice =>
      match parseYesNo text with
      | None =>
          reply ERR_INVALID_YES_NO;;
          ret true
      | Some yes =>
          let column :=
            if truthy (targetColumn s)
            then default EmptyString (targetColumn s)
            else SHEET_DATA_FIRST_COLUMN in
          askForDateName column;;
          ret true
      | Some no =>
          modify resetSession;;
          reply ("✅ Operation cancelled. " +:+ MSG_USE_UPDATE_AGAIN);;
          ret true
      end
  | _ => ret false
  end.

(** [handleColumnSelection]: the state awaiting_column_selection. *)
Definition handleColumnSelection (text : string) : M bool :=
  s ← getSession;
  match state s with
  | awaiting_column_selection =>
      match columnMatches s with
      | Some ((_ :: _) as matches) =>
          let trimmedText := trim text in
          let count := showNat (length matches) in
          if isNumberToken trimmedText then
            let index := (default 0%Z (parseInt10 trimmedText) - 1)%Z in
            match (if (index <? 0)%Z then None else matches !! Z.to_nat index) with
            | Some selectedMatch =>
                modify (set_targetColumn (Some (match_column selectedMatch)));;
                modify (set_isNewColumn (Some false));;
                modify (set_columnMatches None);;
                proceedWithMetadataCollection;;
                ret true
            | None =>
                reply ("❌ Invalid selection. Please choose a number between 1 and "
                       +:+ count +:+ ", or type a column letter.");;
                ret true
            end
          else if isColumnLetterToken trimmedText then
            let columnLetter := toUpperCase trimmedText in
            match List.find (λ m, String.eqb (match_column m) columnLetter) matches with
            | Some found =>
                modify (set_targetColumn (Some (match_column found)));;
                modify (set_isNewColumn (Some false));;
                modify (set_columnMatches None);;
                proceedWithMetadataCollection;;
                ret true
            | None =>
                reply ("❌ Column " +:+ columnLetter
                       +:+ " is not in the list. Please choose from the options above.");;
                ret true
            end
          else
            reply ("❌ Please choose a column by typing its number (1-" +:+ count
                   +:+ ") or column letter.");;
            ret true
      | _ =>
          replyErrorAndReset ERR_SESSION_DATA_LOST;;
          ret true
      end
  | _ => ret false
  end.

End Handlers.

End ColumnHandlersB.

(* ===================================================================== *)
(** ** handlers/index.ts and commands.ts *)
(* ===================================================================== *)

Module Bot.
Import Js Host Constants Session Poll Machine Sheets BotHelpers Workflow.
Import PollHandlers SheetHandlers ColumnHandlersCommon.
Local Open Scope machine_scope.

Section Bot.
Context `{JsNumber} `{!SheetsApi}.

(** What handlers/index.ts imports from './column-handlers'. *)
Record ColumnHandlers := mkColumnHandlers {
  handleColumnConfirmation : string → M bool;
  handleNewColumnChoice : string → M bool;
  handleDateName : string → M bool;
  handleCost : string → M bool
}.

Definition columnHandlersA : ColumnHandlers :=
  mkColumnHandlers ColumnHandlersA.handleColumnConfirmation
    ColumnHandlersA.handleNewColumnChoice
    ColumnHandlersCommon.handleDateName ColumnHandlersCommon.handleCost.

Definition columnHandlersB : ColumnHandlers :=
  mkColumnHandlers ColumnHandlersB.handleColumnConfirmation
    ColumnHandlersB.handleNewColumnChoice
    ColumnHandlersCommon.handleDateName ColumnHandlersCommon.handleCost.

(** [if (await handler(ctx, text)) return; ...rest] *)
Definition orElse (handler : M bool) (rest : M unit) : M unit :=
  handled ← handler;
  if handled : bool then ret tt else rest.

(** The text message handler of [registerMessageHandlers]: "Try each
    handler in order - first match wins". *)
Definition onText (handlers : ColumnHandlers) (messageText : string) : M unit :=
  let text := toLowerCase (trim messageText) in
  let rawText := trim messageText in
  orElse (handlePollIntent text)
  (orElse (handlePollOptionSelection rawText)
  (orElse (handleColumnConfirmation handlers text)
  (orElse (handleNewColumnChoice handlers text)
  (orElse (handleDateName handlers rawText)
  (orElse (handleCost handlers text)
  (orElse (handleUsernames rawText)
  (orElse (handlePlayerCountConfirmation text)
  (orElse (handlePlayerCount text)
  (orElse (handleOverrideConfirmation text)
  (reply "👋 Use /start to begin updating a column.")))))))))).

(** The update command: "main workflow (column detection)". *)
Definition onUpdateCommand : M unit :=
  modify resetSession;;
  startColumnDetectionFlow.

(** The cancel command. *)
Definition onCancelCommand : M unit :=
  modify resetSession;;
  reply ("✅ Operation cancelled. " +:+ MSG_USE_UPDATE_AGAIN).

(** The abort command, "alias for cancel". *)
Definition onAbortCommand : M unit :=
  modify resetSession;;
  reply ("✅ Operation aborted. " +:+ MSG_USE_UPDATE_AGAIN).

(** The states in which the handler takes yes or no and nothing else:
    with the handlers A the four questions of the flow, with the handlers
    B all of them but the column question, which there also takes a
    column letter or a date text. *)
Definition expectsYesNoA (st : SessionState) : bool :=
  match st with
  | awaiting_column_confirmation | awaiting_new_column_choice
  | awaiting_player_count_confirmation | awaiting_override_confirmation => true
  | _ => false
  end.

Definition expectsYesNoB (st : SessionState) : bool :=
  match st with
  | awaiting_new_column_choice
  | awaiting_player_count_confirmation | awaiting_override_confirmation => true
  | _ => false
  end.

(** The machine after a re-prompt and nothing else. *)
Definition reprompted (m : Machine) : Machine :=
  mkMachine (session m) (activePolls m) (trace m ++ [Reply ERR_INVALID_YES_NO]) (world m).

(** What the operator can send in a conversation that reaches the store. *)
Inductive Inbound :=
  | UpdateCommand
  | CancelCommand
  | AbortCommand
  | Text (messageText : string)
  | ForwardedPoll (poll : option string) (forwarded : bool).

Definition handleInbound (handlers : ColumnHandlers) (ev : Inbound) : M unit :=
  match ev with
  | UpdateCommand => onUpdateCommand
  | CancelCommand => onCancelCommand
  | AbortCommand => onAbortCommand
  | Text messageText => onText handlers messageText
  | ForwardedPoll poll forwarded => onPollMessage poll forwarded
  end.

End Bot.

End Bot.

(* ===================================================================== *)
(** ** Store failures: what a run may look like *)
(* ===================================================================== *)

Module Recovery.
Import Js Host Constants Session Poll Machine Sheets BotHelpers.
Local Open Scope list_scope.

Section Recovery.
Context `{JsNumber} `{!SheetsApi}.

(** What the [catch] blocks of the source pass to [handleApiError]: the
    action they name, and whether the hint about the API settings is
    added (it is unless the call says [false]). *)
Definition failureReports : list (string * bool) :=
  [("detecting column", true);
   ("processing usernames", true);
   ("checking column metadata", true);
   ("writing date", false);
   ("writing cost", false);
   ("writing player count or checking overrides", false);
   ("writing player count", false);
   ("updating sheet", true);
   ("searching for column", true)].

(** An effect other than a failed request. *)
Definition quiet (ev : Effect) : Prop :=
  match ev with
  | Failed _ _ => False
  | _ => True
  end.

(** The three ways a run from [m] can relate to the failures of the
    store: no request failed; a request failed and its error is being
    thrown, nothing having happened since; or a request failed, the error
    was reported with [handleApiError], the session was reset and nothing
    happened since.  [H] says what a run of the third kind returns. *)
Inductive Verdict {A} (H : A → Prop) (m : Machine) : Outcome A * Machine → Prop :=
  | verdict_clean o m' evs :
      trace m' = trace m ++ evs → Forall quiet evs →
      Verdict H m (o, m')
  | verdict_thrown m' pre c e :
      trace m' = trace m ++ pre ++ [Failed c e] → Forall quiet pre →
      Verdict H m (Throw e, m')
  | verdict_recovered a m' pre c e action hint :
      trace m' = trace m ++ pre ++ [Failed c e; Reply (apiErrorMessage e action hint)] →
      (action, hint) ∈ failureReports →
      Forall quiet pre →
      session m' = initialSession →
      H a →
      Verdict H m (Ok a, m').

(** Every run of [c] has one of the three shapes. *)
Definition Obeys {A} (H : A → Prop) (c : M A) : Prop :=
  ∀ m, Verdict H m (c m).

(** [c] never throws. *)
Definition Returns {A} (c : M A) : Prop :=
  ∀ m, ∃ a m', c m = (Ok a, m').

(** What the failure of a request means for [c]: whenever a request of
    the run failed, [c] returned normally, the session is the initial one
    (idle, every field cleared), the failure was the only one, and the
    last thing done was the reply that reports its error; no request was
    made after it.  The reply reads "❌ Error", the action that one of the
    [catch] blocks names, a colon, the message of the error ("Unknown
    error" for a thrown value that is no [Error]) and, for the actions
    that ask for it, the hint about the API settings on a line of its
    own. *)
Definition Recovers {A} (c : M A) : Prop :=
  ∀ m o m' evs,
    c m = (o, m') → trace m' = trace m ++ evs →
    ∀ request e, Failed request e ∈ evs →
      (∃ a, o = Ok a) ∧
      session m' = initialSession ∧
      ∃ pre action hint,
        (action, hint) ∈ failureReports ∧
        evs = pre ++ [Failed request e;
                      Reply ("❌ Error " +:+ action +:+ ": "
                             +:+ match e with
                                 | ErrorObject message => message
                                 | Thrown => "Unknown error"
                                 end
                             +:+ (if hint : bool
                                  then nl +:+ nl +:+ "Check your Google Sheets API settings."
                                  else EmptyString))] ∧
        Forall quiet pre.

End Recovery.

End Recovery.

(* ===================================================================== *)
(** ** A store to run the model on *)
(* ===================================================================== *)

Module Demo.
Import Js Host Constants Session Poll Machine Sheets.

(** Whole numbers, [None] for NaN: the numbers of an instance that reads
    integers only. *)
#[export] Instance wholeNumbers : JsNumber := {|
  Num := option Z;
  parseFloat := parseInt10;
  isNaN x := match x with None => true | Some _ => false end;
  isNegative x := match x with Some z => (z <? 0)%Z | None => false end;
  numTruthy x := match x with Some z => negb (z =? 0)%Z | None => false end;
  numOfZ z := Some z;
  showNum x :=
    match x with
    | Some z => NilEmpty.string_of_int (Z.to_int z)
    | None => "NaN"
    end
|}.

(** One scripted answer of the store. *)
Inductive Answer :=
  | Done
  | Values (values : option (list (list Cell)))
  | ValueRanges (ranges : option (list (option (list (list Cell)))))
  | Found (result : FindResult)
  | Throws (e : JsError).

Definition unexpected : JsError := ErrorObject "unexpected request".

(** A store that answers the requests it gets from a script, one answer
    per request, and throws when the script has no fitting answer. *)
#[export] Instance scripted : SheetsApi := {|
  World := list Answer;
  api_init w :=
    match w with
    | Done :: rest => (Ok tt, rest)
    | Throws e :: rest => (Throw e, rest)
    | _ => (Throw unexpected, w)
    end;
  api_get _ w :=
    match w with
    | Values v :: rest => (Ok v, rest)
    | Throws e :: rest => (Throw e, rest)
    | _ => (Throw unexpected, w)
    end;
  api_batchGet _ w :=
    match w with
    | ValueRanges v :: rest => (Ok v, rest)
    | Throws e :: rest => (Throw e, rest)
    | _ => (Throw unexpected, w)
    end;
  api_batchUpdate _ w :=
    match w with
    | Done :: rest => (Ok tt, rest)
    | Throws e :: rest => (Throw e, rest)
    | _ => (Throw unexpected, w)
    end;
  api_findColumnByDateText _ w :=
    match w with
    | Found r :: rest => (Ok r, rest)
    | Throws e :: rest => (Throw e, rest)
    | _ => (Throw unexpected, w)
    end
|}.

(** A conversation in state [st] that has collected nothing else, with
    no polls, nothing done yet, and the store [script]. *)
Definition start (st : SessionState) (script : list Answer) : Machine :=
  mkMachine (set_state st initialSession) ∅ [] script.

(** A conversation with the session [s]. *)
Definition startWith (s : SessionData) (script : list Answer) : Machine :=
  mkMachine s ∅ [] script.

End Demo.

(* ===================================================================== *)
(** ** poll.ts: the poll command *)
(* ===================================================================== *)

Module PollCommand.
Import Js Host Poll SheetHandlers.

(** The separators of [content.split(/[|;\n]+/)]: the bar, the semicolon
    and the line feed. *)
Definition isPollSeparator (c : ascii) : bool :=
  ((code c =? 124) || (code c =? 59) || (code c =? 10))%Z.

(** The pieces of [s] between the characters [sep] accepts, empty pieces
    included; [cur] is the piece being read.  (A run of separators is one
    separator for [split]; the empty pieces it gives here are dropped by
    the filter that follows.) *)
Fixpoint splitOn (sep : ascii → bool) (s : string) (cur : string) : list string :=
  match s with
  | EmptyString => [cur]
  | String c rest =>
      if sep c then cur :: splitOn sep rest EmptyString
      else splitOn sep rest (cur +:+ String c EmptyString)
  end.

(** [text.replace(/^\/poll\s+/i, '')]: the command word in any letter case
    and the white space after it are dropped; a text that does not begin
    that way is left as it is. *)
Definition dropPollCommand (text : string) : string :=
  match text with
  | String c0 (String c1 (String c2 (String c3 (String c4 (String c5 rest))))) =>
      if (code c0 =? 47)%Z
         && (code (lowerChar c1) =? 112)%Z && (code (lowerChar c2) =? 111)%Z
         && (code (lowerChar c3) =? 108)%Z && (code (lowerChar c4) =? 108)%Z
         && isSpace c5
      then trimStart rest
      else text
  | _ => text
  end.

(** The non-empty trimmed parts of the command's content. *)
Definition pollParts (text : string) : list string :=
  List.filter nonEmpty
    (map trim (splitOn isPollSeparator (trim (dropPollCommand text)) EmptyString)).

Definition pollUsage : string :=
  "❌ Please provide poll question and options." +:+ nl +:+ nl
  +:+ "Usage: /poll Question? | Option1 | Option2 | Option3" +:+ nl
  +:+ "Separators: | or ; or newlines".

Definition pollUsageShort : string :=
  "❌ Please provide at least a question and one option." +:+ nl +:+ nl
  +:+ "Usage: /poll Question? | Option1 | Option2" +:+ nl
  +:+ "Separators: | or ; or newlines".

Definition pollNoOption : string := "❌ Please provide at least one option.".

(** What the poll command does with the text of its message: it answers
    with a usage note, or it goes on to [sendPoll] with a question and
    options. *)
Inductive PollRequest :=
  | Usage (message : string)
  | SendPoll (question : string) (options : list string).

Definition pollRequest (text : option string) : PollRequest :=
  if truthy text then
    match pollParts (default EmptyString text) with
    | [] | [_] => Usage pollUsageShort
    | question :: options =>
        if (length options <? 1)%nat then Usage pollNoOption
        else SendPoll question options
    end
  else Usage pollUsage.

(** The poll command handler of [registerPollCommand].  [sendPoll] is
    [ctx.api.sendPoll] with the id of the poll it returns, when it returns
    one; the result is the registry and the reply. *)
Definition onPollCommand (text : option string)
    (sendPoll : string → list string → Outcome (option string))
    (activePolls : Registry) : Registry * string :=
  match pollRequest text with
  | Usage message => (activePolls, message)
  | SendPoll question options =>
      match sendPoll question options with
      | Ok pollId =>
          (if truthy pollId
           then storePoll (default EmptyString pollId) question options activePolls
           else activePolls,
           "✅ Poll created! Forward it back to me to see voters or update the sheet.")
      | Throw e =>
          (activePolls,
           "❌ Error creating poll: "
           +:+ match e with
               | ErrorObject message => message
               | Thrown => "Unknown error"
               end)
      end
  end.

End PollCommand.

(* ===================================================================== *)
(** ** Shapes of text and of maps that the theorems speak of *)
(* ===================================================================== *)

Module Shapes.
Import Js Poll Sheets SheetHandlers PollCommand.

(** A string that is empty or begins with something else than white
    space. *)
Definition noLeadingSpace (s : string) : Prop :=
  match s with
  | String c _ => isSpace c = false
  | EmptyString => True
  end.

Definition notSpace (c : ascii) : bool := negb (isSpace c).

Definition notSeparator (c : ascii) : bool := negb (isSeparator c).

Definition notPollSeparator (c : ascii) : bool := negb (isPollSeparator c).

(** What every parsed username looks like: "@", then a name that is not
    empty, does not begin with "@" and holds no separator (no white space,
    comma or semicolon). *)
Definition usernameShape (u : string) : Prop :=
  ∃ name, u = "@" +:+ name ∧ name ≠ EmptyString ∧
          stripAts name = name ∧ allChars notSeparator name = true.

(** A part of a poll command: not empty, trimmed, without separator. *)
Definition pollPart (p : string) : Prop :=
  p ≠ EmptyString ∧ trim p = p ∧ allChars notPollSeparator p = true.


(** The votes of a poll after a vote of [u] for [ids]. *)
Definition votesAfter (u : string) (ids : list nat) (vs : gmap nat (list string))
    : gmap nat (list string) :=
  foldl (addVote u) (removeFromAll u vs) ids.

(** The keys of a map, in its order. *)
Definition mapKeys {V} (m : list (string * V)) : list string := map fst m.

(** [k] is the spelling under which the rows of its identity are
    recorded: the one the normalized name leads to. *)
Definition recorded (nicknames : list string) (k : string) : Prop :=
  mapGet (normalizeNickname k) (normalizedNicknames nicknames) = Some k ∧
  truthy (Some k) = true.

(** The second byte of a capital Cyrillic letter after the byte 208. *)
Definition isCapitalTail (d : ascii) : bool := ((128 <=? code d) && (code d <=? 175))%Z.

(** The two bytes [toLowerCase] writes for the capital letter 208 [d]. *)
Definition smallFirst (d : ascii) : ascii :=
  if (code d <=? 143)%Z then fromCharCode 209
  else if (code d <=? 159)%Z then fromCharCode 208
  else fromCharCode 209.

Definition smallSecond (d : ascii) : ascii :=
  if (code d <=? 143)%Z then fromCharCode (code d + 16)%Z
  else if (code d <=? 159)%Z then fromCharCode (code d + 32)%Z
  else fromCharCode (code d - 32)%Z.

(** The first character of a string, when it has one. *)
Definition firstChar (s : string) : option ascii :=
  match s with
  | String c _ => Some c
  | EmptyString => None
  end.

(** [c] before [rest] does not begin a capital Cyrillic letter. *)
Definition plain (c : ascii) (rest : string) : Prop :=
  code c ≠ 208%Z ∨ match firstChar rest with
                   | Some d => isCapitalTail d = false
                   | None => True
                   end.

End Shapes.

(* ===================================================================== *)
(** ** Replies: what a run may look like *)
(* ===================================================================== *)

Module Progress.
Import Js Host Constants Session Poll Machine.
Local Open Scope list_scope.

Section Progress.
Context `{JsNumber} `{!SheetsApi}.

(** [c] only adds to what was done. *)
Definition Grows {A} (c : M A) : Prop :=
  ∀ m, ∃ evs, trace (snd (c m)) = trace m ++ evs.

(** A run of [c] that returns has sent a reply, unless it returns a value
    that [Q] accepts. *)
Definition Says {A} (Q : A → Prop) (c : M A) : Prop :=
  ∀ m, ∃ evs, trace (snd (c m)) = trace m ++ evs ∧
       match fst (c m) with
       | Ok a => (∃ text, Reply text ∈ evs) ∨ Q a
       | Throw _ => True
       end.

End Progress.

End Progress.

(* ===================================================================== *)
(** ** Conversations and the sessions they reach *)
(* ===================================================================== *)

Module Conversation.
Import Js Host Constants Columns Session Poll Machine Sheets BotHelpers Workflow.
Import PollHandlers SheetHandlers ColumnHandlersCommon Bot Shapes.
Local Open Scope list_scope.

(** The replies that report an inconsistent session: a field that the
    handler needs is missing. *)
Definition isLost (text : string) : bool :=
  (text =? ERR_SESSION_DATA_LOST)%string
  || (text =? ERR_TARGET_COLUMN_NOT_SET)%string
  || (text =? "❌ Error: missing usernames or target column. Start over with /update")%string.

(** A column coordinate that can be a target: capital letters, at least
    one. *)
Definition validColumn (c : string) : Prop :=
  isColumn c = true ∧ c ≠ EmptyString.

Section Conversation.
Context `{JsNumber} `{!SheetsApi}.

(** The machine after one reply and nothing else. *)
Definition replied (text : string) (m : Machine) : Machine :=
  mkMachine (session m) (activePolls m) (trace m ++ [Reply text]) (world m).

(** What the handler of a state answers to a message it cannot read, for
    the states that take something else than yes or no: the re-prompt, or
    [None] when the message can be read. *)
Definition unreadable (st : SessionState) (messageText : string) : option string :=
  let text := toLowerCase (trim messageText) in
  let rawText := trim messageText in
  match st with
  | awaiting_poll_intent =>
      if (text =? "1")%string || (text =? "update sheet")%string
         || (text =? "update")%string || (text =? "2")%string
         || (text =? "view voters")%string || (text =? "view")%string
      then None
      else Some ("❌ Please reply with " +:+ dq +:+ "1" +:+ dq +:+ " to update sheet or "
                 +:+ dq +:+ "2" +:+ dq +:+ " to view voters.")
  | awaiting_poll_option_selection =>
      match parseInt10 rawText with
      | Some optionNum =>
          if (optionNum <? 1)%Z then Some "❌ Please provide a valid option number."
          else None
      | None => Some "❌ Please provide a valid option number."
      end
  | awaiting_date_name =>
      if truthy (Some rawText) then None else Some "❌ Please provide a date name"
  | awaiting_cost =>
      if isNaN (parseFloat text) || isNegative (parseFloat text)
      then Some "❌ Please provide a valid positive number for the cost"
      else None
  | awaiting_usernames =>
      match parseUsernames rawText with
      | [] => Some "❌ Failed to recognize usernames. Try again or use /help"
      | _ => None
      end
  | awaiting_player_count =>
      match parseInt10 text with
      | Some count =>
          if (count <? 0)%Z
          then Some "❌ Please provide a valid positive integer for the player count"
          else None
      | None => Some "❌ Please provide a valid positive integer for the player count"
      end
  | _ => None
  end.

Definition okEffect (ev : Effect) : Prop :=
  match ev with
  | Reply text => isLost text = false
  | _ => True
  end.

(** No such reply was sent so far. *)
Definition TraceOk (m : Machine) : Prop := Forall okEffect (trace m).

(** From the session [s] and a trace without such a reply, [c] sends no
    such reply, returns with [post], and throws with [thrown]. *)
Definition Wp {A} (c : M A) (post : A → SessionData → Prop)
    (thrown : SessionData → Prop) (s : SessionData) : Prop :=
  ∀ m, session m = s → TraceOk m →
    TraceOk (snd (c m)) ∧
    match fst (c m) with
    | Ok a => post a (session (snd (c m)))
    | Throw _ => thrown (session (snd (c m)))
    end.

(** What the handlers rely on, state by state: the target column where a
    handler reads it, the matched rows where a handler reads them, and in
    awaiting_override_confirmation the column, the rows and a non-empty
    list of conflicts among those rows.  Whatever target column is set is
    a column coordinate. *)
Definition Consistent (s : SessionData) : Prop :=
  (∀ c, targetColumn s = Some c → validColumn c) ∧
  match state s with
  | awaiting_column_confirmation | awaiting_date_name | awaiting_cost
  | awaiting_usernames =>
      ∃ c, targetColumn s = Some c
  | awaiting_player_count_confirmation | awaiting_player_count =>
      (∃ c, targetColumn s = Some c) ∧
      ∃ rows, nicknameRowsEntries s = Some rows ∧ rows ≠ [] ∧ NoDup (mapKeys rows)
  | awaiting_override_confirmation =>
      (∃ c, column s = Some c ∧ c ≠ EmptyString) ∧
      ∃ rows existing,
        nicknameRowsEntries s = Some rows ∧ NoDup (mapKeys rows) ∧
        existingValuesEntries s = Some existing ∧ existing ≠ [] ∧
        ∀ n, n ∈ map ev_nickname existing → n ∈ mapKeys rows
  | _ => True
  end.

(** What a handler keeps: the session stays consistent, and a handler
    that passes the message on has not touched the session. *)
Definition Kept (s : SessionData) (handled : bool) (s' : SessionData) : Prop :=
  Consistent s' ∧ (handled = false → s' = s).

(** The date search of the store names column coordinates. *)
Definition SearchValid : Prop :=
  ∀ text w,
    match fst (api_findColumnByDateText text w) with
    | Ok (FindSingle c _) => validColumn c
    | _ => True
    end.

(** The handlers installed: either text of column-handlers.ts, the one
    with the date search over a store whose search names column
    coordinates. *)
Definition Installed (handlers : ColumnHandlers) : Prop :=
  handlers = columnHandlersA ∨ (handlers = columnHandlersB ∧ SearchValid).

(** The conversations.  A conversation starts with the initial session
    and nothing done; the operator's messages and commands are handled
    one after the other; in between, the poll registry and the store may
    change in any way. *)
Inductive Reachable (handlers : ColumnHandlers) : Machine → Prop :=
  | reach_start polls w :
      Reachable handlers (mkMachine initialSession polls [] w)
  | reach_inbound m ev :
      Reachable handlers m → Reachable handlers (snd (handleInbound handlers ev m))
  | reach_environment m polls w :
      Reachable handlers m →
      Reachable handlers (mkMachine (session m) polls (trace m) w).

End Conversation.

End Conversation.

(* ===================================================================== *)
(** ** A store whose date search names column coordinates *)
(* ===================================================================== *)

Module CheckedStore.
Import Js Host Columns Demo.

Definition isColumnName (c : string) : bool :=
  isColumn c && negb (String.eqb c EmptyString).

(** The scripted store of [Demo], with a date search that answers with a
    single column only when the script names a column coordinate. *)
Definition checked : SheetsApi := {|
  World := list Answer;
  api_init := @api_init wholeNumbers scripted;
  api_get := @api_get wholeNumbers scripted;
  api_batchGet := @api_batchGet wholeNumbers scripted;
  api_batchUpdate := @api_batchUpdate wholeNumbers scripted;
  api_findColumnByDateText _ w :=
    match w with
    | Found (FindSingle c d) :: rest =>
        if isColumnName c then (Ok (FindSingle c d), rest)
        else (Throw unexpected, rest)
    | Found r :: rest => (Ok r, rest)
    | Throws e :: rest => (Throw e, rest)
    | _ => (Throw unexpected, w)
    end
|}.

End CheckedStore.

(* ===================================================================== *)
(** ** The final write: what is sent and what is left *)
(* ===================================================================== *)

Module Written.
Import Js Host Constants Session Poll Machine Sheets.
Local Open Scope list_scope.

Section Written.
Context `{JsNumber} `{!SheetsApi}.

(** The ranges [checkExistingValues] asks for: the cell of [column] in
    each row of [rows]. *)
Definition cellRanges (column : string) (rows : list (string * nat)) : list string :=
  map (λ e, cellRange column (snd e)) rows.

(** The batch that writes the number 0 into the cell of [column] in each
    row of [rows]. *)
Definition zeroUpdates (column : string) (rows : list (string * nat)) : list Update :=
  map (λ e, mkUpdate (cellRange column (snd e)) [[CNum (numOfZ 0)]]) rows.

(** The rows whose nickname is not among [listed]. *)
Definition rowsWithout (listed : list string) (rows : list (string * nat))
    : list (string * nat) :=
  filter (λ e, fst e ∉ listed) rows.

(** The usernames the operator sent that have no row. *)
Definition withoutRow (rows : list (string * nat)) (s : SessionData) : list string :=
  filter (λ u, u ∉ map fst rows) (usernames s).

(** The conversation once the cycle is over: the session is the initial
    one (idle, every field cleared), [effects] were added to what was done
    before, and the store is left as [w]. *)
Definition finished (m : Machine) (effects : list Effect) (w : World) : Machine :=
  mkMachine initialSession (activePolls m) (trace m ++ effects) w.

End Written.
End Written.

(* ===================================================================== *)
(** ** Column letters: theorems *)
(* ===================================================================== *)

Module ColumnFacts.
Import Js Columns.
Local Open Scope Z_scope.

Lemma code_range (c : ascii) : 0 <= code c < 256.
Proof.
  unfold code. pose proof (nat_ascii_bounded c). lia.
Qed.

Lemma fromCharCode_code (c : ascii) : fromCharCode (code c) = c.
Proof.
  unfold fromCharCode, code. rewrite Nat2Z.id. apply ascii_nat_embedding.
Qed.

Lemma code_fromCharCode (n : Z) : 0 <= n < 256 -> code (fromCharCode n) = n.
Proof.
  intros Hn. unfold fromCharCode, code.
  rewrite nat_ascii_embedding by lia. lia.
Qed.

Lemma isUpper_range (c : ascii) : isUpper c = true <-> 65 <= code c <= 90.
Proof. unfold isUpper. rewrite andb_true_iff. lia. Qed.

(** The loop never runs more often than its index says. *)
Lemma indexLoop_fuel (fuel fuel' : nat) :
  forall index result,
    index <= Z.of_nat fuel -> index <= Z.of_nat fuel' ->
    indexLoop fuel index result = indexLoop fuel' index result.
Proof.
  revert fuel'. induction fuel as [|fuel IH]; intros fuel' index result H1 H2.
  - destruct fuel' as [|fuel'']; [reflexivity|]. simpl.
    destruct (0 <? index) eqn:E; [apply Z.ltb_lt in E; lia | reflexivity].
  - destruct fuel' as [|fuel'']; simpl.
    + destruct (0 <? index) eqn:E; [apply Z.ltb_lt in E; lia | reflexivity].
    + destruct (0 <? index) eqn:E; [|reflexivity].
      apply Z.ltb_lt in E.
      assert ((index - 1) / 26 <= index - 1)
        by (apply Z.div_le_upper_bound; lia).
      apply IH; lia.
Qed.

Lemma indexLoop_zero (fuel : nat) (index : Z) (result : string) :
  index <= 0 -> indexLoop fuel index result = result.
Proof.
  intros H. destruct fuel; simpl; [reflexivity|].
  destruct (0 <? index) eqn:E; [apply Z.ltb_lt in E; lia | reflexivity].
Qed.

Lemma letterLoop_lower (s : string) :
  forall acc, 0 <= acc -> isColumn s = true -> acc <= letterLoop acc s.
Proof.
  induction s as [|c s IH]; intros acc Hacc Hs; simpl; [lia|].
  simpl in Hs. apply andb_true_iff in Hs as [Hc Hs].
  apply isUpper_range in Hc.
  specialize (IH (acc * 26 + (code c - 64)) ltac:(lia) Hs). lia.
Qed.

(** Reading the letters of a coordinate and printing the number back
    gives the coordinate: the loop of [indexToColumnLetter] undoes the
    loop of [columnLetterToIndex] digit by digit. *)
Lemma indexLoop_letterLoop (s : string) :
  forall acc fuel result,
    0 <= acc -> isColumn s = true ->
    letterLoop acc s <= Z.of_nat fuel ->
    indexLoop fuel (letterLoop acc s) result
    = indexLoop fuel acc (s +:+ result).
Proof.
  induction s as [|c s IH]; intros acc fuel result Hacc Hs Hfuel; simpl.
  - reflexivity.
  - simpl in Hs, Hfuel. apply andb_true_iff in Hs as [Hc Hs].
    apply isUpper_range in Hc.
    set (acc' := acc * 26 + (code c - 64)) in *.
    assert (Hacc' : 0 < acc') by (subst acc'; lia).
    pose proof (letterLoop_lower s acc' ltac:(lia) Hs) as Hlow.
    rewrite IH by (assumption || lia).
    destruct fuel as [|fuel]; [lia|].
    change (indexLoop (S fuel) acc' (s +:+ result)) with
      (if 0 <? acc' then
         indexLoop fuel ((acc' - 1) / 26)
           (String (fromCharCode (65 + (acc' - 1) mod 26)) (s +:+ result))
       else s +:+ result).
    destruct (0 <? acc') eqn:E; [|apply Z.ltb_ge in E; lia].
    assert (Hq : (acc' - 1) / 26 = acc).
    { subst acc'. replace (acc * 26 + (code c - 64) - 1)
        with (code c - 65 + acc * 26) by lia.
      rewrite Z.div_add by lia. rewrite Z.div_small by lia. lia. }
    assert (Hr : (acc' - 1) mod 26 = code c - 65).
    { subst acc'. replace (acc * 26 + (code c - 64) - 1)
        with (code c - 65 + acc * 26) by lia.
      rewrite Z.mod_add by lia. apply Z.mod_small. lia. }
    rewrite Hq, Hr. replace (65 + (code c - 65)) with (code c) by lia.
    rewrite fromCharCode_code.
    apply indexLoop_fuel; lia.
Qed.

Lemma indexToColumnLetter_letterLoop (s : string) :
  isColumn s = true ->
  indexToColumnLetter (letterLoop 0 s - 1) = s.
Proof.
  intros Hs. unfold indexToColumnLetter.
  replace (letterLoop 0 s - 1 + 1) with (letterLoop 0 s) by lia.
  pose proof (letterLoop_lower s 0 ltac:(lia) Hs).
  rewrite indexLoop_letterLoop by (assumption || lia).
  rewrite indexLoop_zero by lia.
  clear. induction s as [|c s IH]; [reflexivity|].
  change (String c s +:+ EmptyString) with (String c (s +:+ EmptyString)).
  now rewrite IH.
Qed.

Lemma letterLoop_acc (s : string) :
  forall acc,
    letterLoop acc s = acc * 26 ^ Z.of_nat (String.length s) + letterLoop 0 s.
Proof.
  induction s as [|c s IH]; intros acc.
  - simpl. lia.
  - cbn [letterLoop String.length]. rewrite IH.
    rewrite (IH (0 * 26 + (code c - 64))).
    rewrite Nat2Z.inj_succ, Z.pow_succ_r by lia. ring.
Qed.

(** What [succDigits] does to the number a digit string stands for: it
    adds one, and a carry out means the sum wrapped around 26^length. *)
Lemma succDigits_value (s : string) :
  isColumn s = true ->
  isColumn (fst (succDigits s)) = true /\
  String.length (fst (succDigits s)) = String.length s /\
  letterLoop 0 (fst (succDigits s))
  + (if snd (succDigits s) then 26 ^ Z.of_nat (String.length s) else 0)
  = letterLoop 0 s + 1.
Proof.
  unfold isColumn.
  induction s as [|c s IH]; intros Hs.
  - simpl. repeat split; reflexivity.
  - cbn [allChars] in Hs. apply andb_true_iff in Hs as [Hc Hs].
    apply isUpper_range in Hc.
    specialize (IH Hs) as (Hv & Hlen & Hval).
    cbn [succDigits]. destruct (succDigits s) as [rest' carry].
    cbn [fst snd] in *.
    assert (Hpow : 26 ^ Z.of_nat (String.length (String c s))
                   = 26 * 26 ^ Z.of_nat (String.length s)).
    { cbn [String.length]. rewrite Nat2Z.inj_succ, Z.pow_succ_r by lia. ring. }
    destruct carry.
    + destruct (code c =? 90) eqn:E.
      * apply Z.eqb_eq in E. cbn [fst snd]. repeat split.
        -- cbn [allChars]. rewrite Hv. reflexivity.
        -- cbn [String.length]. now rewrite Hlen.
        -- cbn [letterLoop]. rewrite code_fromCharCode by lia.
           rewrite letterLoop_acc, (letterLoop_acc s), Hlen, Hpow. lia.
      * apply Z.eqb_neq in E. cbn [fst snd]. repeat split.
        -- cbn [allChars]. rewrite Hv. rewrite andb_true_r.
           apply isUpper_range. rewrite code_fromCharCode by lia. lia.
        -- cbn [String.length]. now rewrite Hlen.
        -- cbn [letterLoop]. rewrite code_fromCharCode by lia.
           rewrite letterLoop_acc, (letterLoop_acc s), Hlen. lia.
    + cbn [fst snd]. repeat split.
      * cbn [allChars]. rewrite Hv, andb_true_r. now apply isUpper_range.
      * cbn [String.length]. now rewrite Hlen.
      * cbn [letterLoop].
        rewrite letterLoop_acc, (letterLoop_acc s), Hlen. lia.
Qed.

Lemma columnSucc_value (s : string) :
  isColumn s = true ->
  isColumn (columnSucc s) = true /\
  letterLoop 0 (columnSucc s) = letterLoop 0 s + 1.
Proof.
  intros Hs. destruct (succDigits_value s Hs) as (Hv & Hlen & Hval).
  unfold columnSucc. destruct (succDigits s) as [r carry]. cbn [fst snd] in *.
  destruct carry.
  - split.
    + unfold isColumn in *. cbn [allChars]. now rewrite Hv.
    + cbn [letterLoop]. rewrite code_fromCharCode by lia.
      rewrite letterLoop_acc, Hlen. lia.
  - split; [assumption | lia].
Qed.

(** C9. [getNextColumnLetter] is the successor of bijective base 26 (digits
    A..Z for 1..26, no zero digit) on every column coordinate, for the
    coordinates of up to eleven letters on which the source's arithmetic in
    doubles is exact; and Z -> AA, O -> P, AZ -> BA. *)
Theorem nextColumn_is_base26_successor :
  (getNextColumnLetter "Z" = "AA" /\
   getNextColumnLetter "O" = "P" /\
   getNextColumnLetter "AZ" = "BA") /\
  forall s : string,
    isColumn s = true -> (String.length s <= 11)%nat ->
    getNextColumnLetter s = columnSucc s.
Proof.
  split; [repeat split; reflexivity|].
  intros s Hs _.
  destruct (columnSucc_value s Hs) as [Hv Hval].
  unfold getNextColumnLetter, columnLetterToIndex.
  replace (letterLoop 0 s - 1 + 1) with (letterLoop 0 (columnSucc s) - 1) by lia.
  now apply indexToColumnLetter_letterLoop.
Qed.

Lemma nextColumn_is_base26_successor_witness :
  isColumn "ZZ" = true /\ (String.length "ZZ" <= 11)%nat /\
  getNextColumnLetter "ZZ" = "AAA".
Proof.
  split; [reflexivity|]. split; [simpl; lia|].
  rewrite (proj2 nextColumn_is_base26_successor "ZZ"); [reflexivity| reflexivity | simpl; lia].
Defined.

End ColumnFacts.

(* ===================================================================== *)
(** ** The vote registry: theorems *)
(* ===================================================================== *)

Module PollFacts.
Import Js Poll.

Lemma elem_of_setAdd (x y : string) (s : list string) :
  y ∈ setAdd x s ↔ y ∈ s ∨ y = x.
Proof.
  unfold setAdd, setHas. case_bool_decide as Hx.
  - split; [now left | intros [H | H]; [assumption | now subst y]].
  - rewrite elem_of_app, list_elem_of_singleton. reflexivity.
Qed.

Lemma elem_of_setDelete (x y : string) (s : list string) :
  y ∈ setDelete x s ↔ y ≠ x ∧ y ∈ s.
Proof. unfold setDelete. now rewrite list_elem_of_filter. Qed.

Lemma elem_of_removeFromAll (u j : string) (vs : gmap nat (list string)) (o : nat) :
  j ∈ default [] (removeFromAll u vs !! o) ↔ j ≠ u ∧ j ∈ default [] (vs !! o).
Proof.
  unfold removeFromAll. rewrite lookup_fmap.
  destruct (vs !! o) as [voters|]; simpl.
  - apply elem_of_setDelete.
  - rewrite elem_of_nil. tauto.
Qed.

Lemma elem_of_addVote (u j : string) (vs : gmap nat (list string)) (o' o : nat) :
  j ∈ default [] (addVote u vs o' !! o)
  ↔ j ∈ default [] (vs !! o) ∨ (j = u ∧ o = o').
Proof.
  unfold addVote. destruct (vs !! o') as [voters|] eqn:E.
  - rewrite E. destruct (decide (o = o')) as [->|Hne].
    + rewrite lookup_insert_eq, E. simpl. rewrite elem_of_setAdd. tauto.
    + rewrite lookup_insert_ne by congruence. tauto.
  - rewrite lookup_insert_eq. destruct (decide (o = o')) as [->|Hne].
    + rewrite lookup_insert_eq, E. simpl.
      rewrite elem_of_setAdd, elem_of_nil. tauto.
    + rewrite !lookup_insert_ne by congruence. tauto.
Qed.

Lemma elem_of_foldl_addVote (u j : string) (ids : list nat) :
  ∀ (vs : gmap nat (list string)) (o : nat),
    j ∈ default [] (foldl (addVote u) vs ids !! o)
    ↔ j ∈ default [] (vs !! o) ∨ (j = u ∧ o ∈ ids).
Proof.
  induction ids as [|o' ids IH]; intros vs o; simpl.
  - rewrite elem_of_nil. tauto.
  - rewrite IH, elem_of_addVote, elem_of_cons. tauto.
Qed.

(** The handler on a tracked poll and a vote that carries an identity. *)
Lemma onPollAnswer_tracked (polls : Registry) (pa : PollAnswer)
    (pd : PollData) (i : string) :
  polls !! poll_id pa = Some pd →
  identityOf pa = Some i →
  onPollAnswer polls (Some pa)
  = <[poll_id pa :=
        mkPollData (question pd) (options pd)
          (foldl (addVote i) (removeFromAll i (votes pd)) (option_ids pa))]> polls.
Proof.
  intros Hpd Hid. unfold onPollAnswer, identityOf in *. rewrite Hpd.
  destruct (user pa) as [u|]; [|discriminate].
  destruct (username u) as [name|]; [|discriminate].
  destruct (truthy (Some name)); [|discriminate].
  injection Hid as <-. destruct (option_ids pa); reflexivity.
Qed.

(** A vote without an identity changes nothing. *)
Lemma onPollAnswer_anonymous (polls : Registry) (pa : PollAnswer) :
  identityOf pa = None → onPollAnswer polls (Some pa) = polls.
Proof.
  intros Hid. unfold onPollAnswer, identityOf in *.
  destruct (polls !! poll_id pa); [|reflexivity].
  destruct (user pa) as [u|]; [|reflexivity].
  destruct (username u) as [name|]; [|reflexivity].
  destruct (truthy (Some name)); [discriminate | reflexivity].
Qed.

Lemma onPollAnswer_untracked (polls : Registry) (pa : PollAnswer) :
  polls !! poll_id pa = None → onPollAnswer polls (Some pa) = polls.
Proof. intros H. unfold onPollAnswer. now rewrite H. Qed.

(** Membership after a vote: the voter sits exactly in the options the
    vote carries, everybody else sits where they sat. *)
Lemma votersFor_after_vote (pd : PollData) (i j : string) (ids : list nat) (o : nat) :
  j ∈ votersFor
        (mkPollData (question pd) (options pd)
           (foldl (addVote i) (removeFromAll i (votes pd)) ids)) o
  ↔ (j = i ∧ o ∈ ids) ∨ (j ≠ i ∧ j ∈ votersFor pd o).
Proof.
  unfold votersFor. cbn [votes].
  rewrite elem_of_foldl_addVote, elem_of_removeFromAll. tauto.
Qed.

(** C3, as the code has it.  A vote for a poll the registry does not
    track changes nothing.  Neither does a vote that carries no identity
    (no user, or a user without a non-empty username), whatever poll it is
    for and whatever options it carries: the handler returns before it
    removes or adds anything.  A vote for a tracked poll that carries an
    identity ("@" followed by the username) replaces the poll's sets by:
    the identity deleted from every set, then added to the set of each
    option index of the vote.  So afterwards the identity is a member of
    exactly the options the vote carries, of none when it carries none,
    every other identity is where it was, and every other poll is
    untouched. *)
Theorem vote_change_semantics (polls : Registry) (pa : PollAnswer) :
  (polls !! poll_id pa = None → onPollAnswer polls (Some pa) = polls) ∧
  (identityOf pa = None → onPollAnswer polls (Some pa) = polls) ∧
  (∀ pd i,
     polls !! poll_id pa = Some pd → identityOf pa = Some i →
     ∃ pd',
       onPollAnswer polls (Some pa) !! poll_id pa = Some pd' ∧
       question pd' = question pd ∧ options pd' = options pd ∧
       votes pd' = foldl (addVote i) (removeFromAll i (votes pd)) (option_ids pa) ∧
       (∀ o j, j ∈ votersFor pd' o
               ↔ (j = i ∧ o ∈ option_ids pa) ∨ (j ≠ i ∧ j ∈ votersFor pd o)) ∧
       (option_ids pa = [] → ∀ o, i ∉ votersFor pd' o) ∧
       (∀ q, q ≠ poll_id pa → onPollAnswer polls (Some pa) !! q = polls !! q)).
Proof.
  split; [apply onPollAnswer_untracked|].
  split; [apply onPollAnswer_anonymous|].
  intros pd i Hpd Hid.
  rewrite (onPollAnswer_tracked polls pa pd i Hpd Hid).
  eexists. split; [apply lookup_insert_eq|].
  cbn [question options votes].
  repeat split.
  - apply votersFor_after_vote.
  - apply votersFor_after_vote.
  - intros Hnil o Hin. apply votersFor_after_vote in Hin.
    rewrite Hnil in Hin. destruct Hin as [[_ Hin]|[Hne _]].
    + now apply elem_of_nil in Hin.
    + now apply Hne.
  - intros q Hq. now rewrite lookup_insert_ne.
Qed.

(** The user "x" votes for the second option; the same user, the username
    since removed, then takes the vote back, which changes nothing. *)
Lemma vote_change_semantics_witness :
  (∃ pd', onPollAnswer demoPolls (voteOf "x" [1]) !! "p1" = Some pd' ∧
          "@x" ∈ votersFor pd' 1 ∧ "@x" ∉ votersFor pd' 0) ∧
  onPollAnswer (onPollAnswer demoPolls (voteOf "x" [1]))
    (Some (mkPollAnswer "p1" (Some (mkUser 1 None)) []))
  = onPollAnswer demoPolls (voteOf "x" [1]).
Proof.
  split.
  - destruct (proj2 (proj2 (vote_change_semantics demoPolls
                (mkPollAnswer "p1" (Some (mkUser 1 (Some "x"))) [1])))
                (mkPollData "Play on Sunday?" ["Yes"; "No"] ∅) "@x"
                eq_refl eq_refl)
      as (pd' & Hlook & _ & _ & _ & Hmem & _ & _).
    exists pd'. split; [exact Hlook|]. split.
    + apply Hmem. left. split; [reflexivity | apply list_elem_of_singleton; reflexivity].
    + intros Hin. apply Hmem in Hin. destruct Hin as [[_ Hin]|[Hne _]].
      * apply list_elem_of_singleton in Hin. discriminate.
      * now apply Hne.
  - apply (proj1 (proj2 (vote_change_semantics
              (onPollAnswer demoPolls (voteOf "x" [1]))
              (mkPollAnswer "p1" (Some (mkUser 1 None)) [])))).
    reflexivity.
Defined.

(** C3 as stated fails for a voter without a username: the poll is
    tracked and the vote carries the first option, yet after the vote the
    registry is what it was and the set of that option has no member, so
    no identity was added to the option the vote carries. *)
Lemma vote_change_counterexample :
  let pa := mkPollAnswer "p1" (Some (mkUser 1 None)) [0] in
  demoPolls !! poll_id pa = Some (mkPollData "Play on Sunday?" ["Yes"; "No"] ∅) ∧
  onPollAnswer demoPolls (Some pa) = demoPolls ∧
  ¬ ∃ pd' i, onPollAnswer demoPolls (Some pa) !! poll_id pa = Some pd' ∧
             i ∈ votersFor pd' 0.
Proof.
  intros pa.
  assert (Hlook : demoPolls !! poll_id pa
                  = Some (mkPollData "Play on Sunday?" ["Yes"; "No"] ∅))
    by (unfold demoPolls, storePoll; apply lookup_insert_eq).
  assert (Hsame : onPollAnswer demoPolls (Some pa) = demoPolls)
    by (apply onPollAnswer_anonymous; reflexivity).
  split; [exact Hlook|]. split; [exact Hsame|].
  intros (pd' & i & Hpd' & Hin). rewrite Hsame, Hlook in Hpd'.
  injection Hpd' as <-. unfold votersFor in Hin. cbn [votes] in Hin.
  rewrite lookup_empty in Hin. now apply elem_of_nil in Hin.
Qed.

Lemma Exclusive_storePoll (polls : Registry) (pollId q : string) (opts : list string) :
  Exclusive polls → Exclusive (storePoll pollId q opts polls).
Proof.
  intros Hex pid pd Hlook i o1 o2 H1 H2. unfold storePoll in Hlook.
  destruct (decide (pollId = pid)) as [->|Hne].
  - rewrite lookup_insert_eq in Hlook. injection Hlook as <-.
    unfold votersFor in H1. cbn [votes] in H1. rewrite lookup_empty in H1.
    now apply elem_of_nil in H1.
  - rewrite lookup_insert_ne in Hlook by assumption. eapply Hex; eassumption.
Qed.

Lemma Exclusive_onPollAnswer (polls : Registry) (pa : PollAnswer) :
  Exclusive polls →
  (∀ a b, a ∈ option_ids pa → b ∈ option_ids pa → a = b) →
  Exclusive (onPollAnswer polls (Some pa)).
Proof.
  intros Hex Hsingle.
  destruct (identityOf pa) as [i|] eqn:Hid;
    [|now rewrite onPollAnswer_anonymous].
  destruct (polls !! poll_id pa) as [pd|] eqn:Hpd;
    [|now rewrite onPollAnswer_untracked].
  rewrite (onPollAnswer_tracked polls pa pd i Hpd Hid).
  intros pid pd' Hlook j o1 o2 H1 H2.
  destruct (decide (poll_id pa = pid)) as [<-|Hne].
  - rewrite lookup_insert_eq in Hlook. injection Hlook as <-.
    apply votersFor_after_vote in H1, H2.
    destruct H1 as [[-> H1]|[Hj H1]], H2 as [[Hj2 H2]|[Hj2 H2]];
      try congruence.
    + now apply Hsingle.
    + eapply Hex; eassumption.
  - rewrite lookup_insert_ne in Hlook by assumption. eapply Hex; eassumption.
Qed.

Lemma Exclusive_handleEvent (polls : Registry) (ev : Event) :
  Exclusive polls → singleChoice ev → Exclusive (handleEvent polls ev).
Proof.
  intros Hex Hs. destruct ev as [pid q opts | [pa|]]; cbn [handleEvent].
  - now apply Exclusive_storePoll.
  - now apply Exclusive_onPollAnswer.
  - exact Hex.
Qed.

Lemma Exclusive_foldl (evs : list Event) :
  ∀ polls, Exclusive polls → Forall singleChoice evs →
           Exclusive (foldl handleEvent polls evs).
Proof.
  induction evs as [|ev evs IH]; intros polls Hex Hall; simpl; [exact Hex|].
  inversion Hall as [|? ? Hev Hrest]; subst.
  apply IH; [now apply Exclusive_handleEvent | exact Hrest].
Qed.

(** C1. Whatever polls are created and whatever votes arrive for them,
    no identity is in the sets of two options of one poll.  The votes are
    those the handler can receive: the registry holds only polls the poll
    command sent, which it sends without allows_multiple_answers, so a
    vote carries at most one option index ([singleChoice]); votes for
    other polls are ignored. *)
Theorem vote_exclusivity_single_choice (evs : list Event) :
  Forall singleChoice evs → Exclusive (registryAfter evs).
Proof.
  intros Hall. apply Exclusive_foldl; [|exact Hall].
  intros pid pd Hlook. now rewrite lookup_empty in Hlook.
Qed.

Lemma vote_exclusivity_single_choice_witness :
  Exclusive (registryAfter
               [PollCreated "p1" "Play on Sunday?" ["Yes"; "No"];
                PollAnswered (voteOf "x" [0]);
                PollAnswered (voteOf "x" [1])]).
Proof.
  apply vote_exclusivity_single_choice.
  repeat constructor; cbn [singleChoice voteOf option_ids]; intros a b Ha Hb;
    apply list_elem_of_singleton in Ha, Hb; congruence.
Defined.

(** Why the votes must be those of single-choice polls: a vote with two
    option indices, which Telegram sends only for a poll that allows
    multiple answers, would put the voter into both sets. *)
Lemma two_options_two_sets :
  ¬ Exclusive (registryAfter
                 [PollCreated "p1" "Play on Sunday?" ["Yes"; "No"];
                  PollAnswered (voteOf "x" [0; 1])]).
Proof.
  intros Hex.
  assert (Hlook : registryAfter
                    [PollCreated "p1" "Play on Sunday?" ["Yes"; "No"];
                     PollAnswered (voteOf "x" [0; 1])] !! "p1"
                  = Some (mkPollData "Play on Sunday?" ["Yes"; "No"]
                            (<[1 := ["@x"]]> (<[0 := ["@x"]]> ∅)))).
  { vm_compute. reflexivity. }
  specialize (Hex "p1" _ Hlook "@x" 0 1).
  assert (0 = 1) as Habs; [|discriminate Habs].
  apply Hex; unfold votersFor; cbn [votes].
  - rewrite lookup_insert_ne by discriminate. rewrite lookup_insert_eq.
    apply list_elem_of_singleton. reflexivity.
  - rewrite lookup_insert_eq. apply list_elem_of_singleton. reflexivity.
Qed.

End PollFacts.

(* ===================================================================== *)
(** ** Running the machine: proof tools *)
(* ===================================================================== *)

Module Run.
Import Js Host Constants Session Poll Machine Sheets BotHelpers Workflow.

(** Unfolds the monad's plumbing and reduces the projections of the
    machines that appear. *)
Ltac run :=
  repeat (progress (
    unfold bind, ret, tryCatch, reply, modify, getSession, getPolls, call, throw,
      replyErrorAndReset, handleApiError, initSheetsClient in *;
    cbn [session activePolls trace world fst snd] in *)).

End Run.

(* ===================================================================== *)
(** ** Column detection: theorems *)
(* ===================================================================== *)

Module DetectionFacts.
Import Js Host Constants Columns Session Poll Machine Sheets BotHelpers Workflow Run.

Section Detection.
Context `{JsNumber} `{!SheetsApi}.

(** Where the scan stops: at a blank value with no blank value before. *)
Lemma firstBlank_Some (values : list Cell) :
  ∀ k i, firstBlank values k = Some i →
    ∃ j v, i = (k + j)%nat ∧ values !! j = Some v ∧ isBlank v = true ∧
           ∀ j' v', (j' < j)%nat → values !! j' = Some v' → isBlank v' = false.
Proof.
  induction values as [|value rest IH]; intros k i Hfb; [discriminate|].
  cbn [firstBlank] in Hfb. destruct (isBlank value) eqn:Hb.
  - injection Hfb as <-. exists 0%nat, value. repeat split; [lia | assumption |].
    intros j' v' Hlt. lia.
  - destruct (IH _ _ Hfb) as (j & v & -> & Hj & Hv & Hbefore).
    exists (S j), v. repeat split; [lia | assumption | assumption |].
    intros [|j'] v' Hlt Hlook.
    + injection Hlook as <-. assumption.
    + apply (Hbefore j' v'); [lia | assumption].
Qed.

Lemma firstBlank_None (values : list Cell) :
  ∀ k, (∀ v, v ∈ values → isBlank v = false) → firstBlank values k = None.
Proof.
  induction values as [|value rest IH]; intros k Hall; [reflexivity|].
  cbn [firstBlank]. rewrite (Hall value) by apply list_elem_of_here.
  apply IH. intros v Hv. apply Hall. now apply list_elem_of_further.
Qed.

(** [findLastDateColumn] makes one request and decides on its first row. *)
Lemma findLastDateColumn_run (m : Machine) response w :
  api_get headerRange (world m) = (Ok response, w) →
  findLastDateColumn m
  = (Ok (lastDateColumnOf (firstRow response)),
     mkMachine (session m) (activePolls m)
       (trace m ++ [Called (CallGet headerRange)]) w).
Proof.
  intros Hget. unfold findLastDateColumn. run. rewrite Hget. reflexivity.
Qed.

(** When the scan stops after at least one value, the candidate is the
    column of the value just before the blank one, and that value is not
    blank. *)
Lemma lastDateColumnOf_before_blank (values : list Cell) (i : nat) :
  firstBlank values 0 = Some (S i) →
  ∃ v, values !! i = Some v ∧ isBlank v = false ∧
       lastDateColumnOf values
       = Some (mkColumnMatch
                 (indexToColumnLetter
                    (columnLetterToIndex SHEET_DATA_FIRST_COLUMN + Z.of_nat i))
                 (trim (jsString (Some v)))).
Proof.
  intros Hfb.
  destruct (firstBlank_Some _ _ _ Hfb) as (j & b & Hj & Hlook & Hb & Hbefore).
  cbn [Nat.add] in Hj. subst j.
  destruct (values !! i) as [v|] eqn:Hv.
  - exists v. split; [reflexivity|]. split; [apply (Hbefore i v); [lia|assumption]|].
    unfold lastDateColumnOf. rewrite Hfb. unfold at_index.
    replace (Z.of_nat (S i) - 1)%Z with (Z.of_nat i) by lia.
    destruct (Z.of_nat i <? 0)%Z eqn:E; [apply Z.ltb_lt in E; lia|].
    now rewrite Nat2Z.id, Hv.
  - apply lookup_ge_None in Hv. apply lookup_lt_Some in Hlook. lia.
Qed.

(** A header row that starts with a blank value: there is no value before
    it, and the candidate is the column before F with the text of
    [undefined]. *)
Lemma lastDateColumnOf_leading_blank (rest : list Cell) :
  lastDateColumnOf (CStr EmptyString :: rest) = Some (mkColumnMatch "E" "undefined").
Proof. reflexivity. Qed.

(** C2. The header values "Sep 7", "Sep 14", "" read from column F on
    give the candidate column G with the date "Sep 14", whatever follows
    the blank value: the column before the first blank, not the last
    occupied one.  This holds for the scan itself and for the client
    method that reads the row from the store.  In general, a scan that
    stops at a blank value after at least one other value returns the
    column and the trimmed text of the value just before it. *)
Theorem findLastDateColumn_example :
  (∀ rest,
     lastDateColumnOf (CStr "Sep 7" :: CStr "Sep 14" :: CStr "" :: rest)
     = Some (mkColumnMatch "G" "Sep 14")) ∧
  lastDateColumnOf [CStr "Sep 7"; CStr "Sep 14"; CStr ""; CStr "Sep 21"; CStr "Sep 28"]
  = Some (mkColumnMatch "G" "Sep 14") ∧
  (∀ (m : Machine) rest others w,
     api_get headerRange (world m)
     = (Ok (Some ((CStr "Sep 7" :: CStr "Sep 14" :: CStr "" :: rest) :: others)), w) →
     findLastDateColumn m
     = (Ok (Some (mkColumnMatch "G" "Sep 14")),
        mkMachine (session m) (activePolls m)
          (trace m ++ [Called (CallGet headerRange)]) w)) ∧
  (∀ (values : list Cell) (i : nat),
     firstBlank values 0 = Some (S i) →
     ∃ v, values !! i = Some v ∧ isBlank v = false ∧
          lastDateColumnOf values
          = Some (mkColumnMatch
                    (indexToColumnLetter
                       (columnLetterToIndex SHEET_DATA_FIRST_COLUMN + Z.of_nat i))
                    (trim (jsString (Some v))))).
Proof.
  assert (Hscan : ∀ rest,
    lastDateColumnOf (CStr "Sep 7" :: CStr "Sep 14" :: CStr "" :: rest)
    = Some (mkColumnMatch "G" "Sep 14")) by (intros rest; reflexivity).
  split; [exact Hscan|]. split; [apply Hscan|].
  split; [|apply lastDateColumnOf_before_blank].
  intros m rest others w Hget.
  rewrite (findLastDateColumn_run m _ w Hget). cbn [firstRow].
  now rewrite Hscan.
Qed.

(** C10. When no value of the scanned header row is blank the scan finds
    no candidate, however many date columns are filled; a candidate comes
    only from a blank value among the values returned.  The engine then
    says that no date columns were found, names the first data column F
    as the start, asks whether to create a new column, and waits in
    awaiting_new_column_choice with F as the target. *)
Theorem no_blank_no_candidate :
  (∀ values, (∀ v, v ∈ values → isBlank v = false) →
             lastDateColumnOf values = None) ∧
  (∀ values found, lastDateColumnOf values = Some found →
                   ∃ i v, values !! i = Some v ∧ isBlank v = true) ∧
  (∀ (m : Machine) response w1 w2,
     api_init (world m) = (Ok tt, w1) →
     api_get headerRange w1 = (Ok response, w2) →
     (∀ v, v ∈ firstRow response → isBlank v = false) →
     startColumnDetectionFlow m
     = (Ok tt,
        mkMachine
          (set_isNewColumn (Some true)
             (set_targetColumn (Some SHEET_DATA_FIRST_COLUMN)
                (set_state awaiting_new_column_choice (session m))))
          (activePolls m)
          (trace m ++
           [Reply "⏳ Detecting last date column...";
            Called CallInit;
            Called (CallGet headerRange);
            Reply ("❌ No date columns found. Starting from column F."
                   +:+ nl +:+ nl
                   +:+ "Would you like to create a new column? (yes/no)")])
          w2)).
Proof.
  split; [|split].
  - intros values Hall. unfold lastDateColumnOf.
    now rewrite firstBlank_None.
  - intros values found Hfound. unfold lastDateColumnOf in Hfound.
    destruct (firstBlank values 0) as [i|] eqn:Hfb; [|discriminate].
    destruct (firstBlank_Some _ _ _ Hfb) as (j & v & _ & Hj & Hv & _).
    now exists j, v.
  - intros m response w1 w2 Hinit Hget Hall.
    unfold startColumnDetectionFlow, findLastDateColumn. run.
    rewrite Hinit. run. rewrite Hget. run.
    unfold lastDateColumnOf. rewrite firstBlank_None by assumption.
    run. rewrite <- !app_assoc. reflexivity.
Qed.

End Detection.

Import Demo.

Lemma findLastDateColumn_example_witness :
  findLastDateColumn
    (start idle [Values (Some [[CStr "Sep 7"; CStr "Sep 14"; CStr ""; CStr "Oct 5"]])])
  = (Ok (Some (mkColumnMatch "G" "Sep 14")),
     mkMachine (set_state idle initialSession) ∅ [Called (CallGet headerRange)] []).
Proof.
  apply (proj1 (proj2 (proj2 findLastDateColumn_example))
           (start idle [Values (Some [[CStr "Sep 7"; CStr "Sep 14"; CStr ""; CStr "Oct 5"]])])
           [CStr "Oct 5"] [] []).
  reflexivity.
Defined.

(** Two filled date columns and no blank value after them: the engine
    finds no date column and offers column F. *)
Lemma no_blank_no_candidate_witness :
  let m := start idle [Done; Values (Some [[CStr "Sep 7"; CStr "Sep 14"]])] in
  lastDateColumnOf [CStr "Sep 7"; CStr "Sep 14"] = None ∧
  targetColumn (session (snd (startColumnDetectionFlow m))) = Some "F" ∧
  state (session (snd (startColumnDetectionFlow m))) = awaiting_new_column_choice.
Proof.
  assert (Hall : ∀ v : Cell, v ∈ [CStr "Sep 7"; CStr "Sep 14"] → isBlank v = false).
  { intros v Hv. apply elem_of_cons in Hv as [->|Hv]; [reflexivity|].
    apply list_elem_of_singleton in Hv as ->. reflexivity. }
  intros m. split; [|split].
  - apply (proj1 no_blank_no_candidate). exact Hall.
  - rewrite (proj2 (proj2 no_blank_no_candidate) m
               (Some [[CStr "Sep 7"; CStr "Sep 14"]]) [Values (Some [[CStr "Sep 7"; CStr "Sep 14"]])] []
               eq_refl eq_refl Hall).
    reflexivity.
  - rewrite (proj2 (proj2 no_blank_no_candidate) m
               (Some [[CStr "Sep 7"; CStr "Sep 14"]]) [Values (Some [[CStr "Sep 7"; CStr "Sep 14"]])] []
               eq_refl eq_refl Hall).
    reflexivity.
Defined.

End DetectionFacts.

(* ===================================================================== *)
(** ** Identity matching: theorems *)
(* ===================================================================== *)

Module MatchingFacts.
Import Js Host Constants Columns Session Poll Machine Sheets BotHelpers Run.

Lemma elem_of_mapSet {V} (k : string) (v : V) (m : list (string * V)) (e : string * V) :
  e ∈ mapSet k v m → e = (k, v) ∨ e ∈ m.
Proof.
  induction m as [|[k' v'] rest IH]; cbn [mapSet]; intros He.
  - apply list_elem_of_singleton in He. now left.
  - destruct (String.eqb k' k) eqn:E.
    + apply String.eqb_eq in E as ->.
      apply elem_of_cons in He as [->|He]; [now left|].
      right. now apply list_elem_of_further.
    + apply elem_of_cons in He as [->|He].
      * right. apply list_elem_of_here.
      * destruct (IH He) as [->|Hin]; [now left|].
        right. now apply list_elem_of_further.
Qed.

Lemma mapGet_Some {V} (k : string) (m : list (string * V)) (v : V) :
  mapGet k m = Some v → (k, v) ∈ m.
Proof.
  induction m as [|[k' v'] rest IH]; cbn [mapGet]; [discriminate|].
  destruct (String.eqb k' k) eqn:E.
  - apply String.eqb_eq in E as ->. intros [= ->]. apply list_elem_of_here.
  - intros Hget. apply list_elem_of_further. now apply IH.
Qed.

(** Every entry of [normalizedNicknames] pairs a name of the caller with
    its normal form. *)
Lemma normalizedNicknames_sound (nicknames : list string) (n o : string) :
  (n, o) ∈ normalizedNicknames nicknames →
  o ∈ nicknames ∧ normalizeNickname o = n.
Proof.
  unfold normalizedNicknames.
  assert (Hgen : ∀ (l : list string) (acc : list (string * string)),
    (∀ n o, (n, o) ∈ acc → o ∈ nicknames ∧ normalizeNickname o = n) →
    (∀ x, x ∈ l → x ∈ nicknames) →
    ∀ n o, (n, o) ∈ foldl (λ m nick, mapSet (normalizeNickname nick) nick m) acc l →
           o ∈ nicknames ∧ normalizeNickname o = n).
  { induction l as [|nick l IH]; intros acc Hacc Hl n' o' Hin; cbn [foldl] in Hin.
    - now apply Hacc.
    - eapply IH; [| |exact Hin].
      + intros n'' o'' Hin'. apply elem_of_mapSet in Hin' as [[= -> ->]|Hin'].
        * split; [apply Hl, list_elem_of_here | reflexivity].
        * now apply Hacc.
      + intros x Hx. apply Hl. now apply list_elem_of_further. }
  apply Hgen.
  - intros n' o' Hin. now apply elem_of_nil in Hin.
  - auto.
Qed.

Section Matching.
Context `{JsNumber} `{!SheetsApi}.

(** [findNicknameRows] makes one request and matches against its rows. *)
Lemma findNicknameRows_run (nicknames : list string) (m : Machine) values w :
  api_get nicknameRange (world m) = (Ok values, w) →
  findNicknameRows nicknames m
  = (Ok (nicknameRowsOf nicknames (default [] values)),
     mkMachine (session m) (activePolls m)
       (trace m ++ [Called (CallGet nicknameRange)]) w).
Proof.
  intros Hget. unfold findNicknameRows. run. rewrite Hget. reflexivity.
Qed.

(** Every entry of the result names a caller's nickname and a row whose
    cell equals it after both are normalized. *)
Lemma matchRows_sound (nicknames : list string) (rows : list (list Cell)) :
  ∀ (base : nat) (acc : list (string * nat)) (P : string → nat → Prop),
    (∀ i k, (∃ row, rows !! i = Some row ∧ jsTruthy (row !! 0%nat) = true ∧
                    normalizeNickname (jsString (row !! 0%nat)) = normalizeNickname k) →
            k ∈ nicknames → P k (SHEET_DATA_FIRST_ROW + (base + i))%nat) →
    (∀ k r, (k, r) ∈ acc → P k r) →
    ∀ k r, (k, r) ∈ matchRows (normalizedNicknames nicknames) rows base acc → P k r.
Proof.
  induction rows as [|row rest IH]; intros base acc P Hrows Hacc k r Hin.
  - now apply Hacc.
  - cbn [matchRows] in Hin. eapply (IH (S base)); [| |exact Hin].
    + intros i k' (row' & Hlook & Ht & Hn) Hk'.
      replace (S base + i)%nat with (base + S i)%nat by lia.
      apply Hrows; [|assumption]. exists row'. now split.
    + intros k' r' Hin'. unfold matchRow in Hin'.
      destruct (jsTruthy (row !! 0%nat)) eqn:Ht; [|now apply Hacc].
      destruct (mapGet _ _) as [orig|] eqn:Hget; [|now apply Hacc].
      destruct (truthy (Some orig)); [|now apply Hacc].
      apply elem_of_mapSet in Hin' as [[= -> ->]|Hin']; [|now apply Hacc].
      apply mapGet_Some, normalizedNicknames_sound in Hget as [Horig Hnorm].
      replace base with (base + 0)%nat at 1 by lia.
      apply Hrows; [|assumption]. exists row. now split.
Qed.

(** One step of the scan when the caller gave a single nickname. *)
Lemma matchRow_single (a : string) (acc : list (string * nat))
    (row : list Cell) (index : nat) :
  truthy (Some a) = true →
  matchRow (normalizedNicknames [a]) acc row index
  = if jsTruthy (row !! 0%nat)
       && String.eqb (normalizeNickname a) (normalizeNickname (jsString (row !! 0%nat)))
    then mapSet a (SHEET_DATA_FIRST_ROW + index)%nat acc
    else acc.
Proof.
  intros Ha. unfold matchRow, normalizedNicknames. cbn [foldl mapSet mapGet].
  destruct (jsTruthy _); [|reflexivity]. cbn [andb].
  destruct (String.eqb _ _); [|reflexivity]. now rewrite Ha.
Qed.

(** For one nickname, the result under another spelling with the same
    normal form is the same rows under the other key. *)
Lemma matchRows_rekey (a b : string) (rows : list (list Cell)) :
  normalizeNickname a = normalizeNickname b →
  truthy (Some a) = true → truthy (Some b) = true →
  ∀ (base : nat) (acc : list (string * nat)),
    (∀ e, e ∈ acc → fst e = b) →
    matchRows (normalizedNicknames [a]) rows base (rekey a acc)
    = rekey a (matchRows (normalizedNicknames [b]) rows base acc).
Proof.
  intros Hnorm Ha Hb.
  assert (Hset : ∀ (r : nat) (acc : list (string * nat)),
    (∀ e, e ∈ acc → fst e = b) →
    mapSet a r (rekey a acc) = rekey a (mapSet b r acc) ∧
    (∀ e, e ∈ mapSet b r acc → fst e = b)).
  { intros r acc Hacc. split.
    - destruct acc as [|[k v] rest]; [reflexivity|].
      assert (k = b) as -> by (apply (Hacc (k, v)), list_elem_of_here).
      cbn [rekey map mapSet snd]. now rewrite !String.eqb_refl.
    - intros e He. apply elem_of_mapSet in He as [->|He]; [reflexivity|auto]. }
  induction rows as [|row rest IH]; intros base acc Hacc; [reflexivity|].
  cbn [matchRows]. rewrite !matchRow_single by assumption. rewrite <- Hnorm.
  destruct (_ && _); [|now apply IH].
  destruct (Hset (SHEET_DATA_FIRST_ROW + base)%nat acc Hacc) as [-> Hkeys].
  now apply IH.
Qed.

(** Once a row matched, the single nickname stays matched. *)
Lemma matchRows_single_found (a : string) (rows : list (list Cell)) :
  truthy (Some a) = true →
  ∀ (base : nat) (acc : list (string * nat)),
    (acc = [] ∨ ∃ r, acc = [(a, r)]) →
    (acc ≠ [] ∨ ∃ i, rowMatches rows i a) →
    ∃ r, matchRows (normalizedNicknames [a]) rows base acc = [(a, r)].
Proof.
  intros Ha.
  assert (Hset : ∀ (r : nat) (acc : list (string * nat)),
    (acc = [] ∨ ∃ r', acc = [(a, r')]) → mapSet a r acc = [(a, r)]).
  { intros r acc [->|[r' ->]]; cbn [mapSet]; [|rewrite String.eqb_refl]; reflexivity. }
  induction rows as [|row rest IH]; intros base acc Hshape Hfound.
  - cbn [matchRows]. destruct Hshape as [->|[r ->]]; [|now exists r].
    destruct Hfound as [Hne|[i (row & Hlook & _)]]; [congruence|].
    now rewrite lookup_nil in Hlook.
  - cbn [matchRows]. rewrite matchRow_single by assumption. apply IH.
    + destruct (_ && _); [|assumption]. right. rewrite Hset by assumption. eauto.
    + destruct Hfound as [Hne|[[|i] (row' & Hlook & Ht & Hn)]].
      * left. destruct (_ && _); [|assumption].
        rewrite Hset by assumption. discriminate.
      * left. injection Hlook as <-.
        rewrite Ht, Hn, String.eqb_refl. cbn [andb].
        rewrite Hset by assumption. discriminate.
      * right. exists i, row'. now split.
Qed.

(** C8. Matching "@User1" and matching "user1" give the same rows, each
    under the spelling the caller used; with a cell "@USER1" in the lookup
    range both find that row.  The same holds for any two spellings of one
    identity that agree once the leading marker is dropped and the letters
    are lowered.  And whatever the caller passes, an identity is matched
    to a row only if the row's cell, normalized, equals the identity,
    normalized.  The client method is this matching applied to the rows
    the store returns for column B from row 7 on. *)
Theorem identity_matching_normalized :
  (∀ rows : list (list Cell),
     nicknameRowsOf ["@User1"] rows = rekey "@User1" (nicknameRowsOf ["user1"] rows)) ∧
  (∀ (rows : list (list Cell)) i rest,
     rows !! i = Some (CStr "@USER1" :: rest) →
     ∃ r, nicknameRowsOf ["@User1"] rows = [("@User1", r)] ∧
          nicknameRowsOf ["user1"] rows = [("user1", r)]) ∧
  (∀ (a b : string) (rows : list (list Cell)),
     normalizeNickname a = normalizeNickname b →
     truthy (Some a) = true → truthy (Some b) = true →
     nicknameRowsOf [a] rows = rekey a (nicknameRowsOf [b] rows)) ∧
  (∀ (nicknames : list string) (rows : list (list Cell)) k r,
     (k, r) ∈ nicknameRowsOf nicknames rows →
     k ∈ nicknames ∧
     ∃ i, r = (SHEET_DATA_FIRST_ROW + i)%nat ∧ rowMatches rows i k) ∧
  (∀ (nicknames : list string) (m : Machine) values w,
     api_get nicknameRange (world m) = (Ok values, w) →
     findNicknameRows nicknames m
     = (Ok (nicknameRowsOf nicknames (default [] values)),
        mkMachine (session m) (activePolls m)
          (trace m ++ [Called (CallGet nicknameRange)]) w)).
Proof.
  assert (Hany : ∀ (a b : string) (rows : list (list Cell)),
    normalizeNickname a = normalizeNickname b →
    truthy (Some a) = true → truthy (Some b) = true →
    nicknameRowsOf [a] rows = rekey a (nicknameRowsOf [b] rows)).
  { intros a b rows Hn Ha Hb. unfold nicknameRowsOf.
    change (@nil (string * nat)) with (rekey a []) at 1.
    apply matchRows_rekey; try assumption.
    intros e He. now apply elem_of_nil in He. }
  split; [|split; [|split; [|split]]]; [| | | |apply findNicknameRows_run].
  - intros rows. now apply Hany.
  - intros rows i rest Hlook.
    assert (Hm : ∀ k, normalizeNickname k = "user1" → rowMatches rows i k).
    { intros k Hk. exists (CStr "@USER1" :: rest). split; [assumption|].
      split; [reflexivity|]. now rewrite Hk. }
    destruct (matchRows_single_found "@User1" rows eq_refl 0 [])
      as [r Hr]; [now left | right; exists i; now apply Hm |].
    destruct (matchRows_single_found "user1" rows eq_refl 0 [])
      as [r' Hr']; [now left | right; exists i; now apply Hm |].
    exists r. split; [exact Hr|].
    pose proof (Hany "@User1" "user1" rows eq_refl eq_refl eq_refl) as Heq.
    unfold nicknameRowsOf in *. rewrite Hr, Hr' in Heq.
    injection Heq as ->. exact Hr'.
  - exact Hany.
  - intros nicknames rows k r Hin. unfold nicknameRowsOf in Hin.
    apply (matchRows_sound nicknames rows 0 []
             (λ k r, k ∈ nicknames ∧
                     ∃ i, r = (SHEET_DATA_FIRST_ROW + i)%nat ∧ rowMatches rows i k));
      [| |exact Hin].
    + intros i k' Hrow Hk'. split; [assumption|]. exists i. split; [reflexivity|].
      exact Hrow.
    + intros k' r' Hin'. now apply elem_of_nil in Hin'.
Qed.

End Matching.

Import Demo.

Lemma identity_matching_normalized_witness :
  nicknameRowsOf ["@User1"] [[CStr "@other"]; [CStr "@USER1"]] = [("@User1", 8%nat)] ∧
  nicknameRowsOf ["user1"] [[CStr "@other"]; [CStr "@USER1"]] = [("user1", 8%nat)].
Proof.
  destruct (proj1 (proj2 identity_matching_normalized)
              [[CStr "@other"]; [CStr "@USER1"]] 1%nat [] eq_refl) as (r & H1 & H2).
  assert (r = 8%nat) as ->.
  { assert (Hc : nicknameRowsOf ["@User1"] [[CStr "@other"]; [CStr "@USER1"]]
                 = [("@User1", 8%nat)]) by reflexivity.
    rewrite Hc in H1. now injection H1. }
  split; assumption.
Defined.

End MatchingFacts.

(* ===================================================================== *)
(** ** The dispatcher: which handler takes a message *)
(* ===================================================================== *)

Module DispatchFacts.
Import Js Host Constants Columns Session Poll Machine Sheets BotHelpers Workflow.
Import PollHandlers SheetHandlers ColumnHandlersCommon Bot Run.

Section Dispatch.
Context `{JsNumber} `{!SheetsApi}.

(** A handler that is not in its state returns false and touches nothing. *)
Ltac skip_handler :=
  intros; run;
  match goal with
  | Hne : state (session ?m) ≠ _ |- _ =>
      destruct (state (session m)); try reflexivity; congruence
  end.

Lemma handlePollIntent_skip text (m : Machine) :
  state (session m) ≠ awaiting_poll_intent → handlePollIntent text m = (Ok false, m).
Proof. unfold handlePollIntent. skip_handler. Qed.

Lemma handlePollOptionSelection_skip text (m : Machine) :
  state (session m) ≠ awaiting_poll_option_selection →
  handlePollOptionSelection text m = (Ok false, m).
Proof. unfold handlePollOptionSelection. skip_handler. Qed.

Lemma handleColumnConfirmationA_skip text (m : Machine) :
  state (session m) ≠ awaiting_column_confirmation →
  ColumnHandlersA.handleColumnConfirmation text m = (Ok false, m).
Proof. unfold ColumnHandlersA.handleColumnConfirmation. skip_handler. Qed.

Lemma handleColumnConfirmationB_skip text (m : Machine) :
  state (session m) ≠ awaiting_column_confirmation →
  ColumnHandlersB.handleColumnConfirmation text m = (Ok false, m).
Proof. unfold ColumnHandlersB.handleColumnConfirmation. skip_handler. Qed.

Lemma handleNewColumnChoiceA_skip text (m : Machine) :
  state (session m) ≠ awaiting_new_column_choice →
  ColumnHandlersA.handleNewColumnChoice text m = (Ok false, m).
Proof. unfold ColumnHandlersA.handleNewColumnChoice. skip_handler. Qed.

Lemma handleNewColumnChoiceB_skip text (m : Machine) :
  state (session m) ≠ awaiting_new_column_choice →
  ColumnHandlersB.handleNewColumnChoice text m = (Ok false, m).
Proof. unfold ColumnHandlersB.handleNewColumnChoice. skip_handler. Qed.

Lemma handleDateName_skip text (m : Machine) :
  state (session m) ≠ awaiting_date_name →
  ColumnHandlersCommon.handleDateName text m = (Ok false, m).
Proof. unfold ColumnHandlersCommon.handleDateName. skip_handler. Qed.

Lemma handleCost_skip text (m : Machine) :
  state (session m) ≠ awaiting_cost →
  ColumnHandlersCommon.handleCost text m = (Ok false, m).
Proof. unfold ColumnHandlersCommon.handleCost. skip_handler. Qed.

Lemma handleUsernames_skip text (m : Machine) :
  state (session m) ≠ awaiting_usernames → handleUsernames text m = (Ok false, m).
Proof. unfold handleUsernames. skip_handler. Qed.

Lemma handlePlayerCountConfirmation_skip text (m : Machine) :
  state (session m) ≠ awaiting_player_count_confirmation →
  handlePlayerCountConfirmation text m = (Ok false, m).
Proof. unfold handlePlayerCountConfirmation. skip_handler. Qed.

Lemma handlePlayerCount_skip text (m : Machine) :
  state (session m) ≠ awaiting_player_count →
  handlePlayerCount text m = (Ok false, m).
Proof. unfold handlePlayerCount. skip_handler. Qed.

Lemma handleOverrideConfirmation_skip text (m : Machine) :
  state (session m) ≠ awaiting_override_confirmation →
  handleOverrideConfirmation text m = (Ok false, m).
Proof. unfold handleOverrideConfirmation. skip_handler. Qed.

Lemma orElse_skip (handler : M bool) (rest : M unit) (m : Machine) :
  handler m = (Ok false, m) → orElse handler rest m = rest m.
Proof. intros Hh. unfold orElse, bind. now rewrite Hh. Qed.

Lemma orElse_hit (handler : M bool) (rest : M unit) (m m' : Machine) :
  handler m = (Ok true, m') → orElse handler rest m = (Ok tt, m').
Proof. intros Hh. unfold orElse, bind. now rewrite Hh. Qed.

End Dispatch.

(** Passes the handlers that are out of state. *)
Ltac pass_handlers Hst :=
  repeat (rewrite orElse_skip by
    (first [ apply handlePollIntent_skip
           | apply handlePollOptionSelection_skip
           | apply handleColumnConfirmationA_skip
           | apply handleColumnConfirmationB_skip
           | apply handleNewColumnChoiceA_skip
           | apply handleNewColumnChoiceB_skip
           | apply handleDateName_skip
           | apply handleCost_skip
           | apply handleUsernames_skip
           | apply handlePlayerCountConfirmation_skip
           | apply handlePlayerCount_skip
           | apply handleOverrideConfirmation_skip ];
     rewrite Hst; discriminate)).

End DispatchFacts.

(* ===================================================================== *)
(** ** Answers that are neither yes nor no *)
(* ===================================================================== *)

Module FrameFacts.
Import Js Host Constants Columns Session Poll Machine Sheets BotHelpers Workflow.
Import PollHandlers SheetHandlers ColumnHandlersCommon Bot Run DispatchFacts.

Section Frame.
Context `{JsNumber} `{!SheetsApi}.

Ltac reprompt_handler Hst Hparse :=
  run; rewrite Hst; cbn iota; rewrite Hparse; reflexivity.

Lemma handleColumnConfirmationA_reprompt text (m : Machine) :
  state (session m) = awaiting_column_confirmation → parseYesNo text = None →
  ColumnHandlersA.handleColumnConfirmation text m = (Ok true, reprompted m).
Proof.
  intros Hst Hparse. unfold ColumnHandlersA.handleColumnConfirmation.
  reprompt_handler Hst Hparse.
Qed.

Lemma handleNewColumnChoiceA_reprompt text (m : Machine) :
  state (session m) = awaiting_new_column_choice → parseYesNo text = None →
  ColumnHandlersA.handleNewColumnChoice text m = (Ok true, reprompted m).
Proof.
  intros Hst Hparse. unfold ColumnHandlersA.handleNewColumnChoice.
  reprompt_handler Hst Hparse.
Qed.

Lemma handleNewColumnChoiceB_reprompt text (m : Machine) :
  state (session m) = awaiting_new_column_choice → parseYesNo text = None →
  ColumnHandlersB.handleNewColumnChoice text m = (Ok true, reprompted m).
Proof.
  intros Hst Hparse. unfold ColumnHandlersB.handleNewColumnChoice.
  reprompt_handler Hst Hparse.
Qed.

Lemma handlePlayerCountConfirmation_reprompt text (m : Machine) :
  state (session m) = awaiting_player_count_confirmation → parseYesNo text = None →
  handlePlayerCountConfirmation text m = (Ok true, reprompted m).
Proof.
  intros Hst Hparse. unfold handlePlayerCountConfirmation.
  reprompt_handler Hst Hparse.
Qed.

Lemma handleOverrideConfirmation_reprompt text (m : Machine) :
  state (session m) = awaiting_override_confirmation → parseYesNo text = None →
  handleOverrideConfirmation text m = (Ok true, reprompted m).
Proof.
  intros Hst Hparse. unfold handleOverrideConfirmation.
  reprompt_handler Hst Hparse.
Qed.

(** C7. In a state whose handler takes yes or no and nothing else, a
    message that is neither (as the dispatcher passes it on: trimmed and
    in lower case) is answered by the one reply that asks for yes or no;
    the session with all its fields, the poll registry and the store are
    as before, and no request went to the store.  With the handlers B the
    column question is not such a state: there a column letter or a date
    text is an answer too. *)
Theorem unparseable_answer_only_reprompts (m : Machine) (messageText : string) :
  parseYesNo (toLowerCase (trim messageText)) = None →
  (expectsYesNoA (state (session m)) = true →
   onText columnHandlersA messageText m = (Ok tt, reprompted m)) ∧
  (expectsYesNoB (state (session m)) = true →
   onText columnHandlersB messageText m = (Ok tt, reprompted m)).
Proof.
  intros Hparse. split; intros Hst; unfold onText;
    cbn [handleColumnConfirmation handleNewColumnChoice handleDateName handleCost
         columnHandlersA columnHandlersB];
    destruct (state (session m)) eqn:Est; try discriminate Hst; clear Hst;
    pass_handlers Est; apply orElse_hit.
  - now apply handleColumnConfirmationA_reprompt.
  - now apply handleNewColumnChoiceA_reprompt.
  - now apply handlePlayerCountConfirmation_reprompt.
  - now apply handleOverrideConfirmation_reprompt.
  - now apply handleNewColumnChoiceB_reprompt.
  - now apply handlePlayerCountConfirmation_reprompt.
  - now apply handleOverrideConfirmation_reprompt.
Qed.

End Frame.

Import Demo.

(** Asked whether to overwrite, the operator answers "maybe": the names
    and rows collected so far stay. *)
Lemma unparseable_answer_only_reprompts_witness :
  let s := set_nicknameRowsEntries (Some [("@a", 7%nat)])
             (set_targetColumn (Some "G")
                (set_usernames ["@a"]
                   (set_state awaiting_override_confirmation initialSession))) in
  onText columnHandlersA "Maybe" (startWith s [])
  = (Ok tt, mkMachine s ∅ [Reply ERR_INVALID_YES_NO] []).
Proof.
  intros s.
  apply (proj1 (unparseable_answer_only_reprompts (startWith s []) "Maybe" eq_refl)).
  reflexivity.
Defined.

End FrameFacts.

(* ===================================================================== *)
(** ** The column question: a column letter as the answer *)
(* ===================================================================== *)

Module ColumnChoiceFacts.
Import Js Host Constants Columns Session Poll Machine Sheets BotHelpers Workflow.
Import PollHandlers SheetHandlers ColumnHandlersCommon ColumnHandlersB Bot Run DispatchFacts.

(** Every byte, for the facts about tokens that are settled by trying
    all of them. *)
Definition allBytes : list ascii := map ascii_of_nat (seq 0 256).

Lemma allBytes_complete (a : ascii) : In a allBytes.
Proof.
  unfold allBytes. rewrite <- (ascii_nat_embedding a).
  apply in_map, in_seq. pose proof (nat_ascii_bounded a). lia.
Qed.

(** A token is left alone by [trim], [parseYesNo] reads it as an answer
    exactly when it is y, n or no, and lowering its letters (which the
    dispatcher does before the handler sees it) gives a token with the
    same capitals that is an answer exactly when it was one. *)
Definition tokenAsExpected (t : string) : bool :=
  String.eqb (trim t) t
  && match parseYesNo t with
     | None => negb (readAsAnswer t)
     | Some _ => readAsAnswer t
     end
  && isColumnLetterToken (toLowerCase t)
  && Bool.eqb (readAsAnswer (toLowerCase t)) (readAsAnswer t)
  && String.eqb (toUpperCase (toLowerCase t)) (toUpperCase t).

Lemma tokens_as_expected :
  forallb (λ a,
    if isLetter a then
      tokenAsExpected (String a EmptyString)
      && forallb (λ b,
           if isLetter b then tokenAsExpected (String a (String b EmptyString)) else true)
         allBytes
    else true) allBytes = true.
Proof. vm_compute. reflexivity. Qed.

Lemma token_as_expected (t : string) :
  isColumnLetterToken t = true → tokenAsExpected t = true.
Proof.
  intros Ht. pose proof tokens_as_expected as Hall.
  rewrite forallb_forall in Hall.
  destruct t as [|a [|b [|c rest]]]; cbn [isColumnLetterToken] in Ht; try discriminate.
  - specialize (Hall a (allBytes_complete a)). rewrite Ht in Hall.
    now apply andb_true_iff in Hall as [Hall _].
  - apply andb_true_iff in Ht as [Ha Hb].
    specialize (Hall a (allBytes_complete a)). rewrite Ha in Hall.
    apply andb_true_iff in Hall as [_ Hall].
    rewrite forallb_forall in Hall.
    specialize (Hall b (allBytes_complete b)). now rewrite Hb in Hall.
Qed.

Lemma token_facts (t : string) :
  isColumnLetterToken t = true →
  trim t = t ∧
  (readAsAnswer t = false → parseYesNo t = None) ∧
  isColumnLetterToken (toLowerCase t) = true ∧
  readAsAnswer (toLowerCase t) = readAsAnswer t ∧
  toUpperCase (toLowerCase t) = toUpperCase t.
Proof.
  intros Ht. pose proof (token_as_expected t Ht) as He.
  unfold tokenAsExpected in He.
  repeat (apply andb_true_iff in He as [He ?]).
  repeat split.
  - now apply String.eqb_eq.
  - intros Hr. destruct (parseYesNo t); [congruence | reflexivity].
  - assumption.
  - now apply Bool.eqb_prop.
  - now apply String.eqb_eq.
Qed.

Section ColumnChoice.
Context `{JsNumber} `{!SheetsApi}.

(** C5, as the code has it.  In awaiting_column_confirmation a message
    whose trimmed text is a column-letter token (one or two letters) other
    than y, n and no is adopted as the target column in capitals, marked
    as an existing column, and the metadata phase runs at once: no reply
    and no request comes before it.  This holds for the handler on any
    text and for the dispatcher on any message.  The tokens y, n and no
    are answers to the yes/no question, which the handler checks first. *)
Theorem column_letter_adopted_unless_answer :
  (∀ (m : Machine) (text : string),
     state (session m) = awaiting_column_confirmation →
     isColumnLetterToken (trim text) = true →
     readAsAnswer (trim text) = false →
     ColumnHandlersB.handleColumnConfirmation text m
     = bind proceedWithMetadataCollection (λ _, ret true)
         (adoptColumn (toUpperCase (trim text)) m)) ∧
  (∀ (m : Machine) (messageText : string),
     state (session m) = awaiting_column_confirmation →
     isColumnLetterToken (trim messageText) = true →
     readAsAnswer (trim messageText) = false →
     onText columnHandlersB messageText m
     = bind proceedWithMetadataCollection (λ _, ret tt)
         (adoptColumn (toUpperCase (trim messageText)) m)).
Proof.
  assert (Hhandler : ∀ (m : Machine) (text : string),
     state (session m) = awaiting_column_confirmation →
     isColumnLetterToken (trim text) = true →
     readAsAnswer (trim text) = false →
     ColumnHandlersB.handleColumnConfirmation text m
     = bind proceedWithMetadataCollection (λ _, ret true)
         (adoptColumn (toUpperCase (trim text)) m)).
  { intros m text Hst Ht Hr. unfold ColumnHandlersB.handleColumnConfirmation.
    unfold bind at 1. unfold getSession at 1. rewrite Hst. cbn iota.
    destruct (token_facts _ Ht) as (_ & Hparse & _).
    rewrite (Hparse Hr), Ht. unfold adoptColumn. reflexivity. }
  split; [exact Hhandler|].
  intros m messageText Hst Ht Hr.
  destruct (token_facts _ Ht) as (_ & _ & Hlow & Hans & Hup).
  destruct (token_facts _ Hlow) as (Htrim & _).
  unfold onText.
  cbn [handleColumnConfirmation handleNewColumnChoice handleDateName handleCost
       columnHandlersB].
  pass_handlers Hst.
  unfold orElse at 1. unfold bind at 1.
  rewrite Hhandler; rewrite ?Htrim; [|assumption|assumption|congruence].
  rewrite Hup. unfold bind.
  destruct (proceedWithMetadataCollection _) as [[[]|e] m']; reflexivity.
Qed.

End ColumnChoice.

Import Demo.

Lemma column_letter_adopted_unless_answer_witness :
  let m := startWith
             (set_targetColumn (Some "G")
                (set_state awaiting_column_confirmation initialSession))
             [Done; Values (Some [[CStr "Sep 14"]; [CStr "50"]])] in
  targetColumn (session (snd (ColumnHandlersB.handleColumnConfirmation " ab " m)))
  = Some "AB" ∧
  state (session (snd (ColumnHandlersB.handleColumnConfirmation " ab " m)))
  = awaiting_usernames.
Proof.
  intros m.
  rewrite (proj1 column_letter_adopted_unless_answer m " ab " eq_refl eq_refl eq_refl).
  split; reflexivity.
Defined.

(** C5 as stated fails.  N is a column-letter token, but in
    awaiting_column_confirmation with column G detected the message "n"
    is the answer no: the target becomes the next column H, to be created,
    and the engine asks for its date name; column N is not adopted and the
    metadata phase does not run. *)
Lemma column_letter_adoption_counterexample :
  let m := startWith
             (set_targetColumn (Some "G")
                (set_state awaiting_column_confirmation initialSession)) [] in
  isColumnLetterToken (trim "n") = true ∧
  state (session m) = awaiting_column_confirmation ∧
  ColumnHandlersB.handleColumnConfirmation "n" m
  = (Ok true,
     mkMachine
       (set_state awaiting_date_name
          (set_isNewColumn (Some true) (set_targetColumn (Some "H") (session m))))
       ∅ [Reply "📅 Please provide the date name for column H (row 1):"] []) ∧
  ColumnHandlersB.handleColumnConfirmation "n" m
  ≠ bind proceedWithMetadataCollection (λ _, ret true)
      (adoptColumn (toUpperCase (trim "n")) m).
Proof.
  intros m. split; [reflexivity|]. split; [reflexivity|]. split; [reflexivity|].
  intros Heq.
  apply (f_equal (λ r, targetColumn (session (snd r)))) in Heq.
  vm_compute in Heq. discriminate Heq.
Qed.

End ColumnChoiceFacts.

(* ===================================================================== *)
(** ** The override gate *)
(* ===================================================================== *)

Module OverrideFacts.
Import Js Host Constants Columns Session Poll Machine Sheets BotHelpers Workflow.
Import PollHandlers SheetHandlers ColumnHandlersCommon Bot Run DispatchFacts.
Local Open Scope list_scope.

Section Override.
Context `{JsNumber} `{!SheetsApi}.

(** The final write resets the session when it returns. *)
Lemma writeZerosAndRespond_resets (m : Machine) rows column overrideExisting skipped :
  match writeZerosAndRespond rows column overrideExisting skipped m with
  | (Ok _, m') => session m' = initialSession
  | (Throw _, _) => True
  end.
Proof.
  unfold writeZerosAndRespond. run.
  destruct (api_init (world m)) as [[[]|e] w]; [|exact I].
  destruct (writeZeros rows column overrideExisting _) as [[result|e] m1]; [|exact I].
  reflexivity.
Qed.

(** With [overrideExisting = true] every matched row gets its zero, in one
    request. *)
Lemma writeZeros_override (rows : list (string * nat)) (column : string) :
  rows ≠ [] →
  writeZeros rows column true
  = bind (call (CallBatchUpdate
                  (map (λ e, mkUpdate (cellRange column (snd e)) [[CNum (numOfZ 0)]]) rows))
               (api_batchUpdate
                  (map (λ e, mkUpdate (cellRange column (snd e)) [[CNum (numOfZ 0)]]) rows)))
         (λ _, ret (mkWriteResult (length rows) [])).
Proof. intros Hne. destruct rows; [congruence | reflexivity]. Qed.

(** The answer to the override question ends the cycle. *)
Lemma handleOverrideConfirmation_ends (m : Machine) (text : string) :
  state (session m) = awaiting_override_confirmation →
  parseYesNo text ≠ None →
  ∃ m', handleOverrideConfirmation text m = (Ok true, m') ∧
        session m' = initialSession.
Proof.
  intros Hst Hparse. unfold handleOverrideConfirmation.
  unfold bind at 1. unfold getSession at 1. rewrite Hst. cbn iota.
  destruct (parseYesNo text) as [answer|]; [clear Hparse|congruence].
  set (columnToUse := if truthy (column (session m)) then _ else _).
  destruct columnToUse as [c|]; [|run; eauto].
  destruct (nicknameRowsEntries (session m)) as [entries|]; [|run; eauto].
  destruct (truthy (Some c)); [|run; eauto].
  unfold bind at 1. unfold tryCatch.
  match goal with
  | |- context [writeZerosAndRespond ?r ?c ?o ?k m] =>
      pose proof (writeZerosAndRespond_resets m r c o k) as Hw;
      destruct (writeZerosAndRespond r c o k m) as [[[]|e] m1]
  end.
  - run. eauto.
  - run. eauto.
Qed.

(** A new key goes to the end of a map. *)
Lemma mapSet_fresh (k : string) (v : nat) (m : list (string * nat)) :
  k ∉ map fst m → mapSet k v m = m ++ [(k, v)].
Proof.
  induction m as [|[k' v'] rest IH]; intros Hk; [reflexivity|].
  cbn [mapSet]. cbn [map fst] in Hk.
  apply not_elem_of_cons in Hk as [Hne Hk].
  destruct (String.eqb k' k) eqn:E; [apply String.eqb_eq in E; congruence|].
  cbn [app]. now rewrite IH.
Qed.

(** The entries of a map give the map back: [new Map(Array.from(map.entries()))]. *)
Lemma mapOfEntries_entries (rows : list (string * nat)) :
  NoDup (map fst rows) → mapOfEntries rows = rows.
Proof.
  unfold mapOfEntries.
  assert (Hgen : ∀ (l acc : list (string * nat)),
    NoDup (map fst (acc ++ l)) →
    foldl (λ m e, mapSet (fst e) (snd e) m) acc l = acc ++ l).
  { induction l as [|[k v] l IH]; intros acc Hnd; cbn [foldl].
    - now rewrite app_nil_r.
    - cbn [fst snd]. rewrite mapSet_fresh.
      + rewrite IH; rewrite <- app_assoc; [reflexivity | exact Hnd].
      + rewrite map_app in Hnd. apply NoDup_app in Hnd as (_ & Hdis & _).
        intros Hin. apply (Hdis k Hin). cbn [map fst]. apply list_elem_of_here. }
  intros Hnd. now apply (Hgen rows []).
Qed.

End Override.

End OverrideFacts.

(* ===================================================================== *)
(** ** Store failures: the rules *)
(* ===================================================================== *)

Module RecoveryRules.
Import Js Host Constants Columns Session Poll Machine Sheets BotHelpers Recovery Run.
Local Open Scope list_scope.

Section Rules.
Context `{JsNumber} `{!SheetsApi}.

Lemma resetSession_initial (s : SessionData) : resetSession s = initialSession.
Proof. reflexivity. Qed.

Lemma obeys_weaken {A} (H1 H2 : A → Prop) (c : M A) :
  (∀ a, H1 a → H2 a) → Obeys H1 c → Obeys H2 c.
Proof.
  intros Himp Hc m. destruct (Hc m).
  - eapply verdict_clean; eassumption.
  - eapply verdict_thrown; eassumption.
  - eapply verdict_recovered; eauto.
Qed.

Lemma verdict_same {A} (H1 : A → Prop) (m : Machine) (o : Outcome A) :
  Verdict H1 m (o, m).
Proof. apply (verdict_clean H1 m o m []); [now rewrite app_nil_r | constructor]. Qed.

Lemma obeys_ret {A} (H1 : A → Prop) (a : A) : Obeys H1 (ret a).
Proof. intros m. apply verdict_same. Qed.

Lemma obeys_throw {A} (H1 : A → Prop) (e : JsError) : Obeys H1 (@throw _ _ A e).
Proof. intros m. apply verdict_same. Qed.

Lemma obeys_getSession (H1 : SessionData → Prop) : Obeys H1 getSession.
Proof. intros m. apply verdict_same. Qed.

Lemma obeys_getPolls (H1 : _ → Prop) : Obeys H1 getPolls.
Proof. intros m. apply verdict_same. Qed.

Lemma obeys_modify (H1 : unit → Prop) f : Obeys H1 (modify f).
Proof.
  intros m. apply (verdict_clean H1 m _ _ []); [cbn; now rewrite app_nil_r | constructor].
Qed.

Lemma obeys_reply (H1 : unit → Prop) text : Obeys H1 (reply text).
Proof.
  intros m. apply (verdict_clean H1 m _ _ [Reply text]); [reflexivity|].
  repeat constructor.
Qed.

Lemma obeys_call {A} (H1 : A → Prop) c (request : World → Outcome A * World) :
  Obeys H1 (call c request).
Proof.
  intros m. unfold call. destruct (request (world m)) as [[a|e] w].
  - apply (verdict_clean H1 m _ _ [Called c]); [reflexivity|]. repeat constructor.
  - apply (verdict_thrown H1 m _ [] c e); [reflexivity | constructor].
Qed.

(** Sequencing.  What follows a run that recovered must be a plain
    return: nothing may happen after the error was reported. *)
Lemma obeys_bind {A B} (H1 : A → Prop) (H2 : B → Prop) (c : M A) (k : A → M B) :
  Obeys H1 c →
  (∀ a, Obeys H2 (k a)) →
  (∀ a, H1 a → ∃ b, H2 b ∧ ∀ m, k a m = (Ok b, m)) →
  Obeys H2 (bind c k).
Proof.
  intros Hc Hk Hafter m. unfold bind.
  destruct (Hc m) as [o m' evs Htr Hq | m' pre c0 e Htr Hq
                     | a m' pre c0 e action hint Htr Hknown Hq Hs Ha].
  - destruct o as [a|e]; [|eapply verdict_clean; eassumption].
    destruct (Hk a m') as [o2 m2 evs2 Htr2 Hq2 | m2 pre2 c2 e2 Htr2 Hq2
                          | b m2 pre2 c2 e2 action2 hint2 Htr2 Hknown2 Hq2 Hs2 Hb].
    + apply (verdict_clean H2 m _ _ (evs ++ evs2)).
      * now rewrite Htr2, Htr, app_assoc.
      * now apply Forall_app.
    + apply (verdict_thrown H2 m _ (evs ++ pre2) c2 e2).
      * now rewrite Htr2, Htr, !app_assoc.
      * now apply Forall_app.
    + apply (verdict_recovered H2 m _ _ (evs ++ pre2) c2 e2 action2 hint2).
      * now rewrite Htr2, Htr, !app_assoc.
      * assumption.
      * now apply Forall_app.
      * assumption.
      * assumption.
  - eapply verdict_thrown; eassumption.
  - destruct (Hafter a Ha) as (b & Hb & Hret). rewrite Hret.
    eapply verdict_recovered; eassumption.
Qed.

(** After a run that cannot have recovered anything may follow. *)
Lemma obeys_bind_raw {A B} (H2 : B → Prop) (c : M A) (k : A → M B) :
  Obeys (λ _, False) c → (∀ a, Obeys H2 (k a)) → Obeys H2 (bind c k).
Proof.
  intros Hc Hk. apply (obeys_bind (λ _, False) H2); [assumption | assumption |].
  intros a [].
Qed.

(** A run followed by a plain return. *)
Lemma obeys_bind_ret {A B} (H1 : A → Prop) (H2 : B → Prop) (c : M A) (b : B) :
  Obeys H1 c → H2 b → Obeys H2 (bind c (λ _, ret b)).
Proof.
  intros Hc Hb. apply (obeys_bind H1 H2); [assumption | |].
  - intros a. apply obeys_ret.
  - intros a _. exists b. split; [assumption | reflexivity].
Qed.

(** A handler of a [catch] that reports the error with [handleApiError]
    and returns [x]. *)
Definition Reports {A} (h : JsError → M A) (x : A) (action : string) (hint : bool) : Prop :=
  ∀ e m, h e m
         = (Ok x, mkMachine initialSession (activePolls m)
                    (trace m ++ [Reply (apiErrorMessage e action hint)]) (world m)).

Lemma reports_handleApiError action hint :
  Reports (λ e, handleApiError e action hint) tt action hint.
Proof. intros e m. reflexivity. Qed.

Lemma reports_handleApiError_ret {A} (x : A) action hint :
  Reports (λ e, bind (handleApiError e action hint) (λ _, ret x)) x action hint.
Proof. intros e m. reflexivity. Qed.

(** [try { c } catch { report }]: whatever [c] threw is reported. *)
Lemma obeys_tryCatch {A} (H1 H2 : A → Prop) (c : M A) (h : JsError → M A)
    (x : A) action hint :
  Obeys H1 c → Reports h x action hint →
  (∀ a, H1 a → H2 a) → H2 x →
  (action, hint) ∈ failureReports →
  Obeys H2 (tryCatch c h).
Proof.
  intros Hc Hh Himp Hx Hknown m. unfold tryCatch.
  destruct (Hc m) as [o m' evs Htr Hq | m' pre c0 e Htr Hq
                     | a m' pre c0 e action0 hint0 Htr Hknown0 Hq Hs Ha].
  - destruct o as [a|e]; [eapply verdict_clean; eassumption|].
    rewrite Hh.
    apply (verdict_clean H2 m _ _ (evs ++ [Reply (apiErrorMessage e action hint)])).
    + cbn [trace]. now rewrite Htr, app_assoc.
    + apply Forall_app. split; [assumption | repeat constructor].
  - rewrite Hh.
    apply (verdict_recovered H2 m _ _ pre c0 e action hint).
    + cbn [trace]. rewrite Htr, <- !app_assoc. reflexivity.
    + assumption.
    + assumption.
    + reflexivity.
    + assumption.
  - eapply verdict_recovered; eauto.
Qed.

Lemma returns_ret {A} (a : A) : Returns (ret a).
Proof. intros m. eauto. Qed.

Lemma returns_reply text : Returns (reply text).
Proof. intros m. unfold reply. eauto. Qed.

Lemma returns_modify f : Returns (modify f).
Proof. intros m. unfold modify. eauto. Qed.

Lemma returns_getSession : Returns getSession.
Proof. intros m. unfold getSession. eauto. Qed.

Lemma returns_getPolls : Returns getPolls.
Proof. intros m. unfold getPolls. eauto. Qed.

Lemma returns_bind {A B} (c : M A) (k : A → M B) :
  Returns c → (∀ a, Returns (k a)) → Returns (bind c k).
Proof.
  intros Hc Hk m. unfold bind. destruct (Hc m) as (a & m' & ->). apply Hk.
Qed.

Lemma returns_tryCatch {A} (c : M A) (h : JsError → M A) :
  (∀ e, Returns (h e)) → Returns (tryCatch c h).
Proof.
  intros Hh m. unfold tryCatch. destruct (c m) as [[a|e] m']; [eauto | apply Hh].
Qed.

End Rules.

Create HintDb obeys.
Create HintDb returns.

#[export] Hint Resolve obeys_ret obeys_throw obeys_getSession obeys_getPolls
  obeys_modify obeys_reply obeys_call : obeys.
#[export] Hint Resolve returns_ret returns_reply returns_modify returns_getSession
  returns_getPolls : returns.

(** The action and the hint of a [catch] are among the reports of the
    source. *)
Ltac known_report :=
  unfold failureReports;
  repeat first [apply list_elem_of_here | apply list_elem_of_further].

(** Walks through a handler: a sequence is split at its first step, a
    case distinction into its cases, a [try] into its block and its
    handler; the steps themselves are looked up among the facts already
    proved. *)
Ltac obey :=
  repeat first
    [ assumption
    | progress intros
    | solve [auto 2 with obeys]
    | match goal with
      | |- Obeys _ (let _ := _ in _) => cbv zeta
      | |- Obeys _ (bind _ _) =>
          first [ apply obeys_bind_raw; [solve [obey]|]
                | eapply (obeys_bind_ret (λ _, True)); [solve [obey] | solve [trivial]]
                | eapply (obeys_bind (λ b : bool, b = true));
                    [ solve [obey] |
                    | solve [intros ? ->; eexists; split; reflexivity] ]
                | eapply (obeys_bind (λ r : option bool, r = Some true));
                    [ solve [obey] |
                    | solve [intros ? ->; eexists; split; reflexivity] ] ]
      | |- Obeys ?H (tryCatch _ _) =>
          eapply (obeys_tryCatch H H);
            [ | first [apply reports_handleApiError | apply reports_handleApiError_ret]
              | solve [auto] | solve [trivial] | solve [known_report] ]
      | |- Obeys _ (match ?x with _ => _ end) => destruct x
      end ].

Ltac returning :=
  repeat first
    [ assumption
    | progress intros
    | solve [auto 2 with returns]
    | match goal with
      | |- Returns (let _ := _ in _) => cbv zeta
      | |- Returns (bind _ _) => apply returns_bind
      | |- Returns (tryCatch _ _) => apply returns_tryCatch
      | |- Returns (match ?x with _ => _ end) => destruct x
      end ].

End RecoveryRules.

(* ===================================================================== *)
(** ** Store failures: the client and the workflow *)
(* ===================================================================== *)

Module WorkflowRecovery.
Import Js Host Constants Columns Session Poll Machine Sheets BotHelpers Workflow.
Import Recovery Run RecoveryRules.
Local Open Scope list_scope.

Section WorkflowRecovery.
Context `{JsNumber} `{!SheetsApi}.

(** The client methods throw what the store throws and catch nothing. *)
Lemma obeys_initSheetsClient (H1 : unit → Prop) : Obeys H1 initSheetsClient.
Proof. unfold initSheetsClient. obey. Qed.

Lemma obeys_findNicknameRows (H1 : _ → Prop) nicknames :
  Obeys H1 (findNicknameRows nicknames).
Proof. unfold findNicknameRows. obey. Qed.

Lemma obeys_checkExistingValues (H1 : _ → Prop) rows column :
  Obeys H1 (checkExistingValues rows column).
Proof. unfold checkExistingValues. obey. Qed.

Hint Resolve obeys_initSheetsClient obeys_findNicknameRows
  obeys_checkExistingValues : obeys.

Lemma obeys_writeZeros (H1 : _ → Prop) rows column overrideExisting :
  Obeys H1 (writeZeros rows column overrideExisting).
Proof. unfold writeZeros. obey. Qed.

Lemma obeys_findLastDateColumn (H1 : _ → Prop) : Obeys H1 findLastDateColumn.
Proof. unfold findLastDateColumn. obey. Qed.

Lemma obeys_getColumnMetadata (H1 : _ → Prop) column :
  Obeys H1 (getColumnMetadata column).
Proof. unfold getColumnMetadata. obey. Qed.

Lemma obeys_writeColumnMetadata (H1 : _ → Prop) column date cost playerCount :
  Obeys H1 (writeColumnMetadata column date cost playerCount).
Proof. unfold writeColumnMetadata. obey. Qed.

Lemma obeys_findColumnByDateText (H1 : _ → Prop) text :
  Obeys H1 (findColumnByDateText text).
Proof. unfold findColumnByDateText. obey. Qed.

Lemma obeys_replyErrorAndReset (H1 : _ → Prop) message :
  Obeys H1 (replyErrorAndReset message).
Proof. unfold replyErrorAndReset. obey. Qed.

Lemma obeys_handleApiError (H1 : _ → Prop) e action hint :
  Obeys H1 (handleApiError e action hint).
Proof. unfold handleApiError, replyErrorAndReset. obey. Qed.

Hint Resolve obeys_writeZeros obeys_findLastDateColumn obeys_getColumnMetadata
  obeys_writeColumnMetadata obeys_findColumnByDateText obeys_replyErrorAndReset
  obeys_handleApiError : obeys.

Lemma obeys_getPollDataOrError (H1 : _ → Prop) : Obeys H1 getPollDataOrError.
Proof. unfold getPollDataOrError. obey. Qed.

(** The final write and the override check catch nothing either: their
    callers do. *)
Lemma obeys_writeZerosAndRespond (H1 : _ → Prop) rows column overrideExisting skipped :
  Obeys H1 (writeZerosAndRespond rows column overrideExisting skipped).
Proof. unfold writeZerosAndRespond. obey. Qed.

Hint Resolve obeys_getPollDataOrError obeys_writeZerosAndRespond : obeys.

Lemma obeys_checkOverridesAndWrite (H1 : _ → Prop) rows :
  Obeys H1 (checkOverridesAndWrite rows).
Proof. unfold checkOverridesAndWrite. obey. Qed.

Hint Resolve obeys_checkOverridesAndWrite : obeys.

(** The three entries of the workflow report every failure. *)
Lemma obeys_startColumnDetectionFlow : Obeys (λ _, True) startColumnDetectionFlow.
Proof. unfold startColumnDetectionFlow. obey. Qed.

Lemma obeys_proceedWithPlayerCountCheck : Obeys (λ _, True) proceedWithPlayerCountCheck.
Proof. unfold proceedWithPlayerCountCheck. obey. Qed.

Hint Resolve obeys_startColumnDetectionFlow obeys_proceedWithPlayerCountCheck : obeys.

Lemma obeys_proceedWithMetadataCollection :
  Obeys (λ _, True) proceedWithMetadataCollection.
Proof. unfold proceedWithMetadataCollection. obey. Qed.

(** None of them throws. *)
Lemma returns_replyErrorAndReset message : Returns (replyErrorAndReset message).
Proof. unfold replyErrorAndReset. returning. Qed.

Lemma returns_handleApiError e action hint : Returns (handleApiError e action hint).
Proof. unfold handleApiError, replyErrorAndReset. returning. Qed.

Hint Resolve returns_replyErrorAndReset returns_handleApiError : returns.

Lemma returns_getPollDataOrError : Returns getPollDataOrError.
Proof. unfold getPollDataOrError. returning. Qed.

Lemma returns_startColumnDetectionFlow : Returns startColumnDetectionFlow.
Proof. unfold startColumnDetectionFlow. returning. Qed.

Lemma returns_proceedWithPlayerCountCheck : Returns proceedWithPlayerCountCheck.
Proof. unfold proceedWithPlayerCountCheck. returning. Qed.

Lemma returns_proceedWithMetadataCollection : Returns proceedWithMetadataCollection.
Proof. unfold proceedWithMetadataCollection. returning. Qed.

End WorkflowRecovery.

#[export] Hint Resolve obeys_initSheetsClient obeys_findNicknameRows
  obeys_checkExistingValues obeys_writeZeros obeys_findLastDateColumn
  obeys_getColumnMetadata obeys_writeColumnMetadata obeys_findColumnByDateText
  obeys_replyErrorAndReset obeys_handleApiError obeys_getPollDataOrError
  obeys_writeZerosAndRespond obeys_checkOverridesAndWrite
  obeys_startColumnDetectionFlow obeys_proceedWithPlayerCountCheck
  obeys_proceedWithMetadataCollection : obeys.
#[export] Hint Resolve returns_replyErrorAndReset returns_handleApiError
  returns_getPollDataOrError returns_startColumnDetectionFlow
  returns_proceedWithPlayerCountCheck returns_proceedWithMetadataCollection : returns.

End WorkflowRecovery.

(* ===================================================================== *)
(** ** Store failures: the handlers and the engine *)
(* ===================================================================== *)

Module FailureFacts.
Import Js Host Constants Columns Session Poll Machine Sheets BotHelpers Workflow.
Import PollHandlers SheetHandlers ColumnHandlersCommon Bot.
Import Recovery Run RecoveryRules WorkflowRecovery.
Local Open Scope list_scope.

Section Failure.
Context `{JsNumber} `{!SheetsApi}.

(** A handler that recovered from a failure has handled the message. *)
Abbreviation Handled := (λ b : bool, b = true).

Lemma obeys_handlePollIntent text : Obeys Handled (handlePollIntent text).
Proof. unfold handlePollIntent. obey. Qed.

Lemma obeys_handlePollOptionSelection text :
  Obeys Handled (handlePollOptionSelection text).
Proof. unfold handlePollOptionSelection. obey. Qed.

Lemma obeys_handleDateName text :
  Obeys Handled (ColumnHandlersCommon.handleDateName text).
Proof. unfold ColumnHandlersCommon.handleDateName. obey. Qed.

Lemma obeys_handleCost text : Obeys Handled (ColumnHandlersCommon.handleCost text).
Proof. unfold ColumnHandlersCommon.handleCost. obey. Qed.

Lemma obeys_handleColumnConfirmationA text :
  Obeys Handled (ColumnHandlersA.handleColumnConfirmation text).
Proof. unfold ColumnHandlersA.handleColumnConfirmation. obey. Qed.

Lemma obeys_handleNewColumnChoiceA text :
  Obeys Handled (ColumnHandlersA.handleNewColumnChoice text).
Proof. unfold ColumnHandlersA.handleNewColumnChoice. obey. Qed.

Lemma obeys_searchByDateText text :
  Obeys (λ r : option bool, r = Some true) (ColumnHandlersB.searchByDateText text).
Proof. unfold ColumnHandlersB.searchByDateText. obey. Qed.

Hint Resolve obeys_searchByDateText : obeys.

Lemma obeys_handleColumnConfirmationB text :
  Obeys Handled (ColumnHandlersB.handleColumnConfirmation text).
Proof.
  unfold ColumnHandlersB.handleColumnConfirmation, ColumnHandlersB.askForDateName.
  obey.
Qed.

Lemma obeys_handleNewColumnChoiceB text :
  Obeys Handled (ColumnHandlersB.handleNewColumnChoice text).
Proof.
  unfold ColumnHandlersB.handleNewColumnChoice, ColumnHandlersB.askForDateName.
  obey.
Qed.

Lemma obeys_handleColumnSelection text :
  Obeys Handled (ColumnHandlersB.handleColumnSelection text).
Proof. unfold ColumnHandlersB.handleColumnSelection. obey. Qed.

Lemma obeys_handleUsernames text : Obeys Handled (handleUsernames text).
Proof. unfold handleUsernames. obey. Qed.

Lemma obeys_handlePlayerCountConfirmation text :
  Obeys Handled (handlePlayerCountConfirmation text).
Proof. unfold handlePlayerCountConfirmation. obey. Qed.

Lemma obeys_handlePlayerCount text : Obeys Handled (handlePlayerCount text).
Proof. unfold handlePlayerCount. obey. Qed.

Lemma obeys_handleOverrideConfirmation text :
  Obeys Handled (handleOverrideConfirmation text).
Proof. unfold handleOverrideConfirmation. obey. Qed.

Hint Resolve obeys_handlePollIntent obeys_handlePollOptionSelection
  obeys_handleDateName obeys_handleCost obeys_handleColumnConfirmationA
  obeys_handleNewColumnChoiceA obeys_handleColumnConfirmationB
  obeys_handleNewColumnChoiceB obeys_handleColumnSelection obeys_handleUsernames
  obeys_handlePlayerCountConfirmation obeys_handlePlayerCount
  obeys_handleOverrideConfirmation : obeys.

Lemma obeys_orElse (handler : M bool) (rest : M unit) :
  Obeys Handled handler → Obeys (λ _, True) rest →
  Obeys (λ _, True) (orElse handler rest).
Proof.
  intros Hh Hrest. unfold orElse.
  apply (obeys_bind Handled (λ _, True)); [assumption | |].
  - intros [|]; [apply obeys_ret | assumption].
  - intros a ->. exists tt. split; [exact I | reflexivity].
Qed.

Lemma obeys_onText (handlers : ColumnHandlers) (messageText : string) :
  handlers = columnHandlersA ∨ handlers = columnHandlersB →
  Obeys (λ _, True) (onText handlers messageText).
Proof.
  intros [->| ->]; unfold onText;
    cbn [handleColumnConfirmation handleNewColumnChoice handleDateName handleCost
         columnHandlersA columnHandlersB];
    repeat (apply obeys_orElse; [solve [auto 2 with obeys]|]); apply obeys_reply.
Qed.

Lemma obeys_handleInbound (handlers : ColumnHandlers) (ev : Inbound) :
  handlers = columnHandlersA ∨ handlers = columnHandlersB →
  Obeys (λ _, True) (handleInbound handlers ev).
Proof.
  intros Hh. destruct ev; cbn [handleInbound].
  - unfold onUpdateCommand. obey.
  - unfold onCancelCommand. obey.
  - unfold onAbortCommand. obey.
  - now apply obeys_onText.
  - unfold onPollMessage. obey.
Qed.

(** No handler throws. *)
Lemma returns_handlePollIntent text : Returns (handlePollIntent text).
Proof. unfold handlePollIntent. returning. Qed.

Lemma returns_handlePollOptionSelection text :
  Returns (handlePollOptionSelection text).
Proof. unfold handlePollOptionSelection. returning. Qed.

Lemma returns_handleDateName text : Returns (ColumnHandlersCommon.handleDateName text).
Proof. unfold ColumnHandlersCommon.handleDateName. returning. Qed.

Lemma returns_handleCost text : Returns (ColumnHandlersCommon.handleCost text).
Proof. unfold ColumnHandlersCommon.handleCost. returning. Qed.

Lemma returns_handleColumnConfirmationA text :
  Returns (ColumnHandlersA.handleColumnConfirmation text).
Proof. unfold ColumnHandlersA.handleColumnConfirmation. returning. Qed.

Lemma returns_handleNewColumnChoiceA text :
  Returns (ColumnHandlersA.handleNewColumnChoice text).
Proof. unfold ColumnHandlersA.handleNewColumnChoice. returning. Qed.

Lemma returns_handleColumnConfirmationB text :
  Returns (ColumnHandlersB.handleColumnConfirmation text).
Proof.
  unfold ColumnHandlersB.handleColumnConfirmation, ColumnHandlersB.askForDateName.
  returning.
Qed.

Lemma returns_handleNewColumnChoiceB text :
  Returns (ColumnHandlersB.handleNewColumnChoice text).
Proof.
  unfold ColumnHandlersB.handleNewColumnChoice, ColumnHandlersB.askForDateName.
  returning.
Qed.

Lemma returns_handleColumnSelection text :
  Returns (ColumnHandlersB.handleColumnSelection text).
Proof. unfold ColumnHandlersB.handleColumnSelection. returning. Qed.

Lemma returns_handleUsernames text : Returns (handleUsernames text).
Proof. unfold handleUsernames. returning. Qed.

Lemma returns_handlePlayerCountConfirmation text :
  Returns (handlePlayerCountConfirmation text).
Proof. unfold handlePlayerCountConfirmation. returning. Qed.

Lemma returns_handlePlayerCount text : Returns (handlePlayerCount text).
Proof. unfold handlePlayerCount. returning. Qed.

Lemma returns_handleOverrideConfirmation text :
  Returns (handleOverrideConfirmation text).
Proof. unfold handleOverrideConfirmation. returning. Qed.

Hint Resolve returns_handlePollIntent returns_handlePollOptionSelection
  returns_handleDateName returns_handleCost returns_handleColumnConfirmationA
  returns_handleNewColumnChoiceA returns_handleColumnConfirmationB
  returns_handleNewColumnChoiceB returns_handleUsernames
  returns_handlePlayerCountConfirmation returns_handlePlayerCount
  returns_handleOverrideConfirmation : returns.

Lemma returns_handleInbound (handlers : ColumnHandlers) (ev : Inbound) :
  handlers = columnHandlersA ∨ handlers = columnHandlersB →
  Returns (handleInbound handlers ev).
Proof.
  intros [->| ->]; destruct ev; cbn [handleInbound];
    unfold onUpdateCommand, onCancelCommand, onAbortCommand, onText, orElse,
      onPollMessage;
    cbn [handleColumnConfirmation handleNewColumnChoice handleDateName handleCost
         columnHandlersA columnHandlersB];
    returning.
Qed.

(** From the shape of the runs to the statement about failures. *)
Lemma recovers {A} (H1 : A → Prop) (c : M A) :
  Obeys H1 c → Returns c → Recovers c.
Proof.
  intros Hobeys Hret m o m' evs Hrun Htrace request e Hin.
  pose proof (Hobeys m) as Hv. destruct (Hret m) as (a0 & m0 & Hok).
  rewrite Hrun in Hv. rewrite Hrun in Hok. injection Hok as -> ->.
  inversion Hv as [o1 m1 evs1 Htr Hq | m1 pre c0 e0 Htr Hq
                  | a1 m1 pre c0 e0 action hint Htr Hknown Hq Hs Ha]; subst.
  - rewrite Htrace in Htr. apply app_inv_head in Htr as ->.
    rewrite Forall_forall in Hq. destruct (Hq _ Hin).
  - rewrite Htrace in Htr. apply app_inv_head in Htr as ->.
    split; [eauto|]. split; [assumption|].
    exists pre, action, hint. split; [assumption|]. split; [|assumption].
    apply elem_of_app in Hin as [Hin|Hin].
    + rewrite Forall_forall in Hq. destruct (Hq _ Hin).
    + apply elem_of_cons in Hin as [[= -> ->]|Hin]; [reflexivity|].
      apply list_elem_of_singleton in Hin. discriminate.
Qed.

(** C6. Whatever the operator sends (the update, cancel and abort
    commands, a text in any state, a forwarded poll) and whichever of the
    two texts of column-handlers.ts is installed: if a request to the
    backing store fails while the message is handled, then the handler
    still returns normally, the session is the initial one (idle, all
    fields cleared), the failed request is the only one that failed and
    the last request made (nothing is retried), and the last effect is
    the reply that describes the error to the operator: "❌ Error", the
    action that failed (one of those the source names), the message of
    the error, and for some actions the hint to check the API settings
    ([Recovers] spells the text out).  The same holds for the handler of
    awaiting_column_selection. *)
Theorem store_failure_reported_and_reset :
  (∀ (handlers : ColumnHandlers) (ev : Inbound),
     handlers = columnHandlersA ∨ handlers = columnHandlersB →
     Recovers (handleInbound handlers ev)) ∧
  (∀ text, Recovers (ColumnHandlersB.handleColumnSelection text)).
Proof.
  split.
  - intros handlers ev Hh.
    apply (recovers (λ _, True));
      [now apply obeys_handleInbound | now apply returns_handleInbound].
  - intros text.
    apply (recovers Handled);
      [apply obeys_handleColumnSelection | apply returns_handleColumnSelection].
Qed.

End Failure.

Import Demo.

(** The update command when the header row cannot be read; and the
    answer yes to the override question when the write throws a value
    that is no [Error]. *)
Lemma store_failure_reported_and_reset_witness :
  let busy :=
    set_usernames ["@a"] (set_targetColumn (Some "G")
      (set_state awaiting_usernames initialSession)) in
  let m := startWith busy [Done; Throws (ErrorObject "Quota exceeded")] in
  let r := handleInbound columnHandlersA UpdateCommand m in
  let waiting :=
    set_state awaiting_override_confirmation
      (set_existingValuesEntries (Some [mkExistingValue "@a" (CStr "5")])
         (set_nicknameRowsEntries (Some [("@a", 7%nat)])
            (set_column (Some "G") busy))) in
  let m2 := startWith waiting [Done; Throws Thrown] in
  let r2 := handleInbound columnHandlersA (Text "Yes") m2 in
  (fst r = Ok tt ∧ session (snd r) = initialSession ∧
   trace (snd r)
   = [Reply "⏳ Detecting last date column...";
      Called CallInit;
      Failed (CallGet "'Sheet1'!F1:ZZ1") (ErrorObject "Quota exceeded");
      Reply ("❌ Error detecting column: Quota exceeded" +:+ nl +:+ nl
             +:+ "Check your Google Sheets API settings.")]) ∧
  (fst r2 = Ok tt ∧ session (snd r2) = initialSession ∧
   trace (snd r2)
   = [Reply "⏳ Updating sheet...";
      Called CallInit;
      Failed (CallBatchUpdate [mkUpdate "'Sheet1'!G7" [[CNum (numOfZ 0)]]]) Thrown;
      Reply ("❌ Error updating sheet: Unknown error" +:+ nl +:+ nl
             +:+ "Check your Google Sheets API settings.")]).
Proof.
  intros busy m r waiting m2 r2. split.
  - assert (Hrun : handleInbound columnHandlersA UpdateCommand m = (fst r, snd r))
      by apply surjective_pairing.
    destruct (proj1 store_failure_reported_and_reset columnHandlersA UpdateCommand
                (or_introl eq_refl) m (fst r) (snd r)
                [Reply "⏳ Detecting last date column...";
                 Called CallInit;
                 Failed (CallGet "'Sheet1'!F1:ZZ1") (ErrorObject "Quota exceeded");
                 Reply ("❌ Error detecting column: Quota exceeded" +:+ nl +:+ nl
                        +:+ "Check your Google Sheets API settings.")]
                Hrun eq_refl
                (CallGet "'Sheet1'!F1:ZZ1") (ErrorObject "Quota exceeded"))
      as ([a Ha] & Hs & _).
    + apply list_elem_of_further, list_elem_of_further, list_elem_of_here.
    + split; [|split; [exact Hs | reflexivity]].
      rewrite Ha. now destruct a.
  - assert (Hrun : handleInbound columnHandlersA (Text "Yes") m2 = (fst r2, snd r2))
      by apply surjective_pairing.
    destruct (proj1 store_failure_reported_and_reset columnHandlersA (Text "Yes")
                (or_introl eq_refl) m2 (fst r2) (snd r2)
                [Reply "⏳ Updating sheet...";
                 Called CallInit;
                 Failed (CallBatchUpdate [mkUpdate "'Sheet1'!G7" [[CNum (numOfZ 0)]]])
                   Thrown;
                 Reply ("❌ Error updating sheet: Unknown error" +:+ nl +:+ nl
                        +:+ "Check your Google Sheets API settings.")]
                Hrun eq_refl
                (CallBatchUpdate [mkUpdate "'Sheet1'!G7" [[CNum (numOfZ 0)]]]) Thrown)
      as ([a Ha] & Hs & _).
    + apply list_elem_of_further, list_elem_of_further, list_elem_of_here.
    + split; [|split; [exact Hs | reflexivity]].
      rewrite Ha. now destruct a.
Defined.

End FailureFacts.

(* ===================================================================== *)
(** ** Text: theorems *)
(* ===================================================================== *)

Module TextFacts.
Import Js Shapes.

Lemma append_cons (c : ascii) (s t : string) :
  String c s +:+ t = String c (s +:+ t).
Proof. reflexivity. Qed.

Lemma append_assoc (s t u : string) : (s +:+ t) +:+ u = s +:+ (t +:+ u).
Proof.
  induction s as [|c s IH]; [reflexivity|].
  rewrite !append_cons. now rewrite IH.
Qed.

Lemma append_empty (s : string) : s +:+ EmptyString = s.
Proof.
  induction s as [|c s IH]; [reflexivity|].
  rewrite append_cons. now rewrite IH.
Qed.

Lemma allChars_app (p : ascii → bool) (s t : string) :
  allChars p (s +:+ t) = allChars p s && allChars p t.
Proof.
  induction s as [|c s IH]; [reflexivity|].
  rewrite append_cons. cbn [allChars]. rewrite IH. now rewrite andb_assoc.
Qed.

Lemma allChars_weaken (p q : ascii → bool) (s : string) :
  (∀ c, p c = true → q c = true) → allChars p s = true → allChars q s = true.
Proof.
  intros Hpq. induction s as [|c s IH]; [reflexivity|].
  cbn [allChars]. rewrite !andb_true_iff. intros [Hc Hs]. auto.
Qed.

Lemma allChars_trimStart (p : ascii → bool) (s : string) :
  allChars p s = true → allChars p (trimStart s) = true.
Proof.
  induction s as [|c s IH]; [reflexivity|].
  cbn [allChars trimStart]. intros H. destruct (isSpace c); [|exact H].
  apply andb_true_iff in H as [_ H]. now apply IH.
Qed.

Lemma allChars_trimEnd (p : ascii → bool) (s : string) :
  allChars p s = true → allChars p (trimEnd s) = true.
Proof.
  induction s as [|c s IH]; [reflexivity|].
  cbn [allChars trimEnd]. intros H. apply andb_true_iff in H as [Hc Hs].
  specialize (IH Hs). destruct (trimEnd s) as [|d k].
  - destruct (isSpace c); [reflexivity|]. cbn [allChars]. now rewrite Hc.
  - cbn [allChars] in *. now rewrite Hc, IH.
Qed.

Lemma allChars_trim (p : ascii → bool) (s : string) :
  allChars p s = true → allChars p (trim s) = true.
Proof.
  intros H. unfold trim. now apply allChars_trimEnd, allChars_trimStart.
Qed.

Lemma trimEnd_idem (s : string) : trimEnd (trimEnd s) = trimEnd s.
Proof.
  induction s as [|c s IH]; [reflexivity|].
  cbn [trimEnd]. destruct (trimEnd s) as [|d k] eqn:E.
  - destruct (isSpace c) eqn:Ec; [reflexivity|].
    cbn [trimEnd]. now rewrite Ec.
  - cbn [trimEnd] in *. now rewrite IH.
Qed.

Lemma trimStart_noLeadingSpace (s : string) : noLeadingSpace (trimStart s).
Proof.
  induction s as [|c s IH]; [exact I|].
  cbn [trimStart]. destruct (isSpace c) eqn:E; [exact IH | exact E].
Qed.

Lemma trimStart_fixed (s : string) : noLeadingSpace s → trimStart s = s.
Proof.
  destruct s as [|c s]; [reflexivity|]. cbn [noLeadingSpace trimStart].
  now intros ->.
Qed.

Lemma trimEnd_noLeadingSpace (s : string) :
  noLeadingSpace s → noLeadingSpace (trimEnd s).
Proof.
  destruct s as [|c s]; [intros _; exact I|].
  cbn [noLeadingSpace trimEnd]. intros Hc.
  destruct (trimEnd s); [rewrite Hc|]; exact Hc.
Qed.

(** Trimming twice is trimming once. *)
Lemma trim_idem (s : string) : trim (trim s) = trim s.
Proof.
  unfold trim.
  rewrite (trimStart_fixed (trimEnd (trimStart s)))
    by apply trimEnd_noLeadingSpace, trimStart_noLeadingSpace.
  apply trimEnd_idem.
Qed.

(** Text without white space is left alone by [trim]. *)
Lemma trim_noSpace (s : string) : allChars notSpace s = true → trim s = s.
Proof.
  intros H. unfold trim. rewrite trimStart_fixed.
  - induction s as [|c s IH]; [reflexivity|].
    cbn [allChars] in H. apply andb_true_iff in H as [Hc Hs].
    cbn [trimEnd]. rewrite (IH Hs). destruct s; [|reflexivity].
    unfold notSpace in Hc. apply negb_true_iff in Hc. now rewrite Hc.
  - destruct s as [|c s]; [exact I|]. cbn [allChars] in H.
    apply andb_true_iff in H as [Hc _]. now apply negb_true_iff in Hc.
Qed.

End TextFacts.

(* ===================================================================== *)
(** ** Yes and no: the dispatcher's normal form *)
(* ===================================================================== *)

Module NormalFormFacts.
Import Js Host BotHelpers Shapes ColumnFacts TextFacts.
Local Open Scope Z_scope.

Lemma fromCharCode_208 (c : ascii) : code c = 208 -> c = fromCharCode 208.
Proof. intros Hc. rewrite <- (fromCharCode_code c). now rewrite Hc. Qed.

Lemma toLowerCase_capital (c d : ascii) (r : string) :
  code c = 208 -> isCapitalTail d = true ->
  toLowerCase (String c (String d r))
  = String (smallFirst d) (String (smallSecond d) (toLowerCase r)).
Proof.
  intros Hc Hd. unfold isCapitalTail in Hd. apply andb_true_iff in Hd as [H1 H2].
  apply Z.leb_le in H1, H2. cbn [toLowerCase]. unfold smallFirst, smallSecond.
  rewrite Hc. cbn [Z.eqb Pos.eqb andb].
  destruct (code d <=? 143) eqn:E1.
  - apply Z.leb_le in E1. replace (128 <=? code d) with true by (symmetry; now apply Z.leb_le).
    reflexivity.
  - apply Z.leb_gt in E1.
    replace (128 <=? code d) with true by (symmetry; apply Z.leb_le; lia).
    cbn [andb].
    destruct (code d <=? 159) eqn:E2.
    + apply Z.leb_le in E2.
      replace (144 <=? code d) with true by (symmetry; apply Z.leb_le; lia).
      cbn [andb]. now rewrite <- (fromCharCode_208 c Hc).
    + apply Z.leb_gt in E2.
      replace (144 <=? code d) with true by (symmetry; apply Z.leb_le; lia).
      cbn [andb].
      replace (160 <=? code d) with true by (symmetry; apply Z.leb_le; lia).
      replace (code d <=? 175) with true by (symmetry; now apply Z.leb_le).
      reflexivity.
Qed.

Lemma toLowerCase_plain (c : ascii) (rest : string) :
  plain c rest -> toLowerCase (String c rest) = String (lowerChar c) (toLowerCase rest).
Proof.
  intros Hp. destruct rest as [|d r]; [reflexivity|].
  cbn [toLowerCase]. 
  assert (Hno : (code c =? 208) && isCapitalTail d = false).
  { destruct Hp as [Hc|Hd].
    - apply Z.eqb_neq in Hc. now rewrite Hc.
    - cbn [firstChar] in Hd. rewrite Hd. apply andb_false_r. }
  unfold isCapitalTail in Hno.
  destruct (code c =? 208); [|reflexivity]. cbn [andb] in *.
  apply andb_false_iff in Hno as [Hno|Hno].
  - apply Z.leb_gt in Hno.
    replace (128 <=? code d) with false by (symmetry; apply Z.leb_gt; lia).
    replace (144 <=? code d) with false by (symmetry; apply Z.leb_gt; lia).
    replace (160 <=? code d) with false by (symmetry; apply Z.leb_gt; lia).
    reflexivity.
  - apply Z.leb_gt in Hno.
    replace (code d <=? 143) with false by (symmetry; apply Z.leb_gt; lia).
    replace (code d <=? 159) with false by (symmetry; apply Z.leb_gt; lia).
    replace (code d <=? 175) with false by (symmetry; apply Z.leb_gt; lia).
    rewrite !andb_false_r. reflexivity.
Qed.

Lemma plain_or_capital (c : ascii) (rest : string) :
  plain c rest \/ exists d r, rest = String d r /\ code c = 208 /\ isCapitalTail d = true.
Proof.
  destruct (Z.eq_dec (code c) 208) as [Hc|Hc]; [|left; now left].
  destruct rest as [|d r]; [left; now right|].
  destruct (isCapitalTail d) eqn:Hd; [|left; now right].
  right. now exists d, r.
Qed.


Lemma lowerChar_code (c : ascii) :
  code (lowerChar c) = if isUpper c then code c + 32 else code c.
Proof.
  unfold lowerChar. destruct (isUpper c) eqn:E; [|reflexivity].
  unfold isUpper in E. apply andb_true_iff in E as [H1 H2].
  apply Z.leb_le in H1, H2. apply code_fromCharCode. lia.
Qed.

Lemma upper_codes (c : ascii) : isUpper c = true -> 65 <= code c <= 90.
Proof.
  unfold isUpper. intros E. apply andb_true_iff in E as [H1 H2].
  apply Z.leb_le in H1, H2. lia.
Qed.

Lemma isUpper_outside (c : ascii) : code c < 65 \/ 90 < code c -> isUpper c = false.
Proof.
  intros H. unfold isUpper. apply andb_false_iff.
  destruct H; [left | right]; apply Z.leb_gt; lia.
Qed.

Lemma lowerChar_idem (c : ascii) : lowerChar (lowerChar c) = lowerChar c.
Proof.
  unfold lowerChar at 1. rewrite isUpper_outside; [reflexivity|].
  rewrite lowerChar_code. destruct (isUpper c) eqn:E.
  - apply upper_codes in E. lia.
  - unfold isUpper in E. apply andb_false_iff in E as [E|E]; apply Z.leb_gt in E; lia.
Qed.

Lemma lowerChar_high (c : ascii) : 128 <= code c -> lowerChar c = c.
Proof. intros H. unfold lowerChar. rewrite isUpper_outside; [reflexivity | lia]. Qed.

Lemma lowerChar_208 (c : ascii) : code (lowerChar c) = 208 -> code c = 208.
Proof.
  rewrite lowerChar_code. destruct (isUpper c) eqn:E; [|easy].
  apply upper_codes in E. lia.
Qed.

Lemma lowerChar_tail (c : ascii) :
  isCapitalTail c = false -> isCapitalTail (lowerChar c) = false.
Proof.
  unfold isCapitalTail. rewrite lowerChar_code.
  destruct (isUpper c) eqn:E; [|easy]. apply upper_codes in E. intros _.
  apply andb_false_iff. left. apply Z.leb_gt. lia.
Qed.

Lemma isSpace_range (c : ascii) : isSpace c = true -> code c <= 32.
Proof.
  unfold isSpace. intros H. apply orb_true_iff in H as [H|H].
  - apply andb_true_iff in H as [_ H]. apply Z.leb_le in H. lia.
  - apply Z.eqb_eq in H. lia.
Qed.

Lemma isSpace_high (c : ascii) : 33 <= code c -> isSpace c = false.
Proof.
  intros H. destruct (isSpace c) eqn:E; [|reflexivity].
  apply isSpace_range in E. lia.
Qed.

Lemma lowerChar_space (c : ascii) : isSpace (lowerChar c) = isSpace c.
Proof.
  unfold lowerChar. destruct (isUpper c) eqn:E; [|reflexivity].
  apply upper_codes in E.
  rewrite !isSpace_high; [reflexivity | lia |].
  rewrite code_fromCharCode; lia.
Qed.

Lemma capitalTail_range (d : ascii) : isCapitalTail d = true -> 128 <= code d <= 175.
Proof.
  unfold isCapitalTail. intros E. apply andb_true_iff in E as [H1 H2].
  apply Z.leb_le in H1, H2. lia.
Qed.

Lemma capitalTail_outside (d : ascii) :
  code d < 128 \/ 175 < code d -> isCapitalTail d = false.
Proof.
  intros H. unfold isCapitalTail. apply andb_false_iff.
  destruct H; [left | right]; apply Z.leb_gt; lia.
Qed.

Lemma smallFirst_code (d : ascii) : code (smallFirst d) = 208 \/ code (smallFirst d) = 209.
Proof.
  unfold smallFirst. destruct (code d <=? 143); [now right|].
  destruct (code d <=? 159); [now left | now right].
Qed.

(** The small letter's bytes: after 208 comes a byte from 176 on, and the
    second byte is never 208. *)
Lemma small_codes (d : ascii) :
  isCapitalTail d = true ->
  128 <= code (smallSecond d) <= 191 /\
  (code (smallFirst d) = 208 -> 176 <= code (smallSecond d)).
Proof.
  intros Hd. apply capitalTail_range in Hd. unfold smallFirst, smallSecond.
  destruct (code d <=? 143) eqn:E1.
  - apply Z.leb_le in E1. rewrite code_fromCharCode by lia. split; [lia|].
    intros H. now vm_compute in H.
  - apply Z.leb_gt in E1. destruct (code d <=? 159) eqn:E2.
    + apply Z.leb_le in E2. rewrite code_fromCharCode by lia. split; lia.
    + apply Z.leb_gt in E2. rewrite code_fromCharCode by lia. split; [lia|].
      intros H. now vm_compute in H.
Qed.

(** What [toLowerCase] writes first keeps the first character's kind. *)
Lemma first_toLowerCase (s : string) :
  match firstChar s, firstChar (toLowerCase s) with
  | Some c, Some c' =>
      isSpace c' = isSpace c /\ (isCapitalTail c = false -> isCapitalTail c' = false)
  | None, None => True
  | _, _ => False
  end.
Proof.
  destruct s as [|c rest]; [exact I|].
  destruct (plain_or_capital c rest) as [Hp|(d & r & -> & Hc & Hd)].
  - rewrite (toLowerCase_plain c rest Hp). cbn [firstChar]. split.
    + apply lowerChar_space.
    + apply lowerChar_tail.
  - rewrite (toLowerCase_capital c d r Hc Hd). cbn [firstChar]. split.
    + rewrite !isSpace_high; [reflexivity | lia |].
      destruct (smallFirst_code d) as [H|H]; lia.
    + intros _. apply capitalTail_outside.
      destruct (smallFirst_code d) as [H|H]; lia.
Qed.

Lemma plain_toLowerCase (c : ascii) (rest : string) :
  plain c rest -> plain (lowerChar c) (toLowerCase rest).
Proof.
  intros [Hc|Hd].
  - left. intros H. now apply lowerChar_208 in H.
  - right. pose proof (first_toLowerCase rest) as Hf.
    destruct (firstChar rest), (firstChar (toLowerCase rest)); try easy.
    now apply Hf.
Qed.

(** Lowering twice is lowering once. *)
Lemma toLowerCase_idem (s : string) : toLowerCase (toLowerCase s) = toLowerCase s.
Proof.
  remember (String.length s) as n eqn:Hn.
  revert s Hn. induction n as [n IH] using lt_wf_ind. intros s Hn.
  destruct s as [|c rest]; [reflexivity|].
  destruct (plain_or_capital c rest) as [Hp|(d & r & -> & Hc & Hd)].
  - rewrite (toLowerCase_plain c rest Hp).
    rewrite (toLowerCase_plain _ _ (plain_toLowerCase c rest Hp)).
    rewrite lowerChar_idem.
    now rewrite (IH (String.length rest)) by (cbn in Hn; lia || reflexivity).
  - rewrite (toLowerCase_capital c d r Hc Hd).
    destruct (small_codes d Hd) as [Hs Hf].
    rewrite toLowerCase_plain.
    + rewrite toLowerCase_plain by (left; lia).
      rewrite (IH (String.length r)) by (cbn in Hn; lia || reflexivity).
      rewrite (lowerChar_high (smallSecond d)) by lia.
      rewrite lowerChar_high; [reflexivity|].
      destruct (smallFirst_code d) as [H|H]; lia.
    + destruct (Z.eq_dec (code (smallFirst d)) 208) as [H|H]; [|now left].
      right. cbn [firstChar]. apply capitalTail_outside. specialize (Hf H). lia.
Qed.

Lemma trimStart_toLowerCase (s : string) :
  trimStart (toLowerCase s) = toLowerCase (trimStart s).
Proof.
  induction s as [|c rest IH]; [reflexivity|].
  cbn [trimStart]. destruct (isSpace c) eqn:Ec.
  - rewrite toLowerCase_plain.
    + cbn [trimStart]. now rewrite lowerChar_space, Ec.
    + left. apply isSpace_range in Ec. lia.
  - pose proof (first_toLowerCase (String c rest)) as Hf. cbn [firstChar] in Hf.
    destruct (toLowerCase (String c rest)) as [|c' t]; [easy|].
    cbn [firstChar] in Hf. destruct Hf as [Hf _]. cbn [trimStart].
    now rewrite Hf, Ec.
Qed.

Lemma trimEnd_kept (c : ascii) (rest : string) :
  isSpace c = false -> trimEnd (String c rest) = String c (trimEnd rest).
Proof. intros Hc. cbn [trimEnd]. rewrite Hc. now destruct (trimEnd rest). Qed.

Lemma first_trimEnd (s : string) :
  trimEnd s = EmptyString \/ firstChar (trimEnd s) = firstChar s.
Proof.
  destruct s as [|c rest]; [now left|]. cbn [trimEnd].
  destruct (trimEnd rest); [|now right].
  destruct (isSpace c); [now left | now right].
Qed.

Lemma toLowerCase_empty (s : string) : toLowerCase s = EmptyString -> s = EmptyString.
Proof.
  intros H. pose proof (first_toLowerCase s) as Hf. rewrite H in Hf.
  now destruct s.
Qed.

Lemma trimEnd_toLowerCase (s : string) :
  trimEnd (toLowerCase s) = toLowerCase (trimEnd s).
Proof.
  remember (String.length s) as n eqn:Hn.
  revert s Hn. induction n as [n IH] using lt_wf_ind. intros s Hn.
  destruct s as [|c rest]; [reflexivity|].
  destruct (plain_or_capital c rest) as [Hp|(d & r & -> & Hc & Hd)].
  - rewrite (toLowerCase_plain c rest Hp).
    assert (Hrest : trimEnd (toLowerCase rest) = toLowerCase (trimEnd rest))
      by (apply (IH (String.length rest)); cbn in Hn; lia || reflexivity).
    assert (Hp' : plain c (trimEnd rest)).
    { destruct Hp as [Hp|Hp]; [now left|]. right.
      destruct (first_trimEnd rest) as [E|E]; [now rewrite E | now rewrite E]. }
    cbn [trimEnd]. rewrite Hrest, lowerChar_space.
    destruct (trimEnd rest) as [|k ks] eqn:Ek.
    + cbn [toLowerCase]. now destruct (isSpace c).
    + rewrite (toLowerCase_plain c _ Hp').
      destruct (toLowerCase (String k ks)) eqn:El; [|reflexivity].
      now apply toLowerCase_empty in El.
  - rewrite (toLowerCase_capital c d r Hc Hd).
    destruct (small_codes d Hd) as [Hs _]. apply capitalTail_range in Hd as Hr.
    rewrite !trimEnd_kept; try (apply isSpace_high; lia).
    + rewrite (IH (String.length r)) by (cbn in Hn; lia || reflexivity).
      symmetry. apply toLowerCase_capital; assumption.
    + apply isSpace_high. destruct (smallFirst_code d) as [H|H]; lia.
Qed.

Lemma trim_toLowerCase (s : string) : trim (toLowerCase s) = toLowerCase (trim s).
Proof. unfold trim. now rewrite trimStart_toLowerCase, trimEnd_toLowerCase. Qed.

(** X21. A yes/no answer is read the same before and after the
    dispatcher's trimming and lowering, and after either of them alone: the
    handlers, which are handed the normalised text, read what [parseYesNo]
    reads in the message as it was typed. *)
Theorem yes_no_read_from_typed_text (messageText : string) :
  parseYesNo (toLowerCase (trim messageText)) = parseYesNo messageText /\
  parseYesNo (trim messageText) = parseYesNo messageText /\
  parseYesNo (toLowerCase messageText) = parseYesNo messageText.
Proof.
  unfold parseYesNo. cbv zeta.
  rewrite !trim_toLowerCase, !trim_idem, !toLowerCase_idem. easy.
Qed.

End NormalFormFacts.

(* ===================================================================== *)
(** ** Column letters: round trips *)
(* ===================================================================== *)

Module ColumnRoundTrips.
Import Js Columns ColumnFacts TextFacts.
Local Open Scope Z_scope.

Lemma letterLoop_app (s t : string) :
  forall acc, letterLoop acc (s +:+ t) = letterLoop (letterLoop acc s) t.
Proof.
  induction s as [|c s IH]; intros acc; [reflexivity|].
  change (String c s +:+ t) with (String c (s +:+ t)).
  cbn [letterLoop]. apply IH.
Qed.

Lemma isColumn_app (s t : string) :
  isColumn (s +:+ t) = isColumn s && isColumn t.
Proof.
  unfold isColumn. induction s as [|c s IH]; [reflexivity|].
  change (String c s +:+ t) with (String c (s +:+ t)).
  cbn [allChars]. rewrite IH. now rewrite andb_assoc.
Qed.

(** What the loop of [indexToColumnLetter] puts in front of [result]: the
    coordinate of capital letters whose value is [index]. *)
Lemma indexLoop_digits (fuel : nat) :
  forall index result,
    0 <= index <= Z.of_nat fuel ->
    exists s, indexLoop fuel index result = s +:+ result /\
              isColumn s = true /\ letterLoop 0 s = index /\
              (0 < index -> s <> EmptyString).
Proof.
  induction fuel as [|fuel IH]; intros index result Hi.
  - exists EmptyString. cbn [indexLoop letterLoop]. repeat split; lia.
  - cbn [indexLoop]. destruct (0 <? index) eqn:E.
    + apply Z.ltb_lt in E.
      assert (Hq : 0 <= (index - 1) / 26 <= Z.of_nat fuel).
      { split; [apply Z.div_pos; lia|].
        assert ((index - 1) / 26 <= index - 1) by (apply Z.div_le_upper_bound; lia).
        lia. }
      pose proof (Z.mod_pos_bound (index - 1) 26 ltac:(lia)) as Hr.
      pose proof (Z.div_mod (index - 1) 26 ltac:(lia)) as Hdm.
      set (ch := fromCharCode (65 + (index - 1) mod 26)).
      destruct (IH ((index - 1) / 26) (String ch result) Hq)
        as (s & Hs & Hcol & Hval & _).
      exists (s +:+ String ch EmptyString). split; [|split; [|split]].
      * rewrite Hs, append_assoc. reflexivity.
      * rewrite isColumn_app, Hcol. unfold isColumn. cbn [allChars andb].
        rewrite andb_true_r. apply isUpper_range. subst ch.
        rewrite code_fromCharCode by lia. lia.
      * rewrite letterLoop_app, Hval. cbn [letterLoop]. subst ch.
        rewrite code_fromCharCode by lia.
        generalize dependent ((index - 1) / 26). generalize dependent ((index - 1) mod 26).
        intros; lia.
      * intros _. destruct s; discriminate.
    + apply Z.ltb_ge in E. exists EmptyString. cbn [letterLoop]. repeat split; lia.
Qed.

(** A coordinate of capital letters is worth at least as much as it has
    letters. *)
Lemma letterLoop_length (s : string) :
  isColumn s = true -> Z.of_nat (String.length s) <= letterLoop 0 s.
Proof.
  induction s as [|c s IH]; intros Hs; [reflexivity|].
  cbn [allChars isColumn] in Hs. unfold isColumn in *. cbn [allChars] in Hs.
  apply andb_true_iff in Hs as [Hc Hs]. apply isUpper_range in Hc.
  specialize (IH Hs). cbn [letterLoop String.length].
  rewrite letterLoop_acc.
  assert (1 <= 26 ^ Z.of_nat (String.length s)) by (apply Z.pow_le_mono_r with (b := 0); lia).
  nia.
Qed.

(** A coordinate of twelve letters or more is worth more than 26^11: the
    coordinates up to that value have at most eleven letters. *)
Lemma short_coordinate (s : string) :
  isColumn s = true -> letterLoop 0 s <= 26 ^ 11 -> (String.length s <= 11)%nat.
Proof.
  intros Hs Hv. destruct s as [|c s]; [cbn; lia|].
  unfold isColumn in Hs. cbn [allChars] in Hs.
  apply andb_true_iff in Hs as [Hc Hs]. apply isUpper_range in Hc.
  pose proof (letterLoop_length s Hs) as Hlen.
  cbn [letterLoop] in Hv. rewrite letterLoop_acc in Hv.
  cbn [String.length].
  destruct (Nat.le_gt_cases (String.length s) 10) as [Hle|Hgt]; [lia|].
  assert (26 ^ 11 <= 26 ^ Z.of_nat (String.length s))
    by (apply Z.pow_le_mono_r; lia).
  nia.
Qed.

(** X1. Reading a column coordinate of capital letters as an index and
    printing the index gives the coordinate back, for the coordinates of
    up to eleven letters, on which the source's arithmetic in doubles is
    exact. *)
Theorem column_letter_round_trip (s : string) :
  isColumn s = true -> (String.length s <= 11)%nat ->
  indexToColumnLetter (columnLetterToIndex s) = s.
Proof.
  intros Hs _. unfold columnLetterToIndex.
  now apply indexToColumnLetter_letterLoop.
Qed.

Lemma column_letter_round_trip_witness :
  isColumn "AZ" = true /\ (String.length "AZ" <= 11)%nat /\
  indexToColumnLetter (columnLetterToIndex "AZ") = "AZ".
Proof.
  split; [reflexivity|]. split; [cbn; lia|].
  apply (column_letter_round_trip "AZ"); [reflexivity | cbn; lia].
Defined.

Lemma indexToColumnLetter_reads_back (n : Z) :
  0 <= n ->
  isColumn (indexToColumnLetter n) = true /\
  indexToColumnLetter n <> EmptyString /\
  columnLetterToIndex (indexToColumnLetter n) = n.
Proof.
  unfold indexToColumnLetter, columnLetterToIndex. intros Hn.
  destruct (indexLoop_digits (Z.to_nat (n + 1)) (n + 1) EmptyString ltac:(lia))
    as (s & Hs & Hcol & Hval & Hne).
  rewrite Hs, append_empty. repeat split; [assumption | apply Hne; lia | lia].
Qed.

(** X2. Every index from 0 up to 26^11 - 1 (the range in which the
    source's arithmetic in doubles is exact) prints as a non-empty
    coordinate of at most eleven capital letters that reads back as the
    same index; a negative index prints as the empty string. *)
Theorem column_index_round_trip :
  (forall n : Z,
     0 <= n < 26 ^ 11 ->
     isColumn (indexToColumnLetter n) = true /\
     indexToColumnLetter n <> EmptyString /\
     (String.length (indexToColumnLetter n) <= 11)%nat /\
     columnLetterToIndex (indexToColumnLetter n) = n) /\
  (forall p : positive, indexToColumnLetter (Z.neg p) = EmptyString).
Proof.
  split.
  - intros n Hn.
    destruct (indexToColumnLetter_reads_back n ltac:(lia)) as (Hcol & Hne & Hback).
    repeat split; try assumption.
    apply short_coordinate; [assumption|].
    unfold columnLetterToIndex in Hback. lia.
  - intros p. apply indexLoop_zero. lia.
Qed.

Lemma column_index_round_trip_witness :
  0 <= 701 < 26 ^ 11 /\ indexToColumnLetter 701 = "ZZ" /\
  columnLetterToIndex (indexToColumnLetter 701) = 701.
Proof.
  split; [lia|]. split; [reflexivity|].
  apply (proj1 column_index_round_trip 701). lia.
Defined.

Lemma getNextColumnLetter_valid (u : string) :
  isColumn u = true ->
  isColumn (getNextColumnLetter u) = true /\
  getNextColumnLetter u <> EmptyString /\
  columnLetterToIndex (getNextColumnLetter u) = columnLetterToIndex u + 1.
Proof.
  intros Hu. unfold getNextColumnLetter.
  pose proof (letterLoop_lower u 0 ltac:(lia) Hu) as Hlow.
  apply indexToColumnLetter_reads_back. unfold columnLetterToIndex. lia.
Qed.

(** X3. The next column of a coordinate of up to eleven capital letters
    (where the source's arithmetic in doubles is exact) is again a
    coordinate of capital letters, one index further: never the column
    itself, and different for different columns. *)
Theorem next_column_index (s : string) :
  isColumn s = true -> (String.length s <= 11)%nat ->
  isColumn (getNextColumnLetter s) = true /\
  getNextColumnLetter s <> EmptyString /\
  columnLetterToIndex (getNextColumnLetter s) = columnLetterToIndex s + 1 /\
  getNextColumnLetter s <> s /\
  forall t, isColumn t = true -> (String.length t <= 11)%nat ->
            getNextColumnLetter t = getNextColumnLetter s -> t = s.
Proof.
  intros Hs _.
  pose proof getNextColumnLetter_valid as Hnext.
  destruct (Hnext s Hs) as (Hcol & Hne & Hidx).
  repeat split; try assumption.
  - intros Heq. rewrite Heq in Hidx. lia.
  - intros t Ht _ Heq.
    destruct (Hnext t Ht) as (_ & _ & Hidxt). rewrite Heq, Hidx in Hidxt.
    rewrite <- (indexToColumnLetter_letterLoop t Ht),
            <- (indexToColumnLetter_letterLoop s Hs).
    unfold columnLetterToIndex in Hidxt. f_equal. lia.
Qed.

Lemma next_column_index_witness :
  isColumn "ZZ" = true /\ (String.length "ZZ" <= 11)%nat /\
  columnLetterToIndex (getNextColumnLetter "ZZ") = 702.
Proof.
  split; [reflexivity|]. split; [cbn; lia|].
  rewrite (proj1 (proj2 (proj2 (next_column_index "ZZ" eq_refl ltac:(cbn; lia))))).
  reflexivity.
Defined.

End ColumnRoundTrips.

(* ===================================================================== *)
(** ** The vote registry over time *)
(* ===================================================================== *)

Module RegistryFacts.
Import Js Poll Shapes PollFacts.

Lemma setAdd_idem (x : string) (s : list string) :
  setAdd x (setAdd x s) = setAdd x s.
Proof.
  unfold setAdd at 1, setHas. rewrite bool_decide_eq_true_2; [reflexivity|].
  apply elem_of_setAdd. now right.
Qed.

Lemma setDelete_idem (x : string) (s : list string) :
  setDelete x (setDelete x s) = setDelete x s.
Proof.
  unfold setDelete. induction s as [|y s IH]; [reflexivity|].
  rewrite (filter_cons _ y s). destruct (decide (y ≠ x)) as [Hy|Hy].
  - rewrite filter_cons. rewrite decide_True by assumption. now rewrite IH.
  - exact IH.
Qed.

Lemma setDelete_setAdd (x : string) (s : list string) :
  setDelete x (setAdd x (setDelete x s)) = setDelete x s.
Proof.
  unfold setAdd, setHas. rewrite bool_decide_eq_false_2.
  - unfold setDelete at 1. rewrite filter_app.
    rewrite filter_cons, decide_False by (intros Hn; now apply Hn).
    rewrite filter_nil, app_nil_r. apply setDelete_idem.
  - rewrite elem_of_setDelete. intros [Hn _]. now apply Hn.
Qed.

(** The set of option [o] after one turn of the loop over [option_ids]. *)
Lemma lookup_addVote (u : string) (vs : gmap nat (list string)) (o' o : nat) :
  addVote u vs o' !! o
  = if decide (o = o') then Some (setAdd u (default [] (vs !! o))) else vs !! o.
Proof.
  unfold addVote. destruct (decide (o = o')) as [->|Hne].
  - destruct (vs !! o') as [voters|] eqn:E.
    + rewrite E. now rewrite lookup_insert_eq.
    + rewrite lookup_insert_eq. now rewrite lookup_insert_eq.
  - destruct (vs !! o') as [voters|] eqn:E.
    + rewrite E. now rewrite lookup_insert_ne by congruence.
    + rewrite lookup_insert_eq. now rewrite !lookup_insert_ne by congruence.
Qed.

(** The set of option [o] after the whole loop. *)
Lemma lookup_foldl_addVote (u : string) (ids : list nat) :
  ∀ (vs : gmap nat (list string)) (o : nat),
    foldl (addVote u) vs ids !! o
    = if decide (o ∈ ids) then Some (setAdd u (default [] (vs !! o))) else vs !! o.
Proof.
  induction ids as [|o' ids IH]; intros vs o.
  - cbn [foldl]. rewrite decide_False; [reflexivity | apply not_elem_of_nil].
  - cbn [foldl]. rewrite IH, lookup_addVote.
    destruct (decide (o = o')) as [->|Hne].
    + rewrite (decide_True (P := o' ∈ o' :: ids)) by apply list_elem_of_here.
      destruct (decide (o' ∈ ids)); [|reflexivity].
      simpl. now rewrite setAdd_idem.
    + destruct (decide (o ∈ ids)) as [Hin|Hin].
      * rewrite decide_True by now apply list_elem_of_further. reflexivity.
      * rewrite decide_False; [reflexivity|].
        rewrite elem_of_cons. tauto.
Qed.

Lemma votesAfter_idem (u : string) (ids : list nat) (vs : gmap nat (list string)) :
  votesAfter u ids (votesAfter u ids vs) = votesAfter u ids vs.
Proof.
  apply map_eq. intros o. unfold votesAfter.
  rewrite !lookup_foldl_addVote. unfold removeFromAll.
  rewrite !lookup_fmap, lookup_foldl_addVote, lookup_fmap.
  destruct (decide (o ∈ ids)) as [Hin|Hin].
  - f_equal. destruct (vs !! o) as [voters|]; simpl.
    + now rewrite setDelete_setAdd.
    + change (setAdd u []) with (setAdd u (setDelete u [])).
      now rewrite (setDelete_setAdd u []).
  - destruct (vs !! o) as [voters|]; simpl; [|reflexivity].
    now rewrite setDelete_idem.
Qed.

(** X4. A poll_answer update that arrives twice changes the registry the
    same way as when it arrives once. *)
Theorem vote_replay_changes_nothing (polls : Registry) (pa : option PollAnswer) :
  onPollAnswer (onPollAnswer polls pa) pa = onPollAnswer polls pa.
Proof.
  destruct pa as [pa|]; [|reflexivity].
  destruct (identityOf pa) as [i|] eqn:Hid;
    [|now rewrite !(onPollAnswer_anonymous polls pa Hid)].
  destruct (polls !! poll_id pa) as [pd|] eqn:Hpd;
    [|now rewrite !(onPollAnswer_untracked polls pa Hpd)].
  rewrite (onPollAnswer_tracked polls pa pd i Hpd Hid).
  erewrite onPollAnswer_tracked; [|apply lookup_insert_eq | exact Hid].
  cbn [question options votes]. rewrite insert_insert_eq.
  f_equal. f_equal. apply votesAfter_idem.
Qed.

Lemma registryAfter_snoc (evs : list Event) (ev : Event) :
  registryAfter (evs ++ [ev]) = handleEvent (registryAfter evs) ev.
Proof. unfold registryAfter. now rewrite foldl_app. Qed.

(** What the poll_answer handler does to the entry of any poll id: the
    entry stays, with its question and options. *)
Lemma onPollAnswer_lookup (polls : Registry) (pa : option PollAnswer) (pid : string) :
  match polls !! pid, onPollAnswer polls pa !! pid with
  | Some pd, Some pd' => question pd' = question pd ∧ options pd' = options pd
  | None, None => True
  | _, _ => False
  end.
Proof.
  assert (Hsame : match polls !! pid, polls !! pid with
                  | Some pd, Some pd' =>
                      question pd' = question pd ∧ options pd' = options pd
                  | None, None => True
                  | _, _ => False
                  end) by (destruct (polls !! pid); tauto).
  destruct pa as [pa|]; [|exact Hsame].
  destruct (identityOf pa) as [i|] eqn:Hid;
    [|now rewrite (onPollAnswer_anonymous polls pa Hid)].
  destruct (polls !! poll_id pa) as [pd|] eqn:Hpd;
    [|now rewrite (onPollAnswer_untracked polls pa Hpd)].
  rewrite (onPollAnswer_tracked polls pa pd i Hpd Hid).
  destruct (decide (poll_id pa = pid)) as [<-|Hne].
  - rewrite Hpd, lookup_insert_eq. now cbn [question options].
  - now rewrite lookup_insert_ne.
Qed.

(** X5. The registry tracks exactly the polls that were created, each
    with a question and options that a poll command stored under its id:
    votes never add or drop a poll and never change its question or
    options, and nothing ever removes a poll. *)
Theorem registry_holds_created_polls (evs : list Event) (pid : string) :
  match registryAfter evs !! pid with
  | Some pd => PollCreated pid (question pd) (options pd) ∈ evs
  | None => ∀ q opts, PollCreated pid q opts ∉ evs
  end.
Proof.
  induction evs as [|ev evs IH] using rev_ind.
  - unfold registryAfter. cbn [foldl]. rewrite lookup_empty.
    intros q opts. apply not_elem_of_nil.
  - rewrite registryAfter_snoc.
    destruct ev as [pid' q' opts' | pa]; cbn [handleEvent].
    + unfold storePoll. destruct (decide (pid' = pid)) as [->|Hne].
      * rewrite lookup_insert_eq. cbn [question options].
        apply elem_of_app. right. apply list_elem_of_singleton. reflexivity.
      * rewrite lookup_insert_ne by assumption.
        destruct (registryAfter evs !! pid) as [pd|].
        -- apply elem_of_app. now left.
        -- intros q opts Hin. apply elem_of_app in Hin as [Hin|Hin].
           ++ now apply (IH q opts).
           ++ apply list_elem_of_singleton in Hin. congruence.
    + pose proof (onPollAnswer_lookup (registryAfter evs) pa pid) as Hl.
      destruct (registryAfter evs !! pid) as [pd|],
               (onPollAnswer (registryAfter evs) pa !! pid) as [pd'|];
        try contradiction.
      * destruct Hl as [-> ->]. apply elem_of_app. now left.
      * intros q opts Hin. apply elem_of_app in Hin as [Hin|Hin].
        -- now apply (IH q opts).
        -- apply list_elem_of_singleton in Hin. discriminate.
Qed.








End RegistryFacts.

(* ===================================================================== *)
(** ** The poll command: theorems *)
(* ===================================================================== *)

Module PollCommandFacts.
Import Js Host Poll SheetHandlers PollCommand Shapes TextFacts.
Local Open Scope list_scope.

Lemma splitOn_clean (sep : ascii → bool) (s : string) :
  ∀ cur, allChars (λ c, negb (sep c)) cur = true →
         Forall (λ p, allChars (λ c, negb (sep c)) p = true) (splitOn sep s cur).
Proof.
  induction s as [|c s IH]; intros cur Hcur; cbn [splitOn].
  - now constructor.
  - destruct (sep c) eqn:E.
    + constructor; [assumption | now apply IH].
    + apply IH. rewrite allChars_app, Hcur. cbn [allChars]. now rewrite E.
Qed.

Lemma pollParts_parts (text : string) : Forall pollPart (pollParts text).
Proof.
  unfold pollParts. apply List.Forall_forall. intros p Hp.
  apply List.filter_In in Hp as [Hp Hne].
  apply List.in_map_iff in Hp as (piece & <- & Hpiece).
  pose proof (splitOn_clean isPollSeparator (trim (dropPollCommand text))
                EmptyString eq_refl) as Hall.
  rewrite List.Forall_forall in Hall. specialize (Hall _ Hpiece).
  split; [|split].
  - unfold nonEmpty in Hne. apply negb_true_iff in Hne.
    intros Heq. rewrite Heq in Hne. discriminate.
  - apply trim_idem.
  - now apply allChars_trim.
Qed.

Lemma pollRequest_parts (text : option string) :
  match pollRequest text with
  | SendPoll question options =>
      options ≠ [] ∧ Forall pollPart (question :: options)
  | Usage message => message ≠ pollNoOption
  end.
Proof.
  unfold pollRequest. destruct (truthy text); [|discriminate].
  pose proof (pollParts_parts (default EmptyString text)) as Hparts.
  destruct (pollParts (default EmptyString text)) as [|q [|o opts]];
    [discriminate | discriminate |].
  cbn [length Nat.ltb Nat.leb]. split; [discriminate | exact Hparts].
Qed.

(** X7. When the poll command goes on to create a poll, the question and
    every option are non-empty, trimmed and free of separators, and there
    is at least one option; the reply that asks for at least one option is
    never sent.  Whatever [sendPoll] answers, the command leaves the
    registry as it was or stores one such poll under the non-empty id
    [sendPoll] returned. *)
Theorem poll_command_parts (text : option string) :
  match pollRequest text with
  | SendPoll question options =>
      options ≠ [] ∧ Forall pollPart (question :: options)
  | Usage message => message ≠ pollNoOption
  end ∧
  ∀ sendPoll activePolls,
    fst (onPollCommand text sendPoll activePolls) = activePolls ∨
    ∃ pollId question options,
      pollId ≠ EmptyString ∧ options ≠ [] ∧ Forall pollPart (question :: options) ∧
      sendPoll question options = Ok (Some pollId) ∧
      fst (onPollCommand text sendPoll activePolls)
      = storePoll pollId question options activePolls.
Proof.
  pose proof (pollRequest_parts text) as Hparts. split; [exact Hparts|].
  intros sendPoll activePolls. unfold onPollCommand.
  destruct (pollRequest text) as [message|question options]; [now left|].
  destruct (sendPoll question options) as [[[|c pollId]|]|e] eqn:Hsent;
    cbn [truthy fst default]; try (now left).
  right. exists (String c pollId), question, options.
  destruct Hparts as [Hne Hall]. repeat split; solve [assumption | discriminate].
Qed.

End PollCommandFacts.

(* ===================================================================== *)
(** ** Usernames: theorems *)
(* ===================================================================== *)

Module UsernameFacts.
Import Js SheetHandlers Shapes TextFacts.
Local Open Scope list_scope.

Lemma notSeparator_notSpace (c : ascii) : notSeparator c = true → notSpace c = true.
Proof.
  unfold notSeparator, notSpace, isSeparator. rewrite !negb_true_iff.
  destruct (isSpace c); [discriminate | reflexivity].
Qed.

(** No piece holds a separator. *)
Lemma pieces_notSeparator (s : string) :
  ∀ cur, allChars notSeparator cur = true →
         Forall (λ p, allChars notSeparator p = true) (pieces s cur).
Proof.
  induction s as [|c s IH]; intros cur Hcur; cbn [pieces].
  - now constructor.
  - destruct (isSeparator c) eqn:E.
    + constructor; [assumption | now apply IH].
    + apply IH. rewrite allChars_app, Hcur. cbn [allChars].
      unfold notSeparator. now rewrite E.
Qed.

(** A word without separators is read into the current piece. *)
Lemma pieces_word (w : string) :
  ∀ rest cur, allChars notSeparator w = true →
              pieces (w +:+ rest) cur = pieces rest (cur +:+ w).
Proof.
  induction w as [|c w IH]; intros rest cur Hw.
  - now rewrite append_empty.
  - cbn [allChars] in Hw. apply andb_true_iff in Hw as [Hc Hw].
    rewrite append_cons. cbn [pieces].
    unfold notSeparator in Hc. apply negb_true_iff in Hc. rewrite Hc.
    rewrite (IH _ _ Hw), append_assoc. reflexivity.
Qed.

Lemma stripAts_suffix (p : ascii → bool) (s : string) :
  allChars p s = true → allChars p (stripAts s) = true.
Proof.
  induction s as [|c s IH]; [reflexivity|].
  cbn [allChars stripAts]. intros H.
  apply andb_true_iff in H as [Hc Hs].
  destruct (Ascii.eqb_spec c "@") as [->|Hne].
  - now apply IH.
  - replace (match c with
             | "@"%char => stripAts s
             | _ => String c s end) with (String c s).
    + cbn [allChars]. now rewrite Hc, Hs.
    + destruct c as [[] [] [] [] [] [] [] []]; try reflexivity. now destruct Hne.
Qed.

Lemma stripAts_idem (s : string) : stripAts (stripAts s) = stripAts s.
Proof.
  induction s as [|c s IH]; [reflexivity|].
  destruct (Ascii.eqb_spec c "@") as [->|Hne].
  - exact IH.
  - assert (E : stripAts (String c s) = String c s).
    { cbn [stripAts].
      destruct c as [[] [] [] [] [] [] [] []]; try reflexivity. now destruct Hne. }
    now rewrite !E.
Qed.

Lemma nonEmpty_true (s : string) : nonEmpty s = true ↔ s ≠ EmptyString.
Proof.
  unfold nonEmpty. rewrite negb_true_iff.
  destruct (String.eqb_spec s EmptyString); split; congruence.
Qed.

Lemma parsed_shape (text : string) :
  Forall usernameShape (parseUsernames text).
Proof.
  unfold parseUsernames. apply List.Forall_forall. intros u Hu.
  apply List.filter_In in Hu as [Hu Hne].
  apply List.in_map_iff in Hu as (part & <- & Hpart).
  apply List.filter_In in Hpart as [Hpart _].
  apply List.in_map_iff in Hpart as (piece & <- & Hpiece).
  pose proof (pieces_notSeparator text EmptyString eq_refl) as Hall.
  rewrite List.Forall_forall in Hall. specialize (Hall _ Hpiece).
  rewrite trim_idem in *.
  destruct (nonEmpty (stripAts (trim piece))) eqn:E; [|discriminate].
  exists (stripAts (trim piece)). split; [reflexivity|]. split; [|split].
  - now apply nonEmpty_true.
  - apply stripAts_idem.
  - now apply stripAts_suffix, allChars_trim.
Qed.

(** The pieces of separators only are empty. *)
Lemma pieces_separators (ws : string) :
  ∀ rest cur, allChars isSeparator ws = true → ws ≠ EmptyString →
    List.filter nonEmpty (map trim (pieces (ws +:+ rest) cur))
    = List.filter nonEmpty [trim cur]
      ++ List.filter nonEmpty (map trim (pieces rest EmptyString)).
Proof.
  induction ws as [|c ws IH]; intros rest cur Hws Hne; [contradiction|].
  cbn [allChars] in Hws. apply andb_true_iff in Hws as [Hc Hws].
  rewrite append_cons. cbn [pieces]. rewrite Hc.
  destruct ws as [|d ws].
  - change (EmptyString +:+ rest) with rest. cbn [map List.filter].
    destruct (nonEmpty (trim cur)); reflexivity.
  - cbn [map List.filter]. rewrite (IH rest EmptyString Hws ltac:(discriminate)).
    destruct (nonEmpty (trim cur)); reflexivity.
Qed.

(** X8. Every username that [parseUsernames] returns is "@" followed by a
    non-empty name without a leading "@" and without separators (white
    space, comma, semicolon); a text of separators only gives none. *)
Theorem parseUsernames_shape (text : string) :
  Forall usernameShape (parseUsernames text) ∧
  (allChars isSeparator text = true → parseUsernames text = []).
Proof.
  split; [apply parsed_shape|].
  intros Hsep. unfold parseUsernames.
  destruct text as [|c text]; [reflexivity|].
  rewrite <- (append_empty (String c text)).
  rewrite (pieces_separators _ EmptyString EmptyString Hsep ltac:(discriminate)).
  reflexivity.
Qed.

Lemma usernameShape_word (u : string) :
  usernameShape u →
  allChars notSeparator u = true ∧ u ≠ EmptyString ∧
  (let withoutAt := stripAts (trim u) in
   if nonEmpty withoutAt then "@" +:+ withoutAt else EmptyString) = u.
Proof.
  intros (name & -> & Hne & Hstrip & Hsep).
  assert (Hall : allChars notSeparator ("@" +:+ name) = true).
  { change ("@" +:+ name) with (String "@" name). cbn [allChars]. now rewrite Hsep. }
  split; [exact Hall|]. split; [discriminate|].
  rewrite trim_noSpace
    by (eapply allChars_weaken; [apply notSeparator_notSpace | exact Hall]).
  cbn zeta. change ("@" +:+ name) with (String "@" name). cbn [stripAts].
  rewrite Hstrip. apply nonEmpty_true in Hne. now rewrite Hne.
Qed.

(** The usernames of a list of well-shaped usernames written out with a
    separator between them. *)
Lemma parts_of_join (sep : string) (l : list string) :
  allChars isSeparator sep = true → sep ≠ EmptyString →
  Forall usernameShape l →
  ∀ cur, allChars notSeparator cur = true →
    List.filter nonEmpty (map trim (pieces (join sep l) cur))
    = match l with
      | [] => List.filter nonEmpty [trim cur]
      | u :: rest => (cur +:+ u) :: rest
      end.
Proof.
  intros Hsep Hne Hl. induction Hl as [|u l Hu Hl IH]; intros cur Hcur.
  - reflexivity.
  - destruct (usernameShape_word u Hu) as (Hword & Hune & _).
    assert (Hcu : allChars notSeparator (cur +:+ u) = true)
      by now rewrite allChars_app, Hcur, Hword.
    assert (Hkeep : List.filter nonEmpty [trim (cur +:+ u)] = [cur +:+ u]).
    { rewrite trim_noSpace
        by (eapply allChars_weaken; [apply notSeparator_notSpace | exact Hcu]).
      cbn [List.filter].
      replace (nonEmpty (cur +:+ u)) with true; [reflexivity|].
      symmetry. apply nonEmpty_true. destruct cur; [exact Hune | discriminate]. }
    destruct l as [|v l].
    + cbn [join]. rewrite <- (append_empty u) at 1.
      rewrite (pieces_word u EmptyString cur Hword). cbn [pieces map]. exact Hkeep.
    + change (join sep (u :: v :: l)) with (u +:+ sep +:+ join sep (v :: l)).
      rewrite (pieces_word u _ cur Hword).
      rewrite (pieces_separators sep _ _ Hsep Hne), Hkeep.
      rewrite (IH EmptyString eq_refl). reflexivity.
Qed.

(** X9. Usernames of that shape written out with a separator between them
    (the replies use " " and ", ") parse back to the same list; so the
    written form of a parse result parses to the same result. *)
Theorem parseUsernames_join (sep : string) :
  allChars isSeparator sep = true → sep ≠ EmptyString →
  (∀ l, Forall usernameShape l → parseUsernames (join sep l) = l) ∧
  (∀ text, parseUsernames (join sep (parseUsernames text)) = parseUsernames text).
Proof.
  intros Hsep Hne.
  assert (Hback : ∀ l, Forall usernameShape l → parseUsernames (join sep l) = l).
  { intros l Hl. unfold parseUsernames.
    rewrite (parts_of_join sep l Hsep Hne Hl EmptyString eq_refl).
    destruct l as [|u l]; [reflexivity|].
    change (EmptyString +:+ u) with u.
    clear -Hl. generalize (u :: l) Hl. clear. intros l Hl.
    induction Hl as [|v l Hv Hl IH]; [reflexivity|].
    destruct (usernameShape_word v Hv) as (_ & Hvne & Hf).
    cbn [map List.filter]. cbn zeta in Hf. rewrite Hf.
    apply nonEmpty_true in Hvne. now rewrite Hvne, IH. }
  split; [exact Hback|].
  intros text. apply Hback, parsed_shape.
Qed.

Lemma parseUsernames_join_witness :
  parseUsernames (join ", " (parseUsernames "bob, @@alice;carol"))
  = parseUsernames "bob, @@alice;carol".
Proof.
  apply (parseUsernames_join ", "); [reflexivity | discriminate].
Defined.

End UsernameFacts.

(* ===================================================================== *)
(** ** Matched rows: theorems *)
(* ===================================================================== *)

Module NicknameRowFacts.
Import Js Host Constants Columns Session Poll Machine Sheets BotHelpers Shapes Run.
Import MatchingFacts OverrideFacts.
Local Open Scope list_scope.

Lemma keys_mapSet {V} (k : string) (v : V) (m : list (string * V)) :
  mapKeys (mapSet k v m) = if bool_decide (k ∈ mapKeys m) then mapKeys m else mapKeys m ++ [k].
Proof.
  unfold mapKeys. induction m as [|[k' v'] rest IH]; cbn [mapSet map fst].
  - rewrite bool_decide_eq_false_2; [reflexivity | apply not_elem_of_nil].
  - destruct (String.eqb_spec k' k) as [->|Hne].
    + rewrite bool_decide_eq_true_2 by apply list_elem_of_here. reflexivity.
    + cbn [map fst]. rewrite IH. case_bool_decide as Hin.
      * rewrite bool_decide_eq_true_2 by now apply list_elem_of_further.
        reflexivity.
      * rewrite bool_decide_eq_false_2; [reflexivity|].
        rewrite elem_of_cons. intros [->|Hin']; [now apply Hne | now apply Hin].
Qed.

Lemma NoDup_keys_mapSet {V} (k : string) (v : V) (m : list (string * V)) :
  NoDup (mapKeys m) → NoDup (mapKeys (mapSet k v m)).
Proof.
  intros Hnd. rewrite keys_mapSet. case_bool_decide as Hin; [assumption|].
  apply NoDup_app. split; [assumption|]. split; [|apply NoDup_singleton].
  intros x Hx Hx'. apply list_elem_of_singleton in Hx'. now subst x.
Qed.

Lemma mapSet_has {V} (k : string) (v : V) (m : list (string * V)) :
  (k, v) ∈ mapSet k v m.
Proof.
  induction m as [|[k' v'] rest IH]; cbn [mapSet].
  - apply list_elem_of_here.
  - destruct (String.eqb_spec k' k) as [->|Hne].
    + apply list_elem_of_here.
    + now apply list_elem_of_further.
Qed.

Lemma mapSet_keeps_key {V} (k k0 : string) (v v0 : V) (m : list (string * V)) :
  (k0, v0) ∈ m → ∃ v1, (k0, v1) ∈ mapSet k v m.
Proof.
  induction m as [|[k' v'] rest IH]; cbn [mapSet]; intros Hin.
  - now apply elem_of_nil in Hin.
  - destruct (String.eqb_spec k' k) as [->|Hne].
    + apply elem_of_cons in Hin as [[= -> ->]|Hin].
      * exists v. apply list_elem_of_here.
      * exists v0. now apply list_elem_of_further.
    + apply elem_of_cons in Hin as [[= -> ->]|Hin].
      * exists v'. apply list_elem_of_here.
      * destruct (IH Hin) as [v1 Hv1]. exists v1. now apply list_elem_of_further.
Qed.

(** In a map, a key has one value. *)
Lemma NoDup_keys_functional {V} (m : list (string * V)) (k : string) (v1 v2 : V) :
  NoDup (mapKeys m) → (k, v1) ∈ m → (k, v2) ∈ m → v1 = v2.
Proof.
  unfold mapKeys. induction m as [|[k' v'] rest IH]; intros Hnd H1 H2.
  - now apply elem_of_nil in H1.
  - cbn [map fst] in Hnd. apply NoDup_cons in Hnd as [Hk' Hnd].
    apply elem_of_cons in H1 as [H1|H1], H2 as [H2|H2].
    + congruence.
    + injection H1 as -> ->. destruct Hk'. apply list_elem_of_fmap. now exists (k', v2).
    + injection H2 as -> ->. destruct Hk'. apply list_elem_of_fmap. now exists (k', v1).
    + now apply IH.
Qed.

Lemma mapGet_complete {V} (k : string) (v : V) (m : list (string * V)) :
  (k, v) ∈ m → is_Some (mapGet k m).
Proof.
  induction m as [|[k' v'] rest IH]; intros Hin.
  - now apply elem_of_nil in Hin.
  - cbn [mapGet]. destruct (String.eqb_spec k' k) as [->|Hne]; [now eexists|].
    apply elem_of_cons in Hin as [[= -> ->]|Hin]; [now destruct Hne | now apply IH].
Qed.

Lemma normalizedNicknames_complete (nicknames : list string) (k : string) :
  k ∈ nicknames → is_Some (mapGet (normalizeNickname k) (normalizedNicknames nicknames)).
Proof.
  unfold normalizedNicknames.
  assert (Hgen : ∀ (l : list string) (acc : list (string * string)),
    (k ∈ l ∨ ∃ o, (normalizeNickname k, o) ∈ acc) →
    ∃ o, (normalizeNickname k, o)
         ∈ foldl (λ m nick, mapSet (normalizeNickname nick) nick m) acc l).
  { induction l as [|nick l IH]; intros acc Hk; cbn [foldl].
    - destruct Hk as [Hk|Hk]; [now apply elem_of_nil in Hk | exact Hk].
    - apply IH. destruct Hk as [Hk|[o Ho]].
      + apply elem_of_cons in Hk as [->|Hk]; [|now left].
        right. exists nick. apply mapSet_has.
      + right. eapply mapSet_keeps_key. exact Ho. }
  intros Hk. destruct (Hgen nicknames [] (or_introl Hk)) as [o Ho].
  eapply mapGet_complete. exact Ho.
Qed.

Section Rows.
Context `{JsNumber} `{!SheetsApi}.

Lemma matchRow_cases (nicknames : list string) (acc : list (string * nat))
    (row : list Cell) (index : nat) :
  matchRow (normalizedNicknames nicknames) acc row index = acc ∨
  ∃ k, recorded nicknames k ∧ k ∈ nicknames ∧
       jsTruthy (row !! 0%nat) = true ∧
       normalizeNickname (jsString (row !! 0%nat)) = normalizeNickname k ∧
       matchRow (normalizedNicknames nicknames) acc row index
       = mapSet k (SHEET_DATA_FIRST_ROW + index)%nat acc.
Proof.
  unfold matchRow. destruct (jsTruthy (row !! 0%nat)) eqn:Ht; [|now left].
  destruct (mapGet _ _) as [orig|] eqn:Hget; [|now left].
  destruct (truthy (Some orig)) eqn:Horig; [|now left].
  right. exists orig.
  pose proof (mapGet_Some _ _ _ Hget) as Hin.
  apply normalizedNicknames_sound in Hin as [Hin Hnorm].
  repeat split; try assumption; congruence.
Qed.

Lemma matchRow_recorded (nicknames : list string) (acc : list (string * nat))
    (row : list Cell) (index : nat) (k : string) :
  recorded nicknames k →
  jsTruthy (row !! 0%nat) = true →
  normalizeNickname (jsString (row !! 0%nat)) = normalizeNickname k →
  matchRow (normalizedNicknames nicknames) acc row index
  = mapSet k (SHEET_DATA_FIRST_ROW + index)%nat acc.
Proof.
  intros [Hget Hk] Ht Hn. unfold matchRow. now rewrite Ht, Hn, Hget, Hk.
Qed.

(** The scan over the rows, with what it keeps true. *)
Lemma matchRows_map (nicknames : list string) (rows : list (list Cell)) :
  ∀ (base : nat) (acc : list (string * nat)),
    NoDup (mapKeys acc) →
    (∀ k r, (k, r) ∈ acc → recorded nicknames k ∧ k ∈ nicknames) →
    let result := matchRows (normalizedNicknames nicknames) rows base acc in
    NoDup (mapKeys result) ∧
    (∀ k r, (k, r) ∈ result → recorded nicknames k ∧ k ∈ nicknames) ∧
    (∀ k r, (k, r) ∈ acc → ∃ r', (k, r') ∈ result) ∧
    (∀ k r j, (k, r) ∈ result → rowMatches rows j k →
              (SHEET_DATA_FIRST_ROW + (base + j) ≤ r)%nat) ∧
    (∀ k j, recorded nicknames k → rowMatches rows j k → ∃ r, (k, r) ∈ result).
Proof.
  induction rows as [|row rest IH]; intros base acc Hnd Hacc; cbn [matchRows].
  - cbn zeta. split; [exact Hnd|]. split; [exact Hacc|]. split; [|split].
    + intros k r Hin. now exists r.
    + intros k r j _ (row & Hlook & _). now rewrite lookup_nil in Hlook.
    + intros k j _ (row & Hlook & _). now rewrite lookup_nil in Hlook.
  - set (acc' := matchRow (normalizedNicknames nicknames) acc row base).
    assert (Hnd' : NoDup (mapKeys acc')).
    { subst acc'. destruct (matchRow_cases nicknames acc row base)
        as [->|(k & _ & _ & _ & _ & ->)]; [assumption|].
      now apply NoDup_keys_mapSet. }
    assert (Hacc' : ∀ k r, (k, r) ∈ acc' → recorded nicknames k ∧ k ∈ nicknames).
    { subst acc'. destruct (matchRow_cases nicknames acc row base)
        as [->|(k & Hrec & Hk & _ & _ & ->)]; [assumption|].
      intros k' r' Hin. apply elem_of_mapSet in Hin as [[= -> ->]|Hin]; [now split|].
      now apply (Hacc k' r'). }
    assert (Hgrow : ∀ k r, (k, r) ∈ acc → ∃ r', (k, r') ∈ acc').
    { subst acc'. destruct (matchRow_cases nicknames acc row base)
        as [->|(k & _ & _ & _ & _ & ->)]; [eauto|].
      intros k' r' Hin. eapply mapSet_keeps_key. exact Hin. }
    destruct (IH (S base) acc' Hnd' Hacc') as (Hn & Hrec & Hkeep & Hlast & Hfound).
    cbn zeta. split; [exact Hn|]. split; [exact Hrec|]. split; [|split].
    + intros k r Hin. destruct (Hgrow k r Hin) as [r' Hr']. now apply (Hkeep k r').
    + intros k r [|j] Hin Hmatch.
      * destruct Hmatch as (row' & [= <-] & Ht & Hnorm).
        destruct (Hrec k r Hin) as [Hk _].
        assert (Hset : (k, (SHEET_DATA_FIRST_ROW + base)%nat) ∈ acc').
        { subst acc'. rewrite (matchRow_recorded nicknames acc row base k Hk Ht Hnorm).
          apply mapSet_has. }
        destruct (Hkeep _ _ Hset) as [r' Hr'].
        assert (r' = r) as -> by (eapply NoDup_keys_functional; eassumption).
        clear -Hset Hr' Hnd' Hlast Hkeep Hn IH Hacc'.
        (* the row recorded for k never decreases *)
        assert (Hmono : ∀ rest' base' acc0 k0 r0,
                  NoDup (mapKeys acc0) →
                  (k0, r0) ∈ acc0 → (SHEET_DATA_FIRST_ROW + base ≤ r0)%nat →
                  (base ≤ base')%nat →
                  ∀ r1, (k0, r1) ∈ matchRows (normalizedNicknames nicknames) rest' base' acc0 →
                        (SHEET_DATA_FIRST_ROW + base ≤ r1)%nat).
        { clear. induction rest' as [|row' rest' IH']; intros base' acc0 k0 r0 Hnd0 Hin0 Hle Hb r1 Hin1;
            cbn [matchRows] in Hin1.
          - assert (r1 = r0) as -> by (eapply NoDup_keys_functional; eassumption). exact Hle.
          - destruct (matchRow_cases nicknames acc0 row' base')
              as [E|(k & _ & _ & _ & _ & E)]; rewrite E in Hin1.
            + eapply IH'; [exact Hnd0 | exact Hin0 | exact Hle | | exact Hin1]. lia.
            + destruct (decide (k = k0)) as [->|Hne].
              * eapply (IH' (S base') (mapSet k0 (SHEET_DATA_FIRST_ROW + base')%nat acc0)
                          k0 (SHEET_DATA_FIRST_ROW + base')%nat);
                  [now apply NoDup_keys_mapSet | apply mapSet_has | lia | lia | exact Hin1].
              * assert (Hin0' : (k0, r0) ∈ mapSet k (SHEET_DATA_FIRST_ROW + base')%nat acc0).
                { clear -Hin0 Hne. induction acc0 as [|[k' v'] rest0 IH0]; cbn [mapSet].
                  - now apply elem_of_nil in Hin0.
                  - destruct (String.eqb_spec k' k) as [->|Hne'].
                    + apply elem_of_cons in Hin0 as [[= <- <-]|Hin0]; [now destruct Hne|].
                      now apply list_elem_of_further.
                    + apply elem_of_cons in Hin0 as [[= <- <-]|Hin0];
                        [apply list_elem_of_here|].
                      apply list_elem_of_further. now apply IH0. }
                eapply (IH' (S base') (mapSet k (SHEET_DATA_FIRST_ROW + base')%nat acc0) k0 r0);
                  [now apply NoDup_keys_mapSet | exact Hin0' | exact Hle | lia | exact Hin1]. }
        replace (base + 0)%nat with base by lia.
        eapply (Hmono rest (S base) acc' k); [exact Hnd' | exact Hset | lia | lia | exact Hr'].
      * destruct Hmatch as (row' & Hlook & Ht & Hnorm).
        replace (base + S j)%nat with (S base + j)%nat by lia.
        apply (Hlast k r j Hin). exists row'. now split.
    + intros k [|j] Hk Hmatch.
      * destruct Hmatch as (row' & [= <-] & Ht & Hnorm).
        apply (Hkeep k (SHEET_DATA_FIRST_ROW + base)%nat).
        subst acc'. rewrite (matchRow_recorded nicknames acc row base k Hk Ht Hnorm).
        apply mapSet_has.
      * destruct Hmatch as (row' & Hlook & Ht & Hnorm).
        apply (Hfound k j Hk). exists row'. now split.
Qed.

Lemma nicknameRowsOf_map (nicknames : list string) (rows : list (list Cell)) :
  let result := nicknameRowsOf nicknames rows in
  NoDup (mapKeys result) ∧
  (∀ k r, (k, r) ∈ result → recorded nicknames k ∧ k ∈ nicknames) ∧
  (∀ k r j, (k, r) ∈ result → rowMatches rows j k →
            (SHEET_DATA_FIRST_ROW + j ≤ r)%nat) ∧
  (∀ k j, recorded nicknames k → rowMatches rows j k → ∃ r, (k, r) ∈ result).
Proof.
  destruct (matchRows_map nicknames rows 0 [] (NoDup_nil_2 (A := string)))
    as (Hn & Hrec & _ & Hlast & Hfound).
  { intros k r Hin. now apply elem_of_nil in Hin. }
  cbn zeta. split; [exact Hn|]. split; [exact Hrec|]. split; [exact Hlast | exact Hfound].
Qed.

(** X10. The rows that [findNicknameRows] computes form a map: no
    nickname is a key twice, every key is one of the nicknames given, and
    there are at most as many entries as nicknames; stored in the session
    as its list of entries, the map is read back as it was. *)
Theorem nickname_rows_form_a_map (nicknames : list string) (rows : list (list Cell)) :
  NoDup (mapKeys (nicknameRowsOf nicknames rows)) ∧
  (∀ k, k ∈ mapKeys (nicknameRowsOf nicknames rows) → k ∈ nicknames) ∧
  (length (nicknameRowsOf nicknames rows) ≤ length nicknames)%nat ∧
  mapOfEntries (nicknameRowsOf nicknames rows) = nicknameRowsOf nicknames rows.
Proof.
  destruct (nicknameRowsOf_map nicknames rows) as (Hn & Hrec & _ & _).
  assert (Hsub : ∀ k, k ∈ mapKeys (nicknameRowsOf nicknames rows) → k ∈ nicknames).
  { intros k Hk. unfold mapKeys in Hk. apply list_elem_of_fmap in Hk as ([k' r] & -> & Hin).
    now apply (Hrec k' r). }
  split; [exact Hn|]. split; [exact Hsub|].
  split; [|now apply mapOfEntries_entries].
  replace (length (nicknameRowsOf nicknames rows))
    with (length (mapKeys (nicknameRowsOf nicknames rows)))
    by (unfold mapKeys; apply length_map).
  apply submseteq_length, NoDup_submseteq; assumption.
Qed.

(** X11. When several rows of the sheet hold the same nickname, the row
    recorded for it is the last of them: no matching row lies below the
    recorded one. *)
Theorem nickname_last_row_wins (nicknames : list string) (rows : list (list Cell))
    (k : string) (r j : nat) :
  (k, r) ∈ nicknameRowsOf nicknames rows →
  rowMatches rows j k →
  (SHEET_DATA_FIRST_ROW + j ≤ r)%nat.
Proof.
  destruct (nicknameRowsOf_map nicknames rows) as (_ & _ & Hlast & _).
  apply Hlast.
Qed.

(** X12. Every non-empty nickname given whose normalized form equals the
    normalized cell of some row is found: the result has an entry for a
    spelling of the same identity. *)
Theorem nickname_with_row_is_found (nicknames : list string) (rows : list (list Cell))
    (k : string) (j : nat) :
  Forall (λ n, n ≠ EmptyString) nicknames →
  k ∈ nicknames →
  rowMatches rows j k →
  ∃ k' r, (k', r) ∈ nicknameRowsOf nicknames rows ∧
          k' ∈ nicknames ∧ normalizeNickname k' = normalizeNickname k.
Proof.
  intros Hne Hk Hmatch.
  destruct (nicknameRowsOf_map nicknames rows) as (_ & Hrec & _ & Hfound).
  destruct (normalizedNicknames_complete nicknames k Hk) as [k' Hget].
  pose proof (mapGet_Some _ _ _ Hget) as Hin.
  apply normalizedNicknames_sound in Hin as [Hin Hnorm].
  assert (Hk' : recorded nicknames k').
  { split; [now rewrite Hnorm|].
    rewrite List.Forall_forall in Hne. specialize (Hne k').
    destruct k'; [|reflexivity]. destruct Hne; [|reflexivity].
    now apply list_elem_of_In. }
  destruct (Hfound k' j Hk') as [r Hr].
  { destruct Hmatch as (row & Hlook & Ht & Hn). exists row. now rewrite Hnorm. }
  exists k', r. now repeat split.
Qed.

End Rows.

Import Demo.

Lemma nickname_last_row_wins_witness :
  nicknameRowsOf ["@bob"] [[CStr "bob"]; [CStr "ann"]; [CStr "@BOB"]] = [("@bob", 9%nat)] ∧
  (SHEET_DATA_FIRST_ROW + 0 ≤ 9)%nat.
Proof.
  split; [reflexivity|].
  apply (nickname_last_row_wins ["@bob"] [[CStr "bob"]; [CStr "ann"]; [CStr "@BOB"]]
           "@bob" 9 0).
  - apply list_elem_of_here.
  - exists [CStr "bob"]. repeat split; reflexivity.
Defined.

Lemma nickname_with_row_is_found_witness :
  ∃ k' r, (k', r) ∈ nicknameRowsOf ["@Bob"; "bob"] [[CStr "ann"]; [CStr "BOB"]] ∧
          k' ∈ ["@Bob"; "bob"] ∧ normalizeNickname k' = normalizeNickname "@Bob".
Proof.
  apply (nickname_with_row_is_found ["@Bob"; "bob"] [[CStr "ann"]; [CStr "BOB"]] "@Bob" 1).
  - repeat constructor; discriminate.
  - apply list_elem_of_here.
  - exists [CStr "BOB"]. repeat split; reflexivity.
Defined.

End NicknameRowFacts.

(* ===================================================================== *)
(** ** Conflicts and the write without override: theorems *)
(* ===================================================================== *)

Module ConflictFacts.
Import Js Host Constants Columns Session Poll Machine Sheets BotHelpers Shapes Run.
Import MatchingFacts OverrideFacts NicknameRowFacts.
Local Open Scope list_scope.

Section Conflicts.
Context `{JsNumber} `{!SheetsApi}.

(** What the loop over the value ranges adds: for some of the rows from
    [index] on, in their order, the nickname with a cell that has
    content. *)
Lemma collectExisting_adds (rows : list (string * nat))
    (valueRanges : list (option (list (list Cell)))) :
  ∀ index acc existing,
    collectExisting rows valueRanges index acc = Ok existing →
    ∃ more, existing = acc ++ more ∧
            sublist (map ev_nickname more) (drop index (mapKeys rows)) ∧
            Forall (λ ev, hasContent (Some (ev_value ev)) = true) more.
Proof.
  induction valueRanges as [|valueRange rest IH]; intros index acc existing Hc;
    cbn [collectExisting] in Hc.
  - injection Hc as <-. exists []. rewrite app_nil_r.
    split; [reflexivity|]. split; [apply sublist_nil_l | constructor].
  - destruct (rows !! index) as [[nickname row]|] eqn:Hrow; [|discriminate].
    assert (Hdrop : drop index (mapKeys rows) = nickname :: drop (S index) (mapKeys rows)).
    { apply drop_S. unfold mapKeys. now rewrite list_lookup_fmap, Hrow. }
    rewrite Hdrop.
    destruct (default [] valueRange) as [|[|cellValue ?] ?].
    + destruct (IH _ _ _ Hc) as (more & -> & Hsub & Hall).
      exists more. split; [reflexivity|]. split; [now apply sublist_cons | assumption].
    + destruct (IH _ _ _ Hc) as (more & -> & Hsub & Hall).
      exists more. split; [reflexivity|]. split; [now apply sublist_cons | assumption].
    + destruct (hasContent (Some cellValue)) eqn:Hcontent.
      * destruct (IH _ _ _ Hc) as (more & -> & Hsub & Hall).
        exists (mkExistingValue nickname cellValue :: more).
        split; [now rewrite <- app_assoc|].
        split; [cbn [map ev_nickname]; now apply sublist_skip|].
        constructor; assumption.
      * destruct (IH _ _ _ Hc) as (more & -> & Hsub & Hall).
        exists more. split; [reflexivity|]. split; [now apply sublist_cons | assumption].
Qed.

(** X13. The conflicts [checkExistingValues] reports are nicknames of the
    rows it was given, in their order and each at most once when the rows
    form a map, and every reported cell has content; the call does not
    touch the session, and for no rows it makes no request. *)
Theorem conflicts_among_rows (rows : list (string * nat)) (column : string)
    (m : Machine) :
  match checkExistingValues rows column m with
  | (Ok existing, m') =>
      sublist (map ev_nickname existing) (mapKeys rows) ∧
      Forall (λ ev, hasContent (Some (ev_value ev)) = true) existing ∧
      session m' = session m ∧ activePolls m' = activePolls m ∧
      (rows = [] → existing = [] ∧ m' = m)
  | (Throw _, _) => True
  end.
Proof.
  unfold checkExistingValues. destruct rows as [|row0 rows'].
  - run. split; [reflexivity|]. split; [constructor|].
    split; [reflexivity|]. split; [reflexivity|]. intros _. now split.
  - set (rows := row0 :: rows'). run.
    destruct (api_batchGet _ (world m)) as [[[vrs|]|e] w]; run; [| |exact I].
    + destruct (collectExisting rows vrs 0 []) as [existing|e] eqn:Hc; run; [|exact I].
      destruct (collectExisting_adds rows vrs 0 [] existing Hc) as (more & -> & Hsub & Hall).
      rewrite drop_0 in Hsub. cbn [app].
      split; [exact Hsub|]. split; [exact Hall|].
      split; [reflexivity|]. split; [reflexivity|]. intros Heq. discriminate Heq.
    + split; [apply sublist_nil_l|]. split; [constructor|].
      split; [reflexivity|]. split; [reflexivity|]. intros Heq. discriminate Heq.
Qed.

(** Rows put one by one into a new map unless their nickname is listed:
    the rows not listed, in their order. *)
Lemma kept_rows (listed : list string) (rows : list (string * nat)) :
  NoDup (mapKeys rows) →
  foldl (λ m e, if bool_decide (fst e ∈ listed) then m
                else mapSet (fst e) (snd e) m) [] rows
  = filter (λ e, fst e ∉ listed) rows.
Proof.
  assert (Hgen : ∀ (l acc : list (string * nat)),
    NoDup (mapKeys (acc ++ l)) →
    foldl (λ m e, if bool_decide (fst e ∈ listed) then m
                  else mapSet (fst e) (snd e) m) acc l
    = acc ++ filter (λ e, fst e ∉ listed) l).
  { induction l as [|[k v] l IH]; intros acc Hnd; cbn [foldl].
    - now rewrite filter_nil, app_nil_r.
    - cbn [fst snd]. rewrite filter_cons. cbn [fst].
      unfold mapKeys in Hnd. rewrite map_app in Hnd. cbn [map fst] in Hnd.
      case_bool_decide as Hin.
      + rewrite decide_False by tauto. apply IH.
        unfold mapKeys. rewrite map_app.
        apply NoDup_app in Hnd as (Ha & Hdis & Hl). apply NoDup_cons in Hl as [_ Hl].
        apply NoDup_app. split; [assumption|]. split; [|assumption].
        intros x Hx Hx'. apply (Hdis x Hx). now apply list_elem_of_further.
      + rewrite decide_True by assumption.
        rewrite mapSet_fresh.
        * rewrite IH; [now rewrite <- app_assoc|].
          unfold mapKeys. rewrite <- app_assoc, map_app. exact Hnd.
        * apply NoDup_app in Hnd as (_ & Hdis & _).
          intros Hk. apply (Hdis k Hk). apply list_elem_of_here. }
  intros Hnd. apply (Hgen rows []). exact Hnd.
Qed.

(** X14. Without override, [writeZeros] repeats the conflict check and
    sends zeros for exactly the rows whose nickname the check did not
    report, in one request; it reports as updated the number of cells it
    sent, and sends nothing when every row was reported. *)
Theorem writeZeros_skips_reported (rows : list (string * nat)) (column : string)
    (m m1 : Machine) (existing : list ExistingValue) :
  NoDup (mapKeys rows) → rows ≠ [] →
  checkExistingValues rows column m = (Ok existing, m1) →
  let kept := filter (λ e, fst e ∉ map ev_nickname existing) rows in
  let updates := map (λ e, mkUpdate (cellRange column (snd e)) [[CNum (numOfZ 0)]]) kept in
  writeZeros rows column false m
  = match kept with
    | [] => (Ok (mkWriteResult 0 []), m1)
    | _ =>
        match api_batchUpdate updates (world m1) with
        | (Ok _, w) =>
            (Ok (mkWriteResult (length kept) []),
             mkMachine (session m1) (activePolls m1)
               (trace m1 ++ [Called (CallBatchUpdate updates)]) w)
        | (Throw e, w) =>
            (Throw e,
             mkMachine (session m1) (activePolls m1)
               (trace m1 ++ [Failed (CallBatchUpdate updates) e]) w)
        end
    end.
Proof.
  intros Hnd Hne Hcheck kept updates. unfold writeZeros.
  destruct rows as [|row0 rows']; [congruence|]. set (rows := row0 :: rows') in *.
  unfold bind at 1. unfold bind at 1. rewrite Hcheck.
  unfold ret at 1. rewrite (kept_rows _ rows Hnd). fold kept.
  destruct kept as [|e0 kept'] eqn:Hkept; [reflexivity|].
  fold updates. run.
  destruct (api_batchUpdate updates (world m1)) as [[[]|e] w]; reflexivity.
Qed.

End Conflicts.

Import Demo.

Lemma writeZeros_skips_reported_witness :
  writeZeros [("@ann", 7%nat); ("@bob", 8%nat)] "G" false
    (start idle [ValueRanges (Some [Some [[CStr "1"]]; None]); Done])
  = (Ok (mkWriteResult 1 []),
     @mkMachine wholeNumbers scripted (set_state idle initialSession) ∅
       [Called (CallBatchGet ["'Sheet1'!G7"; "'Sheet1'!G8"]);
        Called (CallBatchUpdate [mkUpdate "'Sheet1'!G8" [[CNum (numOfZ 0)]]])]
       []).
Proof.
  rewrite (writeZeros_skips_reported [("@ann", 7%nat); ("@bob", 8%nat)] "G"
             (start idle [ValueRanges (Some [Some [[CStr "1"]]; None]); Done])
             (@mkMachine wholeNumbers scripted (set_state idle initialSession) ∅
                [Called (CallBatchGet ["'Sheet1'!G7"; "'Sheet1'!G8"])] [Done])
             [mkExistingValue "@ann" (CStr "1")]).
  - reflexivity.
  - unfold mapKeys. cbn [map fst]. apply NoDup_cons.
    split; [|apply NoDup_singleton].
    intros Hin. apply list_elem_of_singleton in Hin. discriminate Hin.
  - discriminate.
  - reflexivity.
Defined.

End ConflictFacts.

(* ===================================================================== *)
(** ** The override gate *)
(* ===================================================================== *)

Module OverrideGateFacts.
Import Js Host Constants Columns Session Poll Machine Sheets BotHelpers Workflow.
Import PollHandlers SheetHandlers ColumnHandlersCommon Bot Run DispatchFacts Shapes.
Import OverrideFacts NicknameRowFacts ConflictFacts Written.
Local Open Scope list_scope.

Section Gate.
Context `{JsNumber} `{!SheetsApi}.

Lemma filter_nothing_listed (l : list string) : filter (λ n, n ∉ []) l = l.
Proof.
  induction l as [|x l IH]; [reflexivity|].
  rewrite filter_cons, decide_True by apply not_elem_of_nil. now rewrite IH.
Qed.

(** A map built from entries has every key once. *)
Lemma mapOfEntries_distinct (entries : list (string * nat)) :
  NoDup (mapKeys (mapOfEntries entries)).
Proof.
  unfold mapOfEntries.
  assert (Hgen : ∀ (l acc : list (string * nat)),
            NoDup (mapKeys acc) →
            NoDup (mapKeys (foldl (λ m e, mapSet (fst e) (snd e) m) acc l))).
  { induction l as [|e l IH]; intros acc Hacc; cbn [foldl]; [assumption|].
    apply IH. now apply NoDup_keys_mapSet. }
  apply Hgen. constructor.
Qed.

(** The conflict check when the store answers. *)
Lemma checkExistingValues_answered (rows : list (string * nat)) (column : string)
    (m : Machine) ovrs w existing :
  rows ≠ [] →
  api_batchGet (cellRanges column rows) (world m) = (Ok ovrs, w) →
  collectExisting rows (default [] ovrs) 0 [] = Ok existing →
  checkExistingValues rows column m
  = (Ok existing,
     mkMachine (session m) (activePolls m)
       (trace m ++ [Called (CallBatchGet (cellRanges column rows))]) w).
Proof.
  intros Hne Hget Hcollect. unfold checkExistingValues.
  destruct rows as [|row0 rows']; [congruence|]. set (rows := row0 :: rows') in *.
  fold (cellRanges column rows). run. rewrite Hget.
  destruct ovrs as [vrs|]; simpl in Hcollect.
  - now rewrite Hcollect.
  - now injection Hcollect as <-.
Qed.

(** The final write with override: one batch of zeros for every row. *)
Lemma writeZerosAndRespond_all (rows : list (string * nat)) (column : string)
    (skipped : list string) (m : Machine) w1 w2 :
  rows ≠ [] →
  api_init (world m) = (Ok tt, w1) →
  api_batchUpdate (zeroUpdates column rows) w1 = (Ok tt, w2) →
  writeZerosAndRespond rows column true skipped m
  = (Ok tt,
     finished m
       [Reply "⏳ Updating sheet..."; Called CallInit;
        Called (CallBatchUpdate (zeroUpdates column rows));
        Reply (buildUpdateResultMessage column (length rows)
                 (filter (λ n, n ∉ skipped) (map fst rows)) skipped
                 (withoutRow rows (session m)))]
       w2).
Proof.
  intros Hne Hinit Hupdate. unfold writeZerosAndRespond.
  rewrite (writeZeros_override rows column Hne). fold (zeroUpdates column rows).
  run. rewrite Hinit. run. rewrite Hupdate. unfold finished.
  cbn [session activePolls trace world]. rewrite <- !app_assoc. reflexivity.
Qed.

(** The final write without override: the check is repeated, and one
    batch of zeros goes to the rows it does not report. *)
Lemma writeZerosAndRespond_kept (rows : list (string * nat)) (column : string)
    (skipped : list string) (m : Machine) ovrs again w1 w2 :
  NoDup (mapKeys rows) → rows ≠ [] →
  api_init (world m) = (Ok tt, w1) →
  api_batchGet (cellRanges column rows) w1 = (Ok ovrs, w2) →
  collectExisting rows (default [] ovrs) 0 [] = Ok again →
  let kept := rowsWithout (map ev_nickname again) rows in
  (∀ w3, kept ≠ [] →
     api_batchUpdate (zeroUpdates column kept) w2 = (Ok tt, w3) →
     writeZerosAndRespond rows column false skipped m
     = (Ok tt,
        finished m
          [Reply "⏳ Updating sheet..."; Called CallInit;
           Called (CallBatchGet (cellRanges column rows));
           Called (CallBatchUpdate (zeroUpdates column kept));
           Reply (buildUpdateResultMessage column (length kept)
                    (filter (λ n, n ∉ skipped) (map fst rows)) skipped
                    (withoutRow rows (session m)))]
          w3)) ∧
  (kept = [] →
     writeZerosAndRespond rows column false skipped m
     = (Ok tt,
        finished m
          [Reply "⏳ Updating sheet..."; Called CallInit;
           Called (CallBatchGet (cellRanges column rows));
           Reply (buildUpdateResultMessage column 0
                    (filter (λ n, n ∉ skipped) (map fst rows)) skipped
                    (withoutRow rows (session m)))]
          w2)).
Proof.
  intros Hnd Hne Hinit Hget Hcollect kept.
  assert (Hwrite : ∀ m1, world m1 = w1 →
    writeZeros rows column false m1
    = match kept with
      | [] => (Ok (mkWriteResult 0 []),
               mkMachine (session m1) (activePolls m1)
                 (trace m1 ++ [Called (CallBatchGet (cellRanges column rows))]) w2)
      | _ =>
          match api_batchUpdate (zeroUpdates column kept) w2 with
          | (Ok _, w) =>
              (Ok (mkWriteResult (length kept) []),
               mkMachine (session m1) (activePolls m1)
                 ((trace m1 ++ [Called (CallBatchGet (cellRanges column rows))])
                  ++ [Called (CallBatchUpdate (zeroUpdates column kept))]) w)
          | (Throw e, w) =>
              (Throw e,
               mkMachine (session m1) (activePolls m1)
                 ((trace m1 ++ [Called (CallBatchGet (cellRanges column rows))])
                  ++ [Failed (CallBatchUpdate (zeroUpdates column kept)) e]) w)
          end
      end).
  { intros m1 Hw. rewrite <- Hw in Hget.
    pose proof (checkExistingValues_answered rows column m1 ovrs w2 again Hne Hget Hcollect)
      as Hcheck.
    unfold writeZeros. destruct rows as [|row0 rows']; [congruence|].
    set (rows := row0 :: rows') in *.
    unfold bind at 1. unfold bind at 1. rewrite Hcheck. unfold ret at 1.
    rewrite (kept_rows _ rows Hnd). fold (rowsWithout (map ev_nickname again) rows).
    fold kept. destruct kept as [|e0 kept'] eqn:Hkept; [reflexivity|].
    fold (zeroUpdates column (e0 :: kept')). run.
    destruct (api_batchUpdate _ w2) as [[[]|e] w]; reflexivity. }
  split.
  - intros w3 Hkept Hupdate. unfold writeZerosAndRespond.
    unfold bind at 1. unfold reply at 1. unfold bind at 1.
    unfold initSheetsClient at 1. unfold call at 1. cbn [world]. rewrite Hinit.
    unfold bind at 1. rewrite Hwrite by reflexivity.
    destruct kept as [|e0 kept'] eqn:Ek; [congruence|]. rewrite Hupdate.
    run. unfold finished. cbn [session activePolls trace world length].
    rewrite <- !app_assoc. reflexivity.
  - intros Hkept. unfold writeZerosAndRespond.
    unfold bind at 1. unfold reply at 1. unfold bind at 1.
    unfold initSheetsClient at 1. unfold call at 1. cbn [world]. rewrite Hinit.
    unfold bind at 1. rewrite Hwrite by reflexivity. rewrite Hkept.
    run. unfold finished. cbn [session activePolls trace world].
    rewrite <- !app_assoc. reflexivity.
Qed.

(** The final write for no rows: nothing is requested of the sheet. *)
Lemma writeZerosAndRespond_none (column : string) (overrideExisting : bool)
    (skipped : list string) (m : Machine) w1 :
  api_init (world m) = (Ok tt, w1) →
  writeZerosAndRespond [] column overrideExisting skipped m
  = (Ok tt,
     finished m
       [Reply "⏳ Updating sheet..."; Called CallInit;
        Reply (buildUpdateResultMessage column 0 [] skipped (withoutRow [] (session m)))]
       w1).
Proof.
  intros Hinit. unfold writeZerosAndRespond. run. rewrite Hinit.
  unfold writeZeros. run. unfold finished.
  cbn [session activePolls trace world]. rewrite <- !app_assoc. reflexivity.
Qed.

(** C4. When the conflict check over the matched rows finds nothing,
    [checkOverridesAndWrite] goes on to the write at once: it announces
    the update, sends one batch with the number 0 for the cell of every
    matched row (override = true: no row is looked up again, none is left
    out), reports all of them as updated and none as skipped, and the
    session is reset to the initial one (idle).  When the check finds
    conflicts, nothing is written: the column, the rows and the conflicts
    are stored, the conflicts are listed to the operator, and the session
    waits in awaiting_override_confirmation.  There yes sends the batch of
    zeros for every stored row (override = true, empty skip list); no
    makes the write with override = false, which repeats the check and
    sends zeros for the rows it does not report (no request when it
    reports them all), and the reply lists the stored conflicting
    nicknames as skipped.  After either answer the session is the initial
    one, also when the store fails.  The store's answers are the
    hypotheses.  The engine gets here with rows; were there none, the
    write would announce itself, request nothing of the sheet, and reset
    the session all the same. *)
Theorem override_gate (m : Machine) :
  (∀ col rows ovrs w1 w2 w3 w4,
     targetColumn (session m) = Some col → truthy (Some col) = true →
     rows ≠ [] →
     api_init (world m) = (Ok tt, w1) →
     api_batchGet (cellRanges col rows) w1 = (Ok ovrs, w2) →
     collectExisting rows (default [] ovrs) 0 [] = Ok [] →
     api_init w2 = (Ok tt, w3) →
     api_batchUpdate (zeroUpdates col rows) w3 = (Ok tt, w4) →
     checkOverridesAndWrite rows m
     = (Ok tt,
        finished m
          [Called CallInit; Called (CallBatchGet (cellRanges col rows));
           Reply "⏳ Updating sheet..."; Called CallInit;
           Called (CallBatchUpdate (zeroUpdates col rows));
           Reply (buildUpdateResultMessage col (length rows) (map fst rows) []
                    (withoutRow rows (session m)))]
          w4)) ∧
  (∀ col rows ovrs w1 w2 existing,
     targetColumn (session m) = Some col → truthy (Some col) = true →
     rows ≠ [] →
     api_init (world m) = (Ok tt, w1) →
     api_batchGet (cellRanges col rows) w1 = (Ok ovrs, w2) →
     collectExisting rows (default [] ovrs) 0 [] = Ok existing → existing ≠ [] →
     checkOverridesAndWrite rows m
     = (Ok tt,
        mkMachine
          (set_state awaiting_override_confirmation
             (set_existingValuesEntries (Some existing)
                (set_nicknameRowsEntries (Some rows)
                   (set_column (Some col) (session m)))))
          (activePolls m)
          (trace m ++ [Called CallInit; Called (CallBatchGet (cellRanges col rows));
                       Reply (overridePrompt col existing)])
          w2)) ∧
  (∀ text col entries,
     state (session m) = awaiting_override_confirmation →
     column (session m) = Some col → truthy (Some col) = true →
     nicknameRowsEntries (session m) = Some entries →
     let rows := mapOfEntries entries in
     (∀ w1 w2,
        rows ≠ [] →
        parseYesNo text = Some yes →
        api_init (world m) = (Ok tt, w1) →
        api_batchUpdate (zeroUpdates col rows) w1 = (Ok tt, w2) →
        handleOverrideConfirmation text m
        = (Ok true,
           finished m
             [Reply "⏳ Updating sheet..."; Called CallInit;
              Called (CallBatchUpdate (zeroUpdates col rows));
              Reply (buildUpdateResultMessage col (length rows) (map fst rows) []
                       (withoutRow rows (session m)))]
             w2)) ∧
     (∀ existing ovrs again w1 w2,
        rows ≠ [] →
        parseYesNo text = Some no →
        existingValuesEntries (session m) = Some existing →
        api_init (world m) = (Ok tt, w1) →
        api_batchGet (cellRanges col rows) w1 = (Ok ovrs, w2) →
        collectExisting rows (default [] ovrs) 0 [] = Ok again →
        let skipped := map ev_nickname existing in
        let kept := rowsWithout (map ev_nickname again) rows in
        (∀ w3,
           kept ≠ [] →
           api_batchUpdate (zeroUpdates col kept) w2 = (Ok tt, w3) →
           handleOverrideConfirmation text m
           = (Ok true,
              finished m
                [Reply "⏳ Updating sheet..."; Called CallInit;
                 Called (CallBatchGet (cellRanges col rows));
                 Called (CallBatchUpdate (zeroUpdates col kept));
                 Reply (buildUpdateResultMessage col (length kept)
                          (filter (λ n, n ∉ skipped) (map fst rows)) skipped
                          (withoutRow rows (session m)))]
                w3)) ∧
        (kept = [] →
           handleOverrideConfirmation text m
           = (Ok true,
              finished m
                [Reply "⏳ Updating sheet..."; Called CallInit;
                 Called (CallBatchGet (cellRanges col rows));
                 Reply (buildUpdateResultMessage col 0
                          (filter (λ n, n ∉ skipped) (map fst rows)) skipped
                          (withoutRow rows (session m)))]
                w2))) ∧
     (∀ w1,
        rows = [] →
        parseYesNo text ≠ None →
        api_init (world m) = (Ok tt, w1) →
        ∃ message,
          handleOverrideConfirmation text m
          = (Ok true,
             finished m
               [Reply "⏳ Updating sheet..."; Called CallInit; Reply message] w1))) ∧
  (∀ col w1 w2,
     targetColumn (session m) = Some col → truthy (Some col) = true →
     api_init (world m) = (Ok tt, w1) →
     api_init w1 = (Ok tt, w2) →
     checkOverridesAndWrite [] m
     = (Ok tt,
        finished m
          [Called CallInit; Reply "⏳ Updating sheet..."; Called CallInit;
           Reply (buildUpdateResultMessage col 0 [] [] (withoutRow [] (session m)))]
          w2)) ∧
  (∀ text,
     state (session m) = awaiting_override_confirmation →
     parseYesNo text ≠ None →
     ∃ m', handleOverrideConfirmation text m = (Ok true, m') ∧
           session m' = initialSession).
Proof.
  split; [|split; [|split; [|split]]].
  - intros col rows ovrs w1 w2 w3 w4 Hcol Htruthy Hne Hinit Hget Hcollect Hinit2 Hupdate.
    unfold checkOverridesAndWrite. unfold bind at 1. unfold getSession at 1.
    rewrite Hcol, Htruthy.
    unfold bind at 1. unfold initSheetsClient at 1. unfold call at 1. rewrite Hinit.
    unfold bind at 1.
    rewrite (checkExistingValues_answered rows col _ ovrs w2 []) by assumption.
    rewrite (writeZerosAndRespond_all rows col [] _ w3 w4) by assumption.
    rewrite filter_nothing_listed. unfold finished.
    cbn [session activePolls trace world]. rewrite <- !app_assoc. reflexivity.
  - intros col rows ovrs w1 w2 existing Hcol Htruthy Hne Hinit Hget Hcollect Hsome.
    unfold checkOverridesAndWrite. unfold bind at 1. unfold getSession at 1.
    rewrite Hcol, Htruthy.
    unfold bind at 1. unfold initSheetsClient at 1. unfold call at 1. rewrite Hinit.
    unfold bind at 1.
    rewrite (checkExistingValues_answered rows col _ ovrs w2 existing) by assumption.
    destruct existing as [|ev rest]; [congruence|].
    run. rewrite <- !app_assoc. reflexivity.
  - intros text col entries Hst Hcol Htruthy Hentries rows.
    assert (Hrun : ∀ answer, parseYesNo text = Some answer →
              handleOverrideConfirmation text m
              = bind (tryCatch
                        (writeZerosAndRespond rows col
                           match answer with yes => true | no => false end
                           match match answer with yes => true | no => false end,
                                 existingValuesEntries (session m) with
                           | false, Some existing => map ev_nickname existing
                           | _, _ => []
                           end)
                        (λ error, handleApiError error "updating sheet" true))
                     (λ _, ret true) m).
    { intros answer Hparse.
      unfold handleOverrideConfirmation. unfold bind at 1. unfold getSession at 1.
      rewrite Hst. cbn iota. rewrite Hparse, Hcol, Htruthy, Hentries, Htruthy.
      reflexivity. }
    split; [|split].
    + intros w1 w2 Hne Hparse Hinit Hupdate.
      rewrite (Hrun yes Hparse). unfold bind at 1. unfold tryCatch.
      rewrite (writeZerosAndRespond_all rows col [] m w1 w2) by assumption.
      rewrite filter_nothing_listed. reflexivity.
    + intros existing ovrs again w1 w2 Hne Hparse Hexisting Hinit Hget Hcollect skipped kept.
      destruct (writeZerosAndRespond_kept rows col skipped m ovrs again w1 w2
                  (mapOfEntries_distinct entries) Hne Hinit Hget Hcollect)
        as [Hsome Hnone].
      fold kept in Hsome, Hnone.
      specialize (Hrun no Hparse). rewrite Hexisting in Hrun. fold skipped in Hrun.
      split.
      * intros w3 Hkept Hupdate. rewrite Hrun. unfold bind at 1. unfold tryCatch.
        now rewrite (Hsome w3 Hkept Hupdate).
      * intros Hkept. rewrite Hrun. unfold bind at 1. unfold tryCatch.
        now rewrite (Hnone Hkept).
    + intros w1 Hnil Hparse Hinit.
      destruct (parseYesNo text) as [answer|] eqn:Hanswer; [|congruence].
      rewrite (Hrun answer eq_refl), Hnil. unfold bind at 1. unfold tryCatch.
      rewrite (writeZerosAndRespond_none col _ _ m w1 Hinit). eauto.
  - intros col w1 w2 Hcol Htruthy Hinit Hinit2.
    unfold checkOverridesAndWrite. unfold bind at 1. unfold getSession at 1.
    rewrite Hcol, Htruthy.
    unfold bind at 1. unfold initSheetsClient at 1. unfold call at 1. rewrite Hinit.
    unfold bind at 1. unfold checkExistingValues, ret at 1.
    rewrite (writeZerosAndRespond_none col true [] _ w2) by assumption.
    unfold finished. cbn [session activePolls trace world].
    rewrite <- !app_assoc. reflexivity.
  - apply handleOverrideConfirmation_ends.
Qed.

End Gate.

Import Demo.

(** Two matched players in column G.  With no value in their cells both
    get the zero at once.  With a 5 in the first one's cell the question
    is asked; after yes both get the zero, after no only the second one
    does and the first is reported as skipped.  The session is idle again
    each time the write was made. *)
Lemma override_gate_witness :
  let rows := [("@a", 7%nat); ("@b", 8%nat)] in
  let ready :=
    set_usernames ["@a"; "@b"] (set_targetColumn (Some "G") initialSession) in
  let waiting :=
    set_state awaiting_override_confirmation
      (set_existingValuesEntries (Some [mkExistingValue "@a" (CStr "5")])
         (set_nicknameRowsEntries (Some rows) (set_column (Some "G") ready))) in
  checkOverridesAndWrite rows
    (startWith ready [Done; ValueRanges (Some [None; None]); Done; Done])
  = (Ok tt,
     mkMachine initialSession ∅
       [Called CallInit;
        Called (CallBatchGet ["'Sheet1'!G7"; "'Sheet1'!G8"]);
        Reply "⏳ Updating sheet...";
        Called CallInit;
        Called (CallBatchUpdate [mkUpdate "'Sheet1'!G7" [[CNum (numOfZ 0)]];
                                 mkUpdate "'Sheet1'!G8" [[CNum (numOfZ 0)]]]);
        Reply ("✅ Updated 2 record(s) in column G:" +:+ nl +:+ nl
               +:+ "• @a" +:+ nl +:+ "• @b")]
       []) ∧
  checkOverridesAndWrite rows
    (startWith ready [Done; ValueRanges (Some [Some [[CStr "5"]]; None])])
  = (Ok tt,
     mkMachine waiting ∅
       [Called CallInit;
        Called (CallBatchGet ["'Sheet1'!G7"; "'Sheet1'!G8"]);
        Reply (overridePrompt "G" [mkExistingValue "@a" (CStr "5")])]
       []) ∧
  handleOverrideConfirmation "yes" (startWith waiting [Done; Done])
  = (Ok true,
     mkMachine initialSession ∅
       [Reply "⏳ Updating sheet...";
        Called CallInit;
        Called (CallBatchUpdate [mkUpdate "'Sheet1'!G7" [[CNum (numOfZ 0)]];
                                 mkUpdate "'Sheet1'!G8" [[CNum (numOfZ 0)]]]);
        Reply ("✅ Updated 2 record(s) in column G:" +:+ nl +:+ nl
               +:+ "• @a" +:+ nl +:+ "• @b")]
       []) ∧
  handleOverrideConfirmation "no"
    (startWith waiting [Done; ValueRanges (Some [Some [[CStr "5"]]; None]); Done])
  = (Ok true,
     mkMachine initialSession ∅
       [Reply "⏳ Updating sheet...";
        Called CallInit;
        Called (CallBatchGet ["'Sheet1'!G7"; "'Sheet1'!G8"]);
        Called (CallBatchUpdate [mkUpdate "'Sheet1'!G8" [[CNum (numOfZ 0)]]]);
        Reply ("✅ Updated 1 record(s) in column G:" +:+ nl +:+ nl +:+ "• @b"
               +:+ nl +:+ nl +:+ "⏭️ Skipped 1 cell(s) with existing values:"
               +:+ nl +:+ "• @a")]
       []).
Proof.
  intros rows ready waiting.
  split; [|split; [|split]].
  - rewrite (proj1 (override_gate
               (startWith ready [Done; ValueRanges (Some [None; None]); Done; Done]))
               "G" rows (Some [None; None])
               [ValueRanges (Some [None; None]); Done; Done] [Done; Done] [Done] []);
      first [reflexivity | discriminate].
  - rewrite (proj1 (proj2 (override_gate
               (startWith ready [Done; ValueRanges (Some [Some [[CStr "5"]]; None])])))
               "G" rows (Some [Some [[CStr "5"]]; None])
               [ValueRanges (Some [Some [[CStr "5"]]; None])] []
               [mkExistingValue "@a" (CStr "5")]);
      first [reflexivity | discriminate].
  - destruct (proj1 (proj2 (proj2 (override_gate (startWith waiting [Done; Done]))))
                "yes" "G" rows eq_refl eq_refl eq_refl eq_refl)
      as [Hyes _].
    rewrite (Hyes [Done] []); first [reflexivity | discriminate].
  - destruct (proj1 (proj2 (proj2 (override_gate
                (startWith waiting
                   [Done; ValueRanges (Some [Some [[CStr "5"]]; None]); Done]))))
                "no" "G" rows eq_refl eq_refl eq_refl eq_refl)
      as [_ [Hno _]].
    destruct (Hno [mkExistingValue "@a" (CStr "5")] (Some [Some [[CStr "5"]]; None])
                [mkExistingValue "@a" (CStr "5")]
                [ValueRanges (Some [Some [[CStr "5"]]; None]); Done] [Done]
                ltac:(discriminate) eq_refl eq_refl eq_refl eq_refl eq_refl)
      as [Hkept _].
    rewrite (Hkept []); first [reflexivity | discriminate].
Defined.

End OverrideGateFacts.

(* ===================================================================== *)
(** ** The first header cell, states without a handler, unreadable input *)
(* ===================================================================== *)

Module EdgeFacts.
Import Js Host Constants Columns Session Poll Machine Sheets BotHelpers Workflow.
Import PollHandlers SheetHandlers ColumnHandlersCommon Bot Conversation.
Import Run DispatchFacts TextFacts.
Local Open Scope list_scope.

Section Edge.
Context `{JsNumber} `{!SheetsApi}.

(** Passes the handlers of the dispatcher one by one, in its order, as
    long as the state [Hst] is not theirs. *)
Ltac pass Hst skip :=
  rewrite orElse_skip by (apply skip; rewrite Hst; discriminate).

Ltac pass_in_order Hst :=
  try (pass Hst handlePollIntent_skip;
  try (pass Hst handlePollOptionSelection_skip;
  try (first [ pass Hst handleColumnConfirmationA_skip
             | pass Hst handleColumnConfirmationB_skip ];
  try (first [ pass Hst handleNewColumnChoiceA_skip
             | pass Hst handleNewColumnChoiceB_skip ];
  try (pass Hst handleDateName_skip;
  try (pass Hst handleCost_skip;
  try (pass Hst handleUsernames_skip;
  try (pass Hst handlePlayerCountConfirmation_skip;
  try (pass Hst handlePlayerCount_skip;
  try (pass Hst handleOverrideConfirmation_skip)))))))))).

Lemma lastDateColumnOf_blank_first (v : Cell) (rest : list Cell) :
  isBlank v = true →
  lastDateColumnOf (v :: rest) = Some (mkColumnMatch "E" "undefined").
Proof.
  intros Hb. unfold lastDateColumnOf. cbn [firstBlank]. rewrite Hb. reflexivity.
Qed.

(** X15. When the first header cell read (F1) is blank, the detection
    does not report that there is no date column: it proposes column E,
    the column before the first data column, with the date text
    "undefined", and waits for the confirmation of that column. *)
Theorem blank_first_header_proposes_E (m : Machine) (v : Cell) (rest : list Cell)
    (others : list (list Cell)) (w1 w2 : World) :
  api_init (world m) = (Ok tt, w1) →
  api_get headerRange w1 = (Ok (Some ((v :: rest) :: others)), w2) →
  isBlank v = true →
  startColumnDetectionFlow m
  = (Ok tt,
     mkMachine
       (set_state awaiting_column_confirmation
          (set_targetColumn (Some "E")
             (set_detectedColumn (Some "E") (session m))))
       (activePolls m)
       (trace m ++
        [Reply "⏳ Detecting last date column...";
         Called CallInit;
         Called (CallGet headerRange);
         Reply ("📅 I detected column E (undefined)." +:+ nl +:+ nl
                +:+ "Update this column? (yes/no)")])
       w2).
Proof.
  intros Hinit Hget Hb.
  unfold startColumnDetectionFlow, findLastDateColumn. run.
  rewrite Hinit. run. rewrite Hget. run. cbn [firstRow].
  rewrite (lastDateColumnOf_blank_first v rest Hb). run.
  cbn [match_column match_date]. rewrite <- !app_assoc. reflexivity.
Qed.

(** X16. In the idle state, and in awaiting_column_selection (for which
    handlers/index.ts registers no handler), every text message gets the
    default reply and changes nothing. *)
Theorem unhandled_state_default_reply (handlers : ColumnHandlers)
    (messageText : string) (m : Machine) :
  (handlers = columnHandlersA ∨ handlers = columnHandlersB) →
  (state (session m) = idle ∨ state (session m) = awaiting_column_selection) →
  onText handlers messageText m
  = (Ok tt, replied "👋 Use /start to begin updating a column." m).
Proof.
  intros [-> | ->] [Hst | Hst]; unfold onText;
    cbn [handleColumnConfirmation handleNewColumnChoice handleDateName handleCost
         columnHandlersA columnHandlersB];
    pass_in_order Hst; reflexivity.
Qed.

(** X17. A message that the handler of the current state cannot read (no
    known poll intent, no option number from 1 on, a blank date name, a
    cost that is not a number or is negative, no username, a player count
    that is not a number or is negative) is answered by one re-prompt; the
    session with everything collected so far, the poll registry and the
    store stay as they are. *)
Theorem unreadable_input_only_reprompts (handlers : ColumnHandlers)
    (messageText : string) (m : Machine) (prompt : string) :
  (handlers = columnHandlersA ∨ handlers = columnHandlersB) →
  unreadable (state (session m)) messageText = Some prompt →
  onText handlers messageText m = (Ok tt, replied prompt m).
Proof.
  intros Hh Hbad.
  assert (Hgen : ∀ st, state (session m) = st →
            unreadable st messageText = Some prompt →
            onText handlers messageText m = (Ok tt, replied prompt m)).
  { clear Hbad. intros st Hst Hbad.
    destruct Hh as [-> | ->]; unfold onText;
      cbn [handleColumnConfirmation handleNewColumnChoice handleDateName handleCost
           columnHandlersA columnHandlersB];
      destruct st; try discriminate Hbad; cbn [unreadable] in Hbad; cbn zeta in Hbad;
      pass_in_order Hst; apply orElse_hit;
      first [ progress unfold handlePollIntent
            | progress unfold handlePollOptionSelection
            | progress unfold ColumnHandlersCommon.handleDateName
            | progress unfold ColumnHandlersCommon.handleCost
            | progress unfold handleUsernames
            | progress unfold handlePlayerCount ];
      unfold bind at 1; unfold getSession at 1; rewrite Hst; cbn iota;
      try rewrite trim_idem.
    all: repeat match type of Hbad with
         | context [match ?x with _ => _ end] => destruct x eqn:?
         end; try discriminate Hbad; injection Hbad as <-; try reflexivity.
    all: repeat match goal with
         | E : orb _ _ = false |- _ => apply orb_false_iff in E as [? ?]
         end.
    all: repeat match goal with
         | E : ?x = _ |- context [?x] => rewrite E
         end; try reflexivity. }
  now apply (Hgen (state (session m))).
Qed.

End Edge.

Import Demo.

Lemma blank_first_header_proposes_E_witness :
  state (session (snd (startColumnDetectionFlow
                         (start idle [Done; Values (Some [[CStr " "; CStr "Sep 7"]])]))))
  = awaiting_column_confirmation ∧
  targetColumn (session (snd (startColumnDetectionFlow
                         (start idle [Done; Values (Some [[CStr " "; CStr "Sep 7"]])]))))
  = Some "E".
Proof.
  rewrite (blank_first_header_proposes_E
             (start idle [Done; Values (Some [[CStr " "; CStr "Sep 7"]])])
             (CStr " ") [CStr "Sep 7"] []
             [Values (Some [[CStr " "; CStr "Sep 7"]])] [] eq_refl eq_refl eq_refl).
  split; reflexivity.
Defined.

Lemma unhandled_state_default_reply_witness :
  onText columnHandlersB "1" (start awaiting_column_selection [])
  = (Ok tt, replied "👋 Use /start to begin updating a column."
              (start awaiting_column_selection [])).
Proof.
  apply (unhandled_state_default_reply columnHandlersB "1"
           (start awaiting_column_selection [])); [now right | now right].
Defined.

Lemma unreadable_input_only_reprompts_witness :
  onText columnHandlersA "-3" (start awaiting_player_count [])
  = (Ok tt, replied "❌ Please provide a valid positive integer for the player count"
              (start awaiting_player_count [])).
Proof.
  apply (unreadable_input_only_reprompts columnHandlersA "-3"
           (start awaiting_player_count [])); [now left | reflexivity].
Defined.

End EdgeFacts.

(* ===================================================================== *)
(** ** Replies: rules *)
(* ===================================================================== *)

Module ReplyRules.
Import Js Host Constants Columns Session Poll Machine Sheets BotHelpers Recovery Progress Run.
Import RecoveryRules.
Local Open Scope list_scope.

Section Rules.
Context `{JsNumber} `{!SheetsApi}.

Lemma grows_of_says {A} (Q : A → Prop) (c : M A) : Says Q c → Grows c.
Proof. intros Hc m. destruct (Hc m) as (evs & Htr & _). eauto. Qed.

(** The three shapes of a run all extend the trace. *)
Lemma grows_of_obeys {A} (H1 : A → Prop) (c : M A) : Obeys H1 c → Grows c.
Proof.
  intros Hc m. destruct (Hc m); cbn [snd]; eauto.
Qed.

Lemma grows_ret {A} (a : A) : Grows (ret a).
Proof. intros m. exists []. cbn. now rewrite app_nil_r. Qed.

Lemma grows_bind {A B} (c : M A) (k : A → M B) :
  Grows c → (∀ a, Grows (k a)) → Grows (bind c k).
Proof.
  intros Hc Hk m. unfold bind. destruct (Hc m) as (evs & Htr).
  destruct (c m) as [[a|e] m1]; cbn [snd] in *.
  - destruct (Hk a m1) as (evs2 & Htr2). exists (evs ++ evs2).
    now rewrite Htr2, Htr, app_assoc.
  - eauto.
Qed.

Lemma grows_tryCatch {A} (c : M A) (h : JsError → M A) :
  Grows c → (∀ e, Grows (h e)) → Grows (tryCatch c h).
Proof.
  intros Hc Hh m. unfold tryCatch. destruct (Hc m) as (evs & Htr).
  destruct (c m) as [[a|e] m1]; cbn [snd] in *.
  - eauto.
  - destruct (Hh e m1) as (evs2 & Htr2). exists (evs ++ evs2).
    now rewrite Htr2, Htr, app_assoc.
Qed.

Lemma says_ret {A} (Q : A → Prop) (a : A) : Q a → Says Q (ret a).
Proof. intros Ha m. exists []. cbn. rewrite app_nil_r. auto. Qed.

Lemma says_reply (Q : unit → Prop) text : Says Q (reply text).
Proof.
  intros m. exists [Reply text]. cbn. split; [reflexivity|].
  left. exists text. apply list_elem_of_here.
Qed.

Lemma says_weaken {A} (Q R : A → Prop) (c : M A) :
  (∀ a, Q a → R a) → Says Q c → Says R c.
Proof.
  intros Himp Hc m. destruct (Hc m) as (evs & Htr & Hq). exists evs.
  split; [assumption|]. destruct (fst (c m)); [|exact I].
  destruct Hq; auto.
Qed.

(** After a step that has replied anything may follow. *)
Lemma says_bind_spoke {A B} (R : B → Prop) (c : M A) (k : A → M B) :
  Says (λ _, False) c → (∀ a, Grows (k a)) → Says R (bind c k).
Proof.
  intros Hc Hk m. unfold bind. destruct (Hc m) as (evs & Htr & Hq).
  destruct (c m) as [[a|e] m1]; cbn [fst snd] in *.
  - destruct Hq as [[text Hin]|[]].
    destruct (Hk a m1) as (evs2 & Htr2). exists (evs ++ evs2).
    split; [now rewrite Htr2, Htr, app_assoc|].
    destruct (fst (k a m1)); [|exact I].
    left. exists text. apply elem_of_app. now left.
  - exists evs. now split.
Qed.

(** After a step that has replied unless its value is in [Q], what
    follows a value in [Q] has to reply. *)
Lemma says_bind_when {A B} (Q : A → Prop) (R : B → Prop) (c : M A) (k : A → M B) :
  Says Q c → (∀ a, Q a → Says R (k a)) → (∀ a, Grows (k a)) → Says R (bind c k).
Proof.
  intros Hc Hk Hg m. unfold bind. destruct (Hc m) as (evs & Htr & Hq).
  destruct (c m) as [[a|e] m1]; cbn [fst snd] in *.
  - destruct Hq as [[text Hin]|Ha].
    + destruct (Hg a m1) as (evs2 & Htr2). exists (evs ++ evs2).
      split; [now rewrite Htr2, Htr, app_assoc|].
      destruct (fst (k a m1)); [|exact I].
      left. exists text. apply elem_of_app. now left.
    + destruct (Hk a Ha m1) as (evs2 & Htr2 & Hq2). exists (evs ++ evs2).
      split; [now rewrite Htr2, Htr, app_assoc|].
      destruct (fst (k a m1)); [|exact I].
      destruct Hq2 as [[text Hin]|Hb]; [|now right].
      left. exists text. apply elem_of_app. now right.
  - exists evs. now split.
Qed.

Lemma says_bind_then {A B} (R : B → Prop) (c : M A) (k : A → M B) :
  Grows c → (∀ a, Says R (k a)) → Says R (bind c k).
Proof.
  intros Hc Hk. apply (says_bind_when (λ _, True)).
  - intros m. destruct (Hc m) as (evs & Htr). exists evs. split; [assumption|].
    destruct (fst (c m)); auto.
  - auto.
  - intros a. eapply grows_of_says. apply Hk.
Qed.

Lemma says_tryCatch {A} (Q : A → Prop) (c : M A) (h : JsError → M A) :
  Says Q c → (∀ e, Says Q (h e)) → Says Q (tryCatch c h).
Proof.
  intros Hc Hh m. unfold tryCatch. destruct (Hc m) as (evs & Htr & Hq).
  destruct (c m) as [[a|e] m1]; cbn [fst snd] in *.
  - exists evs. now split.
  - destruct (Hh e m1) as (evs2 & Htr2 & Hq2). exists (evs ++ evs2).
    split; [now rewrite Htr2, Htr, app_assoc|].
    destruct (fst (h e m1)); [|exact I].
    destruct Hq2 as [[text Hin]|Hb]; [|now right].
    left. exists text. apply elem_of_app. now right.
Qed.

Lemma says_throw {A} (Q : A → Prop) (e : JsError) : Says Q (@throw _ _ A e).
Proof. intros m. exists []. cbn. now rewrite app_nil_r. Qed.

End Rules.

Create HintDb says.

#[export] Hint Resolve says_reply says_throw grows_ret : says.
#[export] Hint Extern 1 (Grows _) =>
  first [ apply (grows_of_obeys (λ _, True)); solve [auto 2 with obeys]
        | apply (grows_of_obeys (λ b : bool, b = true)); solve [auto 2 with obeys]
        | apply (grows_of_obeys (λ r : option bool, r = Some true));
          solve [auto 2 with obeys] ] : says.

(** Walks through a handler as [obey] does, looking for the reply on
    every path that returns. *)
Ltac say :=
  repeat first
    [ assumption
    | progress intros
    | solve [auto 2 with says]
    | solve [exfalso; congruence]
    | match goal with
      | |- Says _ (let _ := _ in _) => cbv zeta
      | |- Grows (let _ := _ in _) => cbv zeta
      | |- Grows (bind _ _) => apply grows_bind
      | |- Grows (tryCatch _ _) => apply grows_tryCatch
      | |- Grows (match ?x with _ => _ end) => destruct x
      | |- Says _ (ret _) => apply says_ret; solve [reflexivity | congruence | tauto]
      | |- Says _ (bind _ _) =>
          first [ solve [apply says_bind_spoke; say]
                | solve [eapply says_bind_when; [solve [auto 2 with says] | say | say]]
                | solve [apply says_bind_then; say]
                | solve [eapply (says_bind_when (λ b : bool, b = false)); say]
                | solve [eapply (says_bind_when (λ r : option bool, r = None)); say] ]
      | |- Says _ (tryCatch _ _) => apply says_tryCatch
      | |- Says _ (match ?x with _ => _ end) => destruct x
      end ].

End ReplyRules.

(* ===================================================================== *)
(** ** Replies: every message is answered *)
(* ===================================================================== *)

Module ReplyFacts.
Import Js Host Constants Columns Session Poll Machine Sheets BotHelpers Workflow.
Import PollHandlers SheetHandlers ColumnHandlersCommon Bot.
Import Recovery Progress Run RecoveryRules WorkflowRecovery FailureFacts ReplyRules.
Local Open Scope list_scope.

Section Replies.
Context `{JsNumber} `{!SheetsApi}.

Abbreviation Never := (λ _ : unit, False).

Lemma says_replyErrorAndReset message : Says Never (replyErrorAndReset message).
Proof. unfold replyErrorAndReset. say. Qed.

Lemma says_handleApiError e action hint : Says Never (handleApiError e action hint).
Proof. unfold handleApiError, replyErrorAndReset. say. Qed.

Hint Resolve says_replyErrorAndReset says_handleApiError : says.

Lemma says_getPollDataOrError :
  Says (λ r : option (string * PollData), r ≠ None) getPollDataOrError.
Proof. unfold getPollDataOrError. say. Qed.

Lemma says_writeZerosAndRespond rows column overrideExisting skipped :
  Says Never (writeZerosAndRespond rows column overrideExisting skipped).
Proof. unfold writeZerosAndRespond. say. Qed.

Hint Resolve says_getPollDataOrError says_writeZerosAndRespond : says.

Lemma says_checkOverridesAndWrite rows : Says Never (checkOverridesAndWrite rows).
Proof. unfold checkOverridesAndWrite. say. Qed.

Lemma says_startColumnDetectionFlow : Says Never startColumnDetectionFlow.
Proof. unfold startColumnDetectionFlow. say. Qed.

Hint Resolve says_checkOverridesAndWrite says_startColumnDetectionFlow : says.

Lemma says_proceedWithPlayerCountCheck : Says Never proceedWithPlayerCountCheck.
Proof. unfold proceedWithPlayerCountCheck. say. Qed.

Hint Resolve says_proceedWithPlayerCountCheck : says.

Lemma says_proceedWithMetadataCollection : Says Never proceedWithMetadataCollection.
Proof. unfold proceedWithMetadataCollection. say. Qed.

Hint Resolve says_proceedWithMetadataCollection : says.

(** A handler that took the message has replied. *)
Abbreviation Passed := (λ b : bool, b = false).

Lemma says_handlePollIntent text : Says Passed (handlePollIntent text).
Proof. unfold handlePollIntent. say. Qed.

Lemma says_handlePollOptionSelection text : Says Passed (handlePollOptionSelection text).
Proof. unfold handlePollOptionSelection. say. Qed.

Lemma says_handleDateName text : Says Passed (ColumnHandlersCommon.handleDateName text).
Proof. unfold ColumnHandlersCommon.handleDateName. say. Qed.

Lemma says_handleCost text : Says Passed (ColumnHandlersCommon.handleCost text).
Proof. unfold ColumnHandlersCommon.handleCost. say. Qed.

Lemma says_handleColumnConfirmationA text :
  Says Passed (ColumnHandlersA.handleColumnConfirmation text).
Proof. unfold ColumnHandlersA.handleColumnConfirmation. say. Qed.

Lemma says_handleNewColumnChoiceA text :
  Says Passed (ColumnHandlersA.handleNewColumnChoice text).
Proof. unfold ColumnHandlersA.handleNewColumnChoice. say. Qed.

Lemma says_searchByDateText text :
  Says (λ r : option bool, r = None) (ColumnHandlersB.searchByDateText text).
Proof. unfold ColumnHandlersB.searchByDateText. say. Qed.

Hint Resolve says_searchByDateText : says.

Lemma says_handleColumnConfirmationB text :
  Says Passed (ColumnHandlersB.handleColumnConfirmation text).
Proof.
  unfold ColumnHandlersB.handleColumnConfirmation, ColumnHandlersB.askForDateName.
  say.
Qed.

Lemma says_handleNewColumnChoiceB text :
  Says Passed (ColumnHandlersB.handleNewColumnChoice text).
Proof.
  unfold ColumnHandlersB.handleNewColumnChoice, ColumnHandlersB.askForDateName.
  say.
Qed.

Lemma says_handleUsernames text : Says Passed (handleUsernames text).
Proof. unfold handleUsernames. say. Qed.

Lemma says_handlePlayerCountConfirmation text :
  Says Passed (handlePlayerCountConfirmation text).
Proof. unfold handlePlayerCountConfirmation. say. Qed.

Lemma says_handlePlayerCount text : Says Passed (handlePlayerCount text).
Proof. unfold handlePlayerCount. say. Qed.

Lemma says_handleOverrideConfirmation text :
  Says Passed (handleOverrideConfirmation text).
Proof. unfold handleOverrideConfirmation. say. Qed.

Hint Resolve says_handlePollIntent says_handlePollOptionSelection
  says_handleDateName says_handleCost says_handleColumnConfirmationA
  says_handleNewColumnChoiceA says_handleColumnConfirmationB
  says_handleNewColumnChoiceB says_handleUsernames
  says_handlePlayerCountConfirmation says_handlePlayerCount
  says_handleOverrideConfirmation : says.

Lemma says_orElse (handler : M bool) (rest : M unit) :
  Says Passed handler → Says Never rest → Says Never (orElse handler rest).
Proof.
  intros Hh Hrest. unfold orElse. apply (says_bind_when Passed).
  - assumption.
  - intros a ->. assumption.
  - intros [|]; [apply grows_ret | eapply grows_of_says; eassumption].
Qed.

Lemma says_onText (handlers : ColumnHandlers) (messageText : string) :
  handlers = columnHandlersA ∨ handlers = columnHandlersB →
  Says Never (onText handlers messageText).
Proof.
  intros [->| ->]; unfold onText;
    cbn [handleColumnConfirmation handleNewColumnChoice handleDateName handleCost
         columnHandlersA columnHandlersB];
    repeat (apply says_orElse; [solve [auto 2 with says]|]); apply says_reply.
Qed.

(** X18. No inbound event makes the engine throw, whatever the state and
    whatever the store does; and every text message and every one of the
    update, cancel and abort commands is answered: when the handler
    returns it has sent at least one reply.  (A poll message may pass
    without a reply.) *)
Theorem every_message_is_answered (handlers : ColumnHandlers) (ev : Inbound)
    (m : Machine) :
  (handlers = columnHandlersA ∨ handlers = columnHandlersB) →
  match ev with
  | ForwardedPoll _ _ => ∃ m', handleInbound handlers ev m = (Ok tt, m')
  | _ => ∃ m' evs text,
           handleInbound handlers ev m = (Ok tt, m') ∧
           trace m' = trace m ++ evs ∧ Reply text ∈ evs
  end.
Proof.
  intros Hh.
  assert (Hret : ∃ m', handleInbound handlers ev m = (Ok tt, m')).
  { destruct (returns_handleInbound handlers ev Hh m) as ([] & m' & Hrun).
    now exists m'. }
  assert (Hsays : match ev with
                  | ForwardedPoll _ _ => True
                  | _ => Says Never (handleInbound handlers ev)
                  end).
  { destruct ev; cbn [handleInbound]; [| | | |exact I].
    - unfold onUpdateCommand. say.
    - unfold onCancelCommand. say.
    - unfold onAbortCommand. say.
    - now apply says_onText. }
  destruct ev; [| | | |exact Hret]; clear Hret;
    match goal with
    | |- context [handleInbound handlers ?ev m] =>
        destruct (returns_handleInbound handlers ev Hh m) as ([] & m' & Hrun)
    end;
    destruct (Hsays m) as (evs & Htr & Hq); rewrite Hrun in Htr, Hq;
    cbn [fst snd] in *; destruct Hq as [[text Hin]|[]]; eauto 6.
Qed.

End Replies.

Import Demo.

Lemma every_message_is_answered_witness :
  ∃ m' evs text,
    handleInbound columnHandlersA (Text "12")
      (start awaiting_cost [Throws Thrown]) = (Ok tt, m') ∧
    trace m' = trace (start awaiting_cost [Throws Thrown]) ++ evs ∧ Reply text ∈ evs.
Proof.
  apply (every_message_is_answered columnHandlersA (Text "12")
           (start awaiting_cost [Throws Thrown])).
  now left.
Defined.

End ReplyFacts.

(* ===================================================================== *)
(** ** The session along a conversation: rules *)
(* ===================================================================== *)

Module SessionRules.
Import Js Host Constants Columns Session Poll Machine Sheets BotHelpers Conversation Run.
Local Open Scope list_scope.

Section Rules.
Context `{JsNumber} `{!SheetsApi}.

Lemma wp_ret {A} (a : A) post thrown s : post a s → Wp (ret a) post thrown s.
Proof. intros Hp m <- Hok. cbn. now split. Qed.

Lemma wp_throw {A} (e : JsError) (post : A → _) thrown s :
  thrown s → Wp (throw e) post thrown s.
Proof. intros Hp m <- Hok. cbn. now split. Qed.

Lemma wp_bind {A B} (c : M A) (k : A → M B) post thrown s :
  Wp c (λ a s', Wp (k a) post thrown s') thrown s → Wp (bind c k) post thrown s.
Proof.
  intros Hc m Hs Hok. unfold bind. destruct (Hc m Hs Hok) as [Hok1 Hpost].
  destruct (c m) as [[a|e] m1]; cbn [fst snd] in *.
  - now apply Hpost.
  - now split.
Qed.

Lemma wp_tryCatch {A} (c : M A) (h : JsError → M A) post thrown s :
  Wp c post (λ s', ∀ e, Wp (h e) post thrown s') s → Wp (tryCatch c h) post thrown s.
Proof.
  intros Hc m Hs Hok. unfold tryCatch. destruct (Hc m Hs Hok) as [Hok1 Hpost].
  destruct (c m) as [[a|e] m1]; cbn [fst snd] in *.
  - now split.
  - now apply Hpost.
Qed.

Lemma wp_reply text (post : unit → _) thrown s :
  isLost text = false → post tt s → Wp (reply text) post thrown s.
Proof.
  intros Ht Hp m <- Hok. cbn. split; [|assumption].
  apply Forall_app. split; [assumption|]. now repeat constructor.
Qed.

Lemma wp_modify f (post : unit → _) thrown s :
  post tt (f s) → Wp (modify f) post thrown s.
Proof. intros Hp m <- Hok. cbn. now split. Qed.

Lemma wp_getSession post thrown s : post s s → Wp getSession post thrown s.
Proof. intros Hp m <- Hok. cbn. now split. Qed.

Lemma wp_getPolls post thrown s : (∀ polls, post polls s) → Wp getPolls post thrown s.
Proof. intros Hp m <- Hok. cbn. now split. Qed.

Lemma wp_call {A} c (request : World → Outcome A * World) post thrown s :
  (∀ a, post a s) → thrown s → Wp (call c request) post thrown s.
Proof.
  intros Hp Ht m <- Hok. unfold call.
  destruct (request (world m)) as [[a|e] w]; cbn; (split; [|auto]);
    (apply Forall_app; split; [assumption | now repeat constructor]).
Qed.

Lemma wp_conseq {A} (c : M A) (post post' : A → _) (thrown thrown' : _ → Prop) s :
  Wp c post thrown s →
  (∀ a s', post a s' → post' a s') → (∀ s', thrown s' → thrown' s') →
  Wp c post' thrown' s.
Proof.
  intros Hc Hp Ht m Hs Hok. destruct (Hc m Hs Hok) as [Hok1 Hpost].
  split; [assumption|]. destruct (fst (c m)); auto.
Qed.

End Rules.

End SessionRules.

(* ===================================================================== *)
(** ** The session along a conversation: theorems *)
(* ===================================================================== *)

Module SessionFacts.
Import Js Host Constants Columns Session Poll Machine Sheets BotHelpers Workflow.
Import PollHandlers SheetHandlers ColumnHandlersCommon Bot Shapes Conversation Run.
Import ColumnFacts ColumnRoundTrips MatchingFacts NicknameRowFacts ConflictFacts.
Import SessionRules.
Local Open Scope list_scope.

Lemma truthy_valid (c : string) : validColumn c → truthy (Some c) = true.
Proof. intros [_ Hne]. destruct c; [congruence | reflexivity]. Qed.

Section Facts.
Context `{JsNumber} `{!SheetsApi}.

Lemma consistent_initial : Consistent initialSession.
Proof. split; [discriminate | exact I]. Qed.

(** The session projections and assignments, for [cbn]. *)
Ltac sess :=
  cbn [state usernames detectedColumn targetColumn isNewColumn dateName cost
       playerCount column nicknameRowsEntries existingValuesEntries pollId
       pollQuestion columnMatches
       set_state set_usernames set_detectedColumn set_targetColumn set_isNewColumn
       set_dateName set_cost set_playerCount set_column set_nicknameRowsEntries
       set_existingValuesEntries set_pollId set_pollQuestion set_columnMatches
       resetSession resetColumnMatches initialSession] in *.

Ltac lost := solve [lazy; reflexivity].

Lemma wp_initSheetsClient (post : unit → _) thrown s :
  post tt s → thrown s → Wp initSheetsClient post thrown s.
Proof. intros Hp Ht. apply wp_call; [now intros [] | assumption]. Qed.

Lemma wp_findNicknameRows nicknames post thrown s :
  (∀ rows, NoDup (mapKeys rows) → post rows s) → thrown s →
  Wp (findNicknameRows nicknames) post thrown s.
Proof.
  intros Hp Ht. unfold findNicknameRows. apply wp_bind, wp_call; [|assumption].
  intros values. apply wp_ret, Hp. apply nicknameRowsOf_map.
Qed.

Lemma wp_checkExistingValues rows column post thrown s :
  (∀ existing, (∀ n, n ∈ map ev_nickname existing → n ∈ mapKeys rows) → post existing s) →
  thrown s →
  Wp (checkExistingValues rows column) post thrown s.
Proof.
  intros Hp Ht. unfold checkExistingValues.
  assert (Hnil : post [] s).
  { apply Hp. intros n Hn. now apply elem_of_nil in Hn. }
  destruct rows as [|row0 rows']; [now apply wp_ret|].
  apply wp_bind, wp_call; [|assumption].
  intros [vrs|]; [|now apply wp_ret].
  destruct (collectExisting _ vrs 0 []) as [existing|e] eqn:Hc;
    [|now apply wp_throw].
  apply wp_ret, Hp.
  destruct (collectExisting_adds _ _ _ _ _ Hc) as (more & -> & Hsub & _).
  rewrite drop_0 in Hsub. cbn [app]. intros n Hn.
  eapply sublist_submseteq, elem_of_submseteq in Hsub; eassumption.
Qed.

Lemma wp_writeZeros rows column overrideExisting post thrown s :
  (∀ result, post result s) → thrown s →
  Wp (writeZeros rows column overrideExisting) post thrown s.
Proof.
  intros Hp Ht. unfold writeZeros. destruct rows as [|row0 rows']; [now apply wp_ret|].
  apply wp_bind.
  assert (Hrest : ∀ rowsToUpdate : list (string * nat),
    Wp (match rowsToUpdate with
        | [] => ret (mkWriteResult 0 [])
        | _ :: _ =>
            let updates :=
              map (λ e, mkUpdate (cellRange column (snd e)) [[CNum (numOfZ 0)]])
                rowsToUpdate in
            bind (call (CallBatchUpdate updates) (api_batchUpdate updates))
              (λ _, ret (mkWriteResult (length rowsToUpdate) []))
        end) post thrown s).
  { intros [|r rs]; [now apply wp_ret|]. cbv zeta. apply wp_bind, wp_call; [|assumption].
    intros _. now apply wp_ret. }
  destruct overrideExisting.
  - apply wp_ret. exact (Hrest (row0 :: rows')).
  - apply wp_bind, wp_checkExistingValues; [|assumption].
    intros existing _. apply wp_ret. cbv zeta beta. apply Hrest.
Qed.

Lemma lastDateColumnOf_valid (values : list Cell) (found : ColumnMatch) :
  lastDateColumnOf values = Some found → validColumn (match_column found).
Proof.
  unfold lastDateColumnOf. destruct (firstBlank values 0) as [i|]; [|discriminate].
  intros [= <-]. cbn [match_column].
  destruct (indexToColumnLetter_reads_back
              (columnLetterToIndex SHEET_DATA_FIRST_COLUMN + (Z.of_nat i - 1)))
    as (Hcol & Hne & _); [|now split].
  change (columnLetterToIndex SHEET_DATA_FIRST_COLUMN) with 5%Z. lia.
Qed.

Lemma wp_findLastDateColumn post thrown s :
  (∀ found, (∀ f, found = Some f → validColumn (match_column f)) → post found s) →
  thrown s →
  Wp findLastDateColumn post thrown s.
Proof.
  intros Hp Ht. unfold findLastDateColumn. apply wp_bind, wp_call; [|assumption].
  intros response. cbv zeta. apply wp_ret, Hp. intros f Hf.
  eapply lastDateColumnOf_valid. exact Hf.
Qed.

Lemma wp_getColumnMetadata column post thrown s :
  (∀ metadata, post metadata s) → thrown s →
  Wp (getColumnMetadata column) post thrown s.
Proof.
  intros Hp Ht. unfold getColumnMetadata. apply wp_bind, wp_call; [|assumption].
  intros values. apply wp_ret, Hp.
Qed.

Lemma wp_writeColumnMetadata column date cost playerCount (post : unit → _) thrown s :
  post tt s → thrown s →
  Wp (writeColumnMetadata column date cost playerCount) post thrown s.
Proof.
  intros Hp Ht. unfold writeColumnMetadata. cbv zeta.
  destruct (_ ++ _); [now apply wp_ret|].
  apply wp_call; [now intros [] | assumption].
Qed.

Lemma wp_replyErrorAndReset message (post : unit → _) thrown s :
  isLost message = false → post tt initialSession →
  Wp (replyErrorAndReset message) post thrown s.
Proof.
  intros Hm Hp. unfold replyErrorAndReset.
  apply wp_bind, wp_reply; [assumption|]. now apply wp_modify.
Qed.

Lemma wp_handleApiError e action hint (post : unit → _) thrown s :
  post tt initialSession → Wp (handleApiError e action hint) post thrown s.
Proof.
  intros Hp. unfold handleApiError. apply wp_replyErrorAndReset; [|assumption].
  unfold apiErrorMessage. lost.
Qed.


(** A session whose target column is the valid column of [Hc]. *)
Ltac consistent_with Hc Hvalid :=
  split; sess;
  [ let c0 := fresh "c" in
    let Hc0 := fresh "Hc" in
    intros c0 Hc0; rewrite ?Hc in Hc0; injection Hc0 as <-; exact Hvalid
  | rewrite ?Hc; eauto 10 ].

(** Walks through a handler with the rules above. *)
Ltac wps :=
  repeat first
    [ progress intros
    | progress sess
    | match goal with
      | H : targetColumn ?s = Some _ |- context [targetColumn ?s] => rewrite H
      | H : nicknameRowsEntries ?s = Some _ |- context [nicknameRowsEntries ?s] =>
          rewrite H
      | H : existingValuesEntries ?s = Some _ |- context [existingValuesEntries ?s] =>
          rewrite H
      | H : column ?s = Some _ |- context [column ?s] => rewrite H
      | H : truthy (Some ?c) = true |- context [truthy (Some ?c)] => rewrite H
      | H : ?x = _ |- context [match ?x with _ => _ end] => rewrite H
      | H : ?x = _ |- context [if ?x then _ else _] => rewrite H
      | |- Wp (let _ := _ in _) _ _ _ => cbv zeta
      | |- Wp (bind _ _) _ _ _ => apply wp_bind
      | |- Wp (tryCatch _ _) _ _ _ => apply wp_tryCatch
      | |- Wp (ret _) _ _ _ => apply wp_ret
      | |- Wp (reply _) _ _ _ => apply wp_reply; [lost|]
      | |- Wp (modify _) _ _ _ => apply wp_modify
      | |- Wp getSession _ _ _ => apply wp_getSession
      | |- Wp getPolls _ _ _ => apply wp_getPolls
      | |- Wp initSheetsClient _ _ _ => apply wp_initSheetsClient
      | |- Wp (findNicknameRows _) _ _ _ => apply wp_findNicknameRows
      | |- Wp (checkExistingValues _ _) _ _ _ => apply wp_checkExistingValues
      | |- Wp (writeZeros _ _ _) _ _ _ => apply wp_writeZeros
      | |- Wp findLastDateColumn _ _ _ => apply wp_findLastDateColumn
      | |- Wp (getColumnMetadata _) _ _ _ => apply wp_getColumnMetadata
      | |- Wp (writeColumnMetadata _ _ _ _) _ _ _ => apply wp_writeColumnMetadata
      | |- Wp (replyErrorAndReset _) _ _ _ => apply wp_replyErrorAndReset; [lost|]
      | |- Wp (handleApiError _ _ _) _ _ _ => apply wp_handleApiError
      | |- Wp (match ?x with _ => _ end) _ _ _ => destruct x eqn:?
      | |- True => exact I
      end ].

Lemma wp_writeZerosAndRespond rows column overrideExisting skipped
    (post : unit → _) thrown s :
  post tt initialSession → thrown s →
  Wp (writeZerosAndRespond rows column overrideExisting skipped) post thrown s.
Proof.
  intros Hp Ht. unfold writeZerosAndRespond. wps; assumption.
Qed.

Lemma consistent_override (s : SessionData) (c : string)
    (rows : list (string * nat)) (existing : list ExistingValue) :
  (∀ c, targetColumn s = Some c → validColumn c) →
  c ≠ EmptyString → NoDup (mapKeys rows) → existing ≠ [] →
  (∀ n, n ∈ map ev_nickname existing → n ∈ mapKeys rows) →
  Consistent
    (set_state awaiting_override_confirmation
       (set_existingValuesEntries (Some existing)
          (set_nicknameRowsEntries (Some rows) (set_column (Some c) s)))).
Proof.
  intros Hg Hc Hnd Hne Hsub. split; sess; [exact Hg|]. eauto 10.
Qed.

Lemma wp_checkOverridesAndWrite rows (post : unit → _) thrown s :
  (∀ c, targetColumn s = Some c → validColumn c) →
  truthy (targetColumn s) = true → NoDup (mapKeys rows) →
  (∀ s', Consistent s' → post tt s') → thrown s →
  Wp (checkOverridesAndWrite rows) post thrown s.
Proof.
  intros Hg Htc Hnd Hp Ht. unfold checkOverridesAndWrite.
  apply wp_bind, wp_getSession.
  destruct (targetColumn s) as [c|] eqn:Hc; [|discriminate].
  rewrite Htc. wps; try assumption.
  - apply wp_writeZerosAndRespond; [apply Hp, consistent_initial | assumption].
  - apply Hp, consistent_override; try assumption; try discriminate.
    + intros c0 Hc0. rewrite Hc in Hc0. auto.
    + destruct c; [discriminate Htc | discriminate].
Qed.

Lemma wp_startColumnDetectionFlow (post : unit → _) thrown s :
  (∀ s', Consistent s' → post tt s') →
  Wp startColumnDetectionFlow post thrown s.
Proof.
  intros Hp. unfold startColumnDetectionFlow. wps.
  all: try (apply Hp, consistent_initial).
  - apply Hp. split; sess; [|eauto].
    intros c0 [= <-].
    match goal with
    | Hv : ∀ f, _ = Some f → validColumn (match_column f) |- _ => now apply Hv
    end.
  - apply Hp. split; sess; [|exact I].
    intros c0 [= <-]. now split.
Qed.

Lemma wp_proceedWithPlayerCountCheck (post : unit → _) thrown s :
  (∀ c, targetColumn s = Some c → validColumn c) →
  truthy (targetColumn s) = true → usernames s ≠ [] →
  (∀ s', Consistent s' → post tt s') →
  Wp proceedWithPlayerCountCheck post thrown s.
Proof.
  intros Hg Htc Hu Hp. unfold proceedWithPlayerCountCheck.
  apply wp_bind, wp_getSession. rewrite Htc.
  rewrite bool_decide_eq_false_2 by assumption. cbn [negb orb].
  wps.
  all: try (apply Hp, consistent_initial).
  - apply wp_checkOverridesAndWrite; try assumption.
    intros e. apply wp_handleApiError. apply Hp, consistent_initial.
  - apply Hp. split; sess; [exact Hg|].
    destruct (targetColumn s) as [c|]; [|discriminate]. split; [eauto|].
    eexists. split; [reflexivity|]. split; [discriminate | assumption].
Qed.

Lemma wp_proceedWithMetadataCollection (post : unit → _) thrown s :
  (∀ c, targetColumn s = Some c → validColumn c) →
  truthy (targetColumn s) = true →
  (∀ s', Consistent s' → post tt s') →
  Wp proceedWithMetadataCollection post thrown s.
Proof.
  intros Hg Htc Hp. unfold proceedWithMetadataCollection.
  apply wp_bind, wp_getSession.
  destruct (targetColumn s) as [c|] eqn:Hc; [|discriminate].
  pose proof (Hg c eq_refl) as Hvalid. clear Hg.
  rewrite Htc. wps.
  all: try (apply Hp, consistent_initial).
  all: try (apply Hp; consistent_with Hc Hvalid).
  all: apply wp_proceedWithPlayerCountCheck; sess; rewrite ?Hc; try assumption;
    try congruence.
  all: intros c0 [= <-]; exact Hvalid.
Qed.


Ltac out_of_state Hinv :=
  apply wp_ret; split; [exact Hinv | reflexivity].

Ltac kept Hinv :=
  split; [first [exact Hinv | apply consistent_initial | idtac] | intros; discriminate].

Lemma keeps_handlePollIntent text s :
  Consistent s → Wp (handlePollIntent text) (Kept s) (λ _, True) s.
Proof.
  intros Hinv. unfold handlePollIntent, getPollDataOrError.
  apply wp_bind, wp_getSession.
  destruct (state s) eqn:Hst; try out_of_state Hinv.
  wps; kept Hinv.
  destruct Hinv as [Hg _]. split; sess; [exact Hg | exact I].
Qed.

Lemma keeps_handlePollOptionSelection text s :
  Consistent s → Wp (handlePollOptionSelection text) (Kept s) (λ _, True) s.
Proof.
  intros Hinv. unfold handlePollOptionSelection, getPollDataOrError.
  apply wp_bind, wp_getSession.
  destruct (state s) eqn:Hst; try out_of_state Hinv.
  wps; try kept Hinv.
  apply wp_startColumnDetectionFlow. intros s' Hs'. apply wp_ret. now kept Hs'.
Qed.


Lemma NoDup_keys_mapOfEntries (rows : list (string * nat)) :
  NoDup (mapKeys rows) → NoDup (mapKeys (mapOfEntries rows)).
Proof.
  intros Hnd. now rewrite OverrideFacts.mapOfEntries_entries.
Qed.

(** What the invariant says in the state [Hst]. *)
Ltac facts Hinv Hst :=
  let Hg := fresh "Hg" in
  let Hstate := fresh "Hstate" in
  pose proof Hinv as [Hg Hstate]; rewrite Hst in Hstate; cbn beta iota in Hstate;
  repeat match goal with
         | H : _ ∧ _ |- _ => destruct H
         | H : ∃ _, _ |- _ => destruct H
         end;
  repeat match goal with
         | Htc : targetColumn _ = Some ?c |- _ =>
             lazymatch goal with
             | _ : validColumn c |- _ => fail
             | _ => pose proof (Hg c Htc); pose proof (truthy_valid c (Hg c Htc))
             end
         end.

Ltac leaf Hinv :=
  split;
  [ first [ exact Hinv | apply consistent_initial
          | split; sess;
            [ first [ assumption | intros ? [= <-]; assumption ]
            | eauto 10 ] ]
  | intros; discriminate ].

Ltac workflow :=
  match goal with
  | |- Wp proceedWithMetadataCollection _ _ _ =>
      apply wp_proceedWithMetadataCollection
  | |- Wp proceedWithPlayerCountCheck _ _ _ =>
      apply wp_proceedWithPlayerCountCheck
  | |- Wp (checkOverridesAndWrite _) _ _ _ =>
      apply wp_checkOverridesAndWrite
  | |- Wp startColumnDetectionFlow _ _ _ =>
      apply wp_startColumnDetectionFlow
  | |- Wp (writeZerosAndRespond _ _ _ _) _ _ _ =>
      apply wp_writeZerosAndRespond
  end.

(** The premises of a step of the workflow. *)
Ltac premise :=
  sess;
  repeat match goal with
         | H : targetColumn ?s = Some _ |- context [targetColumn ?s] => rewrite H
         | H : usernames ?s = _ |- context [usernames ?s] => rewrite H
         end;
  first [ assumption
        | intros ? [= <-]; assumption
        | discriminate
        | apply truthy_valid; assumption
        | apply NoDup_keys_mapOfEntries; assumption
        | let s' := fresh "s" in
          let Hs' := fresh "Hs" in
          intros s' Hs'; wps; leaf Hs'
        | intros; wps; try exact I; leaf consistent_initial ].

Ltac handler Hinv :=
  wps; try leaf Hinv; try (workflow; premise).

Lemma keeps_handleDateName text s :
  Consistent s → Wp (ColumnHandlersCommon.handleDateName text) (Kept s) (λ _, True) s.
Proof.
  intros Hinv. unfold ColumnHandlersCommon.handleDateName.
  apply wp_bind, wp_getSession.
  destruct (state s) eqn:Hst; try out_of_state Hinv.
  facts Hinv Hst. handler Hinv.
Qed.

Lemma keeps_handleCost text s :
  Consistent s → Wp (ColumnHandlersCommon.handleCost text) (Kept s) (λ _, True) s.
Proof.
  intros Hinv. unfold ColumnHandlersCommon.handleCost.
  apply wp_bind, wp_getSession.
  destruct (state s) eqn:Hst; try out_of_state Hinv.
  facts Hinv Hst. handler Hinv.
Qed.

Lemma keeps_handleUsernames text s :
  Consistent s → Wp (handleUsernames text) (Kept s) (λ _, True) s.
Proof.
  intros Hinv. unfold handleUsernames.
  apply wp_bind, wp_getSession.
  destruct (state s) eqn:Hst; try out_of_state Hinv.
  facts Hinv Hst. handler Hinv.
Qed.

Lemma keeps_handlePlayerCountConfirmation text s :
  Consistent s → Wp (handlePlayerCountConfirmation text) (Kept s) (λ _, True) s.
Proof.
  intros Hinv. unfold handlePlayerCountConfirmation.
  apply wp_bind, wp_getSession.
  destruct (state s) eqn:Hst; try out_of_state Hinv.
  facts Hinv Hst. handler Hinv.
Qed.

Lemma keeps_handlePlayerCount text s :
  Consistent s → Wp (handlePlayerCount text) (Kept s) (λ _, True) s.
Proof.
  intros Hinv. unfold handlePlayerCount.
  apply wp_bind, wp_getSession.
  destruct (state s) eqn:Hst; try out_of_state Hinv.
  facts Hinv Hst. handler Hinv.
Qed.

Lemma keeps_handleOverrideConfirmation text s :
  Consistent s → Wp (handleOverrideConfirmation text) (Kept s) (λ _, True) s.
Proof.
  intros Hinv. unfold handleOverrideConfirmation.
  apply wp_bind, wp_getSession.
  destruct (state s) eqn:Hst; try out_of_state Hinv.
  facts Hinv Hst.
  match goal with
  | Hc : column s = Some ?c, Hne : ?c ≠ EmptyString |- _ =>
      assert (truthy (Some c) = true) by (destruct c; [congruence | reflexivity])
  end.
  handler Hinv.
Qed.

Lemma keeps_handleColumnConfirmationA text s :
  Consistent s →
  Wp (ColumnHandlersA.handleColumnConfirmation text) (Kept s) (λ _, True) s.
Proof.
  intros Hinv. unfold ColumnHandlersA.handleColumnConfirmation.
  apply wp_bind, wp_getSession.
  destruct (state s) eqn:Hst; try out_of_state Hinv.
  facts Hinv Hst. handler Hinv.
Qed.

Lemma validColumn_next (c : string) :
  validColumn c → validColumn (getNextColumnLetter c).
Proof.
  intros [Hc _]. destruct (getNextColumnLetter_valid c Hc) as (Hcol & Hne & _).
  now split.
Qed.

Lemma validColumn_first : validColumn SHEET_DATA_FIRST_COLUMN.
Proof. now split. Qed.

Lemma keeps_handleNewColumnChoiceA text s :
  Consistent s →
  Wp (ColumnHandlersA.handleNewColumnChoice text) (Kept s) (λ _, True) s.
Proof.
  intros Hinv. unfold ColumnHandlersA.handleNewColumnChoice.
  apply wp_bind, wp_getSession.
  destruct (state s) eqn:Hst; try out_of_state Hinv.
  pose proof Hinv as [Hg _].
  assert (Hnew : validColumn
            (if truthy (targetColumn s)
             then getNextColumnLetter (default EmptyString (targetColumn s))
             else SHEET_DATA_FIRST_COLUMN)).
  { destruct (targetColumn s) as [c|]; [|apply validColumn_first].
    destruct (truthy (Some c)); [|apply validColumn_first].
    apply validColumn_next. now apply Hg. }
  handler Hinv.
Qed.


Lemma wp_findColumnByDateText text post thrown s :
  SearchValid →
  (∀ result, (∀ c d, result = FindSingle c d → validColumn c) → post result s) →
  thrown s →
  Wp (findColumnByDateText text) post thrown s.
Proof.
  intros Hsv Hp Ht m <- Hok. unfold findColumnByDateText, call.
  specialize (Hsv text (world m)).
  destruct (api_findColumnByDateText text (world m)) as [[result|e] w];
    cbn [fst snd session trace] in *.
  - split; [apply Forall_app; split; [assumption | now repeat constructor]|].
    apply Hp. intros c d ->. exact Hsv.
  - split; [apply Forall_app; split; [assumption | now repeat constructor]|].
    exact Ht.
Qed.

Lemma isUpper_upperChar (a : ascii) : isLetter a = true → isUpper (upperChar a) = true.
Proof.
  unfold isLetter, upperChar. destruct (isLower a) eqn:El.
  - intros _. unfold isLower in El. apply andb_true_iff in El as [E1 E2].
    apply Z.leb_le in E1, E2. apply isUpper_range.
    rewrite code_fromCharCode by lia. lia.
  - now rewrite orb_false_r.
Qed.

Lemma validColumn_token (t : string) :
  ColumnHandlersB.isColumnLetterToken t = true → validColumn (toUpperCase t).
Proof.
  destruct t as [|a [|b [|c t]]]; cbn [ColumnHandlersB.isColumnLetterToken];
    try discriminate.
  - intros Ha. split; [|discriminate]. unfold isColumn. cbn [toUpperCase allChars].
    now rewrite isUpper_upperChar.
  - intros Hab. apply andb_true_iff in Hab as [Ha Hb].
    split; [|discriminate]. unfold isColumn. cbn [toUpperCase allChars].
    now rewrite !isUpper_upperChar.
Qed.

Lemma keeps_handleNewColumnChoiceB text s :
  Consistent s →
  Wp (ColumnHandlersB.handleNewColumnChoice text) (Kept s) (λ _, True) s.
Proof.
  intros Hinv.
  unfold ColumnHandlersB.handleNewColumnChoice, ColumnHandlersB.askForDateName.
  apply wp_bind, wp_getSession.
  destruct (state s) eqn:Hst; try out_of_state Hinv.
  pose proof Hinv as [Hg _].
  assert (Hnew : validColumn
            (if truthy (targetColumn s)
             then default EmptyString (targetColumn s)
             else SHEET_DATA_FIRST_COLUMN)).
  { destruct (targetColumn s) as [c|]; [|apply validColumn_first].
    destruct (truthy (Some c)); [|apply validColumn_first].
    now apply Hg. }
  handler Hinv.
Qed.

Lemma keeps_handleColumnConfirmationB text s :
  SearchValid → Consistent s →
  Wp (ColumnHandlersB.handleColumnConfirmation text) (Kept s) (λ _, True) s.
Proof.
  intros Hsv Hinv.
  unfold ColumnHandlersB.handleColumnConfirmation, ColumnHandlersB.askForDateName,
    ColumnHandlersB.searchByDateText.
  apply wp_bind, wp_getSession.
  destruct (state s) eqn:Hst; try out_of_state Hinv.
  facts Hinv Hst.
  match goal with
  | Hv : validColumn ?c |- _ => pose proof (validColumn_next c Hv)
  end.
  pose proof (validColumn_token (trim text)) as Htoken.
  wps; try leaf Hinv; try (workflow; premise).
  - specialize (Htoken eq_refl). workflow; premise.
  - apply wp_findColumnByDateText; [exact Hsv | |].
    + intros result Hres. destruct result as [error|matches|found date|].
      * handler Hinv.
      * handler Hinv.
      * pose proof (Hres found date eq_refl). handler Hinv.
      * handler Hinv.
    + intros e. handler Hinv.
Qed.


Lemma wp_orElse (handler : M bool) (rest : M unit) s :
  Wp handler (Kept s) (λ _, True) s →
  Wp rest (λ _ s', Consistent s') (λ _, True) s →
  Wp (orElse handler rest) (λ _ s', Consistent s') (λ _, True) s.
Proof.
  intros Hh Hrest. unfold orElse. apply wp_bind.
  eapply wp_conseq; [exact Hh | | auto].
  intros [|] s' [Hs' Hsame].
  - now apply wp_ret.
  - now rewrite (Hsame eq_refl).
Qed.

Lemma keeps_onText (handlers : ColumnHandlers) (messageText : string) s :
  Installed handlers → Consistent s →
  Wp (onText handlers messageText) (λ _ s', Consistent s') (λ _, True) s.
Proof.
  intros [->|[-> Hsv]] Hinv; unfold onText;
    cbn [handleColumnConfirmation handleNewColumnChoice handleDateName handleCost
         columnHandlersA columnHandlersB];
    repeat (apply wp_orElse;
            [ first [ now apply keeps_handlePollIntent
                    | now apply keeps_handlePollOptionSelection
                    | now apply keeps_handleColumnConfirmationA
                    | now apply keeps_handleColumnConfirmationB
                    | now apply keeps_handleNewColumnChoiceA
                    | now apply keeps_handleNewColumnChoiceB
                    | now apply keeps_handleDateName
                    | now apply keeps_handleCost
                    | now apply keeps_handleUsernames
                    | now apply keeps_handlePlayerCountConfirmation
                    | now apply keeps_handlePlayerCount
                    | now apply keeps_handleOverrideConfirmation ] |]);
    (apply wp_reply; [lost | assumption]).
Qed.

Lemma keeps_handleInbound (handlers : ColumnHandlers) (ev : Inbound) s :
  Installed handlers → Consistent s →
  Wp (handleInbound handlers ev) (λ _ s', Consistent s') (λ _, True) s.
Proof.
  intros Hh Hinv. destruct ev; cbn [handleInbound].
  - unfold onUpdateCommand. wps. apply wp_startColumnDetectionFlow. auto.
  - unfold onCancelCommand. wps. apply consistent_initial.
  - unfold onAbortCommand. wps. apply consistent_initial.
  - now apply keeps_onText.
  - unfold onPollMessage. wps; try assumption.
    destruct Hinv as [Hg _]. split; sess; [exact Hg | exact I].
Qed.

Lemma reachable_fine (handlers : ColumnHandlers) (m : Machine) :
  Installed handlers → Reachable handlers m →
  Consistent (session m) ∧ TraceOk m.
Proof.
  intros Hh Hreach. induction Hreach as [polls w | m ev Hreach [Hinv Hok] | m polls w Hreach IH].
  - split; [apply consistent_initial | constructor].
  - destruct (keeps_handleInbound handlers ev (session m) Hh Hinv m eq_refl Hok)
      as [Hok' Hpost].
    assert (Hab : handlers = columnHandlersA ∨ handlers = columnHandlersB)
      by (destruct Hh as [->|[-> _]]; auto).
    destruct (FailureFacts.returns_handleInbound handlers ev Hab m) as (a & m' & Hrun).
    rewrite Hrun in *. now split.
  - exact IH.
Qed.

(** X19. In every conversation the session holds what the handler of its
    state reads: a target column (a coordinate of capital letters) while
    the engine waits for the column confirmation, the date name, the
    cost or the usernames; the target column and a non-empty map of
    matched rows while it waits for the player count or its confirmation;
    the column, the map of matched rows and a non-empty list of conflicts
    whose nicknames are keys of that map while it waits for the override
    answer. *)
Theorem session_holds_what_is_read (handlers : ColumnHandlers) (m : Machine) :
  Installed handlers → Reachable handlers m → Consistent (session m).
Proof. intros Hh Hreach. now apply (reachable_fine handlers m Hh Hreach). Qed.

(** X20. In no conversation does the engine report lost session data: the
    replies "session data lost", "target column not set" and "missing
    usernames or target column" are never sent. *)
Theorem session_data_never_lost (handlers : ColumnHandlers) (m : Machine) :
  Installed handlers → Reachable handlers m →
  (Reply ERR_SESSION_DATA_LOST ∉ trace m) ∧
  (Reply ERR_TARGET_COLUMN_NOT_SET ∉ trace m) ∧
  (Reply "❌ Error: missing usernames or target column. Start over with /update"
     ∉ trace m).
Proof.
  intros Hh Hreach. destruct (reachable_fine handlers m Hh Hreach) as [_ Hok].
  unfold TraceOk in Hok. rewrite Forall_forall in Hok.
  repeat split; intros Hin; apply Hok in Hin; discriminate Hin.
Qed.

End Facts.

Import Demo CheckedStore.

Lemma searchValid_checked : @SearchValid wholeNumbers checked.
Proof.
  intros text w. cbn [api_findColumnByDateText checked].
  destruct w as [|[| | |[error|matches|c d|]|e] rest]; try exact I.
  destruct (isColumnName c) eqn:E; [|exact I]. cbn [fst].
  unfold isColumnName in E. apply andb_true_iff in E as [Hcol Hne].
  split; [exact Hcol|]. intros ->. discriminate Hne.
Qed.

(** The update command on a sheet with one date column, then a date text
    as the answer to the column question, with the handlers that search
    for it. *)
Lemma session_holds_what_is_read_witness :
  Consistent
    (session
       (snd (@handleInbound wholeNumbers checked columnHandlersB (Text "Sep 14")
               (snd (@handleInbound wholeNumbers checked columnHandlersB UpdateCommand
                       (@mkMachine wholeNumbers checked initialSession ∅ []
                          [Done; Values (Some [[CStr "Sep 7"; CStr ""]]);
                           Done; Found (FindSingle "H" "Sep 14");
                           Done; Values (Some [[CStr "Sep 14"]])])))))).
Proof.
  apply (@session_holds_what_is_read wholeNumbers checked columnHandlersB).
  - right. split; [reflexivity | exact searchValid_checked].
  - apply reach_inbound, reach_inbound, reach_start.
Defined.

(** The cost is sent, and the store refuses the write. *)
Lemma session_data_never_lost_witness :
  Reply ERR_TARGET_COLUMN_NOT_SET
    ∉ trace (snd (handleInbound columnHandlersA (Text "12")
                    (snd (handleInbound columnHandlersA UpdateCommand
                            (start idle [Done; Values (Some [[CStr "Sep 7"; CStr ""]])]))))).
Proof.
  apply (session_data_never_lost columnHandlersA); [now left|].
  apply reach_inbound, reach_inbound. exact (reach_start columnHandlersA ∅ _).
Defined.

End SessionFacts.
